(** * slo2bq: exporting Stackdriver SLO performance data to BigQuery

    A shallow embedding of the Go package [slo2bq] (and of the parts of
    [slo2bq/clients] it relies on), together with the properties of the
    synchronisation engine: resource-name parsing, the BigQuery lease, the
    existing-data index, day boundaries, the SLI evaluators and the batched
    writer. *)

From Stdlib Require Import ZArith List String Ascii Lia Bool.
From Stdlib Require Import Floats DecimalString DecimalZ DecimalPos.
From stdpp Require Import base option list gmap strings.

Local Open Scope string_scope.
Local Open Scope list_scope.
Local Open Scope Z_scope.

(* ===================================================================== *)
(** * Machine integers *)
(* ===================================================================== *)

Module Int64.

Definition min_int : Z := - 2 ^ 63.
Definition max_int : Z := 2 ^ 63 - 1.

Definition in_range (z : Z) : Prop := min_int <= z <= max_int.

Definition in_rangeb (z : Z) : bool := (min_int <=? z) && (z <=? max_int).

(** Two's-complement reduction of a mathematical integer to [int64]: the
    value Go computes when an [int64] operation overflows. *)
Definition wrap (z : Z) : Z := (z + 2 ^ 63) mod 2 ^ 64 - 2 ^ 63.

Definition add (a b : Z) : Z := wrap (a + b).
Definition sub (a b : Z) : Z := wrap (a - b).

End Int64.

(* ===================================================================== *)
(** * Outcomes of Go calls *)
(* ===================================================================== *)

(** Errors are values in Go.  Errors handed back by a collaborator are kept
    as they are ([ErrExternal]); the others are the [fmt.Errorf] sites of the
    package, one constructor per site. *)
Inductive error : Type :=
| ErrExternal (msg : string)
| ErrLoadLocation (name : string)
| ErrListTimeSeries (cause : error)
| ErrExpectedTwoSeries
| ErrExpectedOneSeries
| ErrExpectedOnePoint
| ErrValueType
| ErrEventType (label : string)
| ErrTwoOfThree
| ErrBQRow
| ErrLeaseParse (value : string)
| ErrLeaseStillValid (until : Z)
| ErrLeaseUpdate (cause : error).

(** Run-time panics that the modelled code can raise. *)
Inductive panic : Type :=
| IndexOutOfRange (index : nat) (len : nat)
| NilDereference.

Inductive outcome (A : Type) : Type :=
| Ret (a : A)
| Fail (e : error)
| Panic (p : panic).

Arguments Ret {A} a.
Arguments Fail {A} e.
Arguments Panic {A} p.

Definition is_Ret {A} (o : outcome A) : bool :=
  match o with Ret _ => true | _ => false end.

Definition is_Fail {A} (o : outcome A) : bool :=
  match o with Fail _ => true | _ => false end.

Definition is_Panic {A} (o : outcome A) : bool :=
  match o with Panic _ => true | _ => false end.

(** Slice indexing [s[i]], which panics out of range. *)
Definition index {A} (s : list A) (i : nat) : outcome A :=
  match s !! i with
  | Some x => Ret x
  | None => Panic (IndexOutOfRange i (length s))
  end.

(* ===================================================================== *)
(** * package strings *)
(* ===================================================================== *)

Module Strings.

(** [strings.Split(s, sep)] for a one-byte separator: the substrings of [s]
    between the occurrences of [sep]; [n] occurrences give [n + 1]
    elements, so the result is never empty. *)
Fixpoint Split (s : string) (sep : ascii) : list string :=
  match s with
  | EmptyString => [EmptyString]
  | String c rest =>
      if Ascii.eqb c sep then EmptyString :: Split rest sep
      else match Split rest sep with
           | h :: t => String c h :: t
           | [] => [String c EmptyString]
           end
  end.

Fixpoint Contains (s : string) (c : ascii) : bool :=
  match s with
  | EmptyString => false
  | String d rest => Ascii.eqb d c || Contains rest c
  end.

(** [s != ""] *)
Definition nonempty (s : string) : bool :=
  match s with EmptyString => false | _ => true end.

End Strings.

(* ===================================================================== *)
(** * package strconv *)
(* ===================================================================== *)

Module Strconv.

Definition digit (c : ascii) : option Z :=
  let n := Z.of_nat (nat_of_ascii c) in
  if (48 <=? n) && (n <=? 57) then Some (n - 48) else None.

Fixpoint digits (s : string) (acc : Z) : option Z :=
  match s with
  | EmptyString => Some acc
  | String c rest =>
      match digit c with
      | Some d => digits rest (acc * 10 + d)
      | None => None
      end
  end.

(** [strconv.ParseUint(s, 10, 64)]: a non-empty run of decimal digits whose
    value fits 64 bits; [None] stands for any [*NumError]. *)
Definition ParseUint (s : string) : option Z :=
  match s with
  | EmptyString => None
  | _ => match digits s 0 with
         | Some n => if n <? 2 ^ 64 then Some n else None
         | None => None
         end
  end.

(** [strconv.ParseInt(s, 10, 64)]: an optional sign followed by
    [ParseUint]; the magnitude must fit [int64]. *)
Definition ParseInt (s : string) : option Z :=
  match s with
  | EmptyString => None
  | String c rest =>
      let '(neg, body) :=
        if Ascii.eqb c "+" then (false, rest)
        else if Ascii.eqb c "-" then (true, rest)
        else (false, s) in
      match ParseUint body with
      | None => None
      | Some un =>
          let cutoff := 2 ^ 63 in
          if negb neg && (cutoff <=? un) then None
          else if neg && (cutoff <? un) then None
          else Some (if neg then - un else un)
      end
  end.

(** [strconv.FormatInt(i, 10)] *)
Definition FormatInt (i : Z) : string := NilZero.string_of_int (Z.to_int i).

End Strconv.

(* ===================================================================== *)
(** * float64 *)
(* ===================================================================== *)

Module Float64.

(** The integer part of a finite binary64 value [(-1)^s * m * 2^e],
    rounding toward zero. *)
Definition trunc (f : float) : option Z :=
  match Prim2SF f with
  | S754_zero _ => Some 0
  | S754_finite s m e =>
      let mag := if 0 <=? e then Z.pos m * 2 ^ e else Z.pos m / 2 ^ (- e) in
      Some (if s then - mag else mag)
  | S754_infinity _ => None
  | S754_nan => None
  end.

(** The conversion [int64(f)].  It discards the fraction; when the integer
    part does not fit (or [f] is an infinity or a NaN) Go leaves the result
    to the implementation, here [indefinite]. *)
Definition to_int64 (indefinite : float -> Z) (f : float) : Z :=
  match trunc f with
  | Some z => if Int64.in_rangeb z then z else indefinite f
  | None => indefinite f
  end.

End Float64.

(* ===================================================================== *)
(** * package time *)
(* ===================================================================== *)

(** The part of Go's [time] package that the day-boundary computation goes
    through: zone lookup, the proleptic Gregorian calendar, [Date], [AddDate]
    and the layout ["2006-01-02"].  Go works on seconds counted from an
    absolute epoch chosen to keep the arithmetic unsigned; here the same
    steps are taken on [Z] with floor division, counting days from January 1
    of year 1, which is aligned with the same 400-year cycles. *)
Module GoTime.

Definition secondsPerDay : Z := 86400.
Definition daysPer400Years : Z := 146097.
Definition daysPer100Years : Z := 36524.
Definition daysPer4Years : Z := 1461.

(** Seconds from January 1, year 1 to January 1, 1970. *)
Definition unixToInternal : Z := 62135596800.
Definition internalToUnix : Z := - unixToInternal.

(** Days from January 1, year 1 to January 1, 1970. *)
Definition unixEpochDay : Z := 719162.

(** A zone transition: from instant [when] (Unix seconds) on, local time is
    UTC plus [offset] seconds. *)
Record zoneTrans : Type := mkTrans { when : Z; offset : Z }.

(** [type Location]: the offset in force before the first transition and
    the transitions in increasing order of [when]. *)
Record Location : Type := mkLocation { zoneFirst : Z; tx : list zoneTrans }.

Definition UTC : Location := mkLocation 0 [].

(** The zone of the process; this package converts every instant with
    [In(loc)] before looking at it, so it is never observed. *)
Definition Local : Location := UTC.

Definition alpha : Z := - 2 ^ 63.
Definition omega : Z := 2 ^ 63 - 1.

Fixpoint lookupTx (txs : list zoneTrans) (off start sec : Z) : Z * Z * Z :=
  match txs with
  | [] => (off, start, omega)
  | t :: rest =>
      if sec <? when t then (off, start, when t)
      else lookupTx rest (offset t) (when t) sec
  end.

(** [func (l *Location) lookup(sec int64) (name, offset, start, end)]: the
    offset in force at [sec] and the bounds of the period it belongs to. *)
Definition lookup (l : Location) (sec : Z) : Z * Z * Z :=
  lookupTx (tx l) (zoneFirst l) alpha sec.

Definition offsetAt (l : Location) (sec : Z) : Z := fst (fst (lookup l sec)).

(** [type Time]: [isec] counts seconds from January 1, year 1 UTC and is an
    [int64] in Go. *)
Record Time : Type := mkTime { isec : Z; nsec : Z; loc : Location }.

(** [unixTime(sec, nsec)] followed by [setLoc(loc)] *)
Definition unixTime (sec nsec : Z) (l : Location) : Time :=
  mkTime (Int64.wrap (sec + unixToInternal)) nsec l.

(** [time.Unix(sec, nsec)] for [0 <= nsec < 1e9] *)
Definition FromUnix (sec nsec : Z) : Time := unixTime sec nsec Local.

(** [func (t Time) Unix() int64] *)
Definition Unix (t : Time) : Z := Int64.wrap (isec t + internalToUnix).

(** [func (t Time) After(u Time) bool] (no monotonic reading on [t]) *)
Definition After (t u : Time) : bool :=
  (isec u <? isec t) || ((isec t =? isec u) && (nsec u <? nsec t)).

(** [func (t Time) Sub(u Time) Duration], in whole seconds; the instants
    compared here are second-aligned and a few days apart. *)
Definition SubSeconds (t u : Time) : Z := isec t - isec u.

(** [func (t Time) In(loc *Location) Time] *)
Definition In (t : Time) (l : Location) : Time := mkTime (isec t) (nsec t) l.

(** [func norm(hi, lo, base int) (nhi, nlo int)] *)
Definition norm (hi lo base : Z) : Z * Z := (hi + lo / base, lo mod base).

Definition isLeap (year : Z) : bool :=
  (year mod 4 =? 0) && (negb (year mod 100 =? 0) || (year mod 400 =? 0)).

Definition daysBefore : list Z :=
  [0; 31; 59; 90; 120; 151; 181; 212; 243; 273; 304; 334; 365].

Definition daysBeforeMonth (i : Z) : Z := nth (Z.to_nat i) daysBefore 0.

(** [daysSinceEpoch(year)]: days from January 1, year 1 to January 1 of
    [year]. *)
Definition daysSinceEpoch (year : Z) : Z :=
  let y := year - 1 in
  let n400 := y / 400 in
  let y := y - 400 * n400 in
  let n100 := y / 100 in
  let y := y - 100 * n100 in
  let n4 := y / 4 in
  let y := y - 4 * n4 in
  daysPer400Years * n400 + daysPer100Years * n100 + daysPer4Years * n4 + 365 * y.

(** Day number (from January 1, year 1) of a calendar date; [day] is not
    normalised, so day 0 is the last day of the previous month. *)
Definition civilDay (year month day : Z) : Z :=
  daysSinceEpoch year + daysBeforeMonth (month - 1)
  + (if isLeap year && (3 <=? month) then 1 else 0)
  + (day - 1).

(** The zone adjustment at the end of [Date]: [unix] is the wall-clock
    reading taken as if it were UTC; the result is the offset subtracted
    from it (Go 1.11, the runtime the function is deployed on). *)
Definition resolveOffset (l : Location) (unix : Z) : Z :=
  let '(off, start, end_) := lookup l unix in
  if off =? 0 then 0
  else
    let utc := unix - off in
    if utc <? start then offsetAt l (start - 1)
    else if end_ <=? utc then offsetAt l end_
    else off.

(** [func Date(year, month, day, hour, min, sec, nsec, loc) Time] *)
Definition Date (year month day hour min sec nsec : Z) (l : Location) : Time :=
  let '(year, m) := norm year (month - 1) 12 in
  let month := m + 1 in
  let '(sec, nsec) := norm sec nsec 1000000000 in
  let '(min, sec) := norm min sec 60 in
  let '(hour, min) := norm hour min 60 in
  let '(day, hour) := norm day hour 24 in
  let d := civilDay year month day in
  let abs := d * secondsPerDay + hour * 3600 + min * 60 + sec in
  let unix := abs - unixEpochDay * secondsPerDay in
  unixTime (unix - resolveOffset l unix) nsec l.

(** Seconds of local wall-clock time since January 1, year 1 ([t.abs()]). *)
Definition abs (t : Time) : Z :=
  let sec := Unix t in
  sec + offsetAt (loc t) sec + unixEpochDay * secondsPerDay.

(** The end of [absDate]: month and day of the month from the day of the
    year, for a year in which February has 28 days. *)
Definition monthDay (year day : Z) : Z * Z * Z :=
  (* Estimate month on assumption that every month has 31 days. *)
  let month := day / 31 in
  let end_ := daysBeforeMonth (month + 1) in
  let '(month, begin) :=
    if end_ <=? day then (month + 1, end_) else (month, daysBeforeMonth month) in
  (year, month + 1, day - begin + 1).

(** [absDate], after the 400-year cycles have been cut off: the calendar
    date of day [d] of a cycle that begins with year [y + 1]. *)
Definition cycleDate (y d : Z) : Z * Z * Z :=
  let n := d / daysPer100Years in
  let n := n - n / 4 in
  let y := y + 100 * n in
  let d := d - daysPer100Years * n in
  let n := d / daysPer4Years in
  let y := y + 4 * n in
  let d := d - daysPer4Years * n in
  let n := d / 365 in
  let n := n - n / 4 in
  let y := y + n in
  let d := d - 365 * n in
  let year := y + 1 in
  let yday := d in
  if isLeap year then
    if 31 + 29 - 1 <? yday then monthDay year (yday - 1)
    else if yday =? 31 + 29 - 1 then (year, 2, 29)
    else monthDay year yday
  else monthDay year yday.

(** [absDate]: the calendar date of a day number. *)
Definition civil (days : Z) : Z * Z * Z :=
  let n := days / daysPer400Years in
  cycleDate (400 * n) (days - daysPer400Years * n).

(** [func (t Time) Date() (year int, month Month, day int)] *)
Definition DateOf (t : Time) : Z * Z * Z := civil (abs t / secondsPerDay).

(** [func (t Time) Clock() (hour, min, sec int)] *)
Definition Clock (t : Time) : Z * Z * Z :=
  let s := abs t mod secondsPerDay in
  (s / 3600, (s mod 3600) / 60, s mod 60).

(** [func (t Time) AddDate(years, months, days int) Time] *)
Definition AddDate (t : Time) (years months days : Z) : Time :=
  let '(year, month, day) := DateOf t in
  let '(hour, min, sec) := Clock t in
  Date (year + years) (month + months) (day + days) hour min sec (nsec t) (loc t).

Definition zeros (n : nat) : string := string_of_list_ascii (repeat "0"%char n).

(** [appendInt(b, x, width)]: decimal, zero-padded to [width] digits. *)
Definition appendInt (x : Z) (width : nat) : string :=
  let ds := Strconv.FormatInt (Z.abs x) in
  let sign := if x <? 0 then "-" else "" in
  String.append sign (String.append (zeros (width - String.length ds)) ds).

(** [t.Format("2006-01-02")] *)
Definition FormatDate (t : Time) : string :=
  let '(year, month, day) := DateOf t in
  String.append (appendInt year 4)
    (String.append "-" (String.append (appendInt month 2)
      (String.append "-" (appendInt day 2)))).

End GoTime.

(* ===================================================================== *)
(** * package slo2bq: day boundaries *)
(* ===================================================================== *)

(** [func daysAgoMidnightTimestamp(now time.Time, loc *time.Location, daysAgo int) time.Time] *)
Definition daysAgoMidnightTimestamp
    (now : GoTime.Time) (loc : GoTime.Location) (daysAgo : Z) : GoTime.Time :=
  let '(year, month, day) :=
    GoTime.DateOf (GoTime.AddDate (GoTime.In now loc) 0 0 (- daysAgo)) in
  GoTime.Date year month day 0 0 0 0 loc.

(** Zone data used by the package's tests (IANA tz database, rules in force
    in 2015). *)
Module Zones.

Definition at_utc (year month day hour min : Z) : Z :=
  GoTime.Unix (GoTime.Date year month day hour min 0 0 GoTime.UTC).

(** Europe/London: GMT, with BST (+1h) from 2015-03-29 01:00 UTC to
    2015-10-25 01:00 UTC. *)
Definition London : GoTime.Location :=
  GoTime.mkLocation 0
    [ GoTime.mkTrans (at_utc 2014 3 30 1 0) 3600;
      GoTime.mkTrans (at_utc 2014 10 26 1 0) 0;
      GoTime.mkTrans (at_utc 2015 3 29 1 0) 3600;
      GoTime.mkTrans (at_utc 2015 10 25 1 0) 0;
      GoTime.mkTrans (at_utc 2016 3 27 1 0) 3600;
      GoTime.mkTrans (at_utc 2016 10 30 1 0) 0 ].

(** Australia/Lord_Howe: +10:30, with +11:00 from the first Sunday of
    October (02:00 standard time) to the first Sunday of April (02:00
    daylight time). *)
Definition Lord_Howe : GoTime.Location :=
  GoTime.mkLocation 37800
    [ GoTime.mkTrans (at_utc 2014 10 4 15 30) 39600;
      GoTime.mkTrans (at_utc 2015 4 4 15 0) 37800;
      GoTime.mkTrans (at_utc 2015 10 3 15 30) 39600;
      GoTime.mkTrans (at_utc 2016 4 2 15 0) 37800 ].

(** America/Sao_Paulo: -03:00, with -02:00 from the third Sunday of October
    (00:00 standard time) to a Sunday of February (00:00 daylight time): on
    the spring-forward day the clock jumps from 00:00 to 01:00. *)
Definition Sao_Paulo : GoTime.Location :=
  GoTime.mkLocation (-10800)
    [ GoTime.mkTrans (at_utc 2014 10 19 3 0) (-7200);
      GoTime.mkTrans (at_utc 2015 2 22 2 0) (-10800);
      GoTime.mkTrans (at_utc 2015 10 18 3 0) (-7200);
      GoTime.mkTrans (at_utc 2016 2 21 2 0) (-10800) ].

End Zones.

(* ===================================================================== *)
(** * package clients: data exchanged with the collaborators *)
(* ===================================================================== *)

Module Clients.

(** [type Service struct] *)
Record Service : Type := mkService {
  svcName : string;
  svcDisplayName : string;
  svcType : string;
  svcResourceName : string
}.

(** [func (s *Service) HumanName() string] *)
Definition Service_HumanName (s : Service) : outcome string :=
  if Strings.nonempty (svcDisplayName s) then Ret (svcDisplayName s)
  else
    (* Name is like 'projects/$project/services/$service'. *)
    let elements := Strings.Split (svcName s) "/" in
    index elements 3.

(** The indicator of an SLO.  The three-way ratio form reads
    [slo.SLI.RequestBasedSLI.GoodTotalRatioSLI], two pointers that may be
    nil, and its three filter expressions. *)
Record GoodTotalRatioSLI : Type := mkGoodTotalRatioSLI {
  Good : string;
  Bad : string;
  Total : string
}.

Record RequestBasedSLI : Type := mkRequestBasedSLI {
  goodTotalRatioSLI : option GoodTotalRatioSLI
}.

Record SLI : Type := mkSLI {
  requestBasedSLI : option RequestBasedSLI
}.

(** [type SLO struct] *)
Record SLO : Type := mkSLO {
  sloName : string;
  sloDisplayName : string;
  sloGoal : float;
  sloSLI : SLI
}.

(** [func (s *SLO) HumanName() string] *)
Definition SLO_HumanName (s : SLO) : outcome string :=
  if Strings.nonempty (sloDisplayName s) then Ret (sloDisplayName s)
  else
    (* Name is like
       'projects/$project/services/$service/serviceLevelObjectives/$slo'. *)
    let elements := Strings.Split (sloName s) "/" in
    index elements 5.

(** [type BQRow struct] *)
Record BQRow : Type := mkBQRow {
  rowService : string;
  rowSLO : string;
  rowDate : string;
  rowTotal : Z;
  rowGood : Z;
  rowTarget : float
}.

(** [metricpb.MetricDescriptor_ValueType] *)
Inductive ValueType : Type :=
| VALUE_TYPE_UNSPECIFIED | BOOL | INT64 | DOUBLE | STRING | DISTRIBUTION | MONEY.

(** [monitoringpb.TypedValue]: a oneof, possibly unset. *)
Inductive TypedValue : Type :=
| NoValue
| BoolValue (b : bool)
| Int64Value (i : Z)
| DoubleValue (f : float)
| StringValue (s : string)
| DistributionValue.

Definition GetDoubleValue (v : TypedValue) : float :=
  match v with DoubleValue f => f | _ => 0%float end.

Definition GetInt64Value (v : TypedValue) : Z :=
  match v with Int64Value i => i | _ => 0 end.

(** [monitoringpb.Point] (the interval of a point is not read). *)
Record Point : Type := mkPoint { pointValue : TypedValue }.

(** [monitoringpb.TimeSeries] *)
Record TimeSeries : Type := mkTimeSeries {
  metricLabels : gmap string string;
  valueType : ValueType;
  Points : list Point
}.

(** [labels[k]]: a missing key reads as the empty string. *)
Definition label (s : TimeSeries) (k : string) : string :=
  default "" (metricLabels s !! k).

Inductive Aligner : Type := ALIGN_NONE | ALIGN_DELTA.
Inductive Reducer : Type := REDUCE_NONE | REDUCE_SUM.

(** [monitoringpb.ListTimeSeriesRequest] *)
Record ListTimeSeriesRequest : Type := mkRequest {
  reqName : string;
  reqFilter : string;
  reqStartTime : Z;
  reqEndTime : Z;
  reqAlignmentPeriod : Z;
  reqPerSeriesAligner : Aligner;
  reqCrossSeriesReducer : Reducer
}.

End Clients.

Export Clients.

(* ===================================================================== *)
(** * package slo2bq: the collaborators and the sequential world *)
(* ===================================================================== *)

(** [type Config struct] *)
Record Config : Type := mkConfig {
  Project : string;
  Dataset : string;
  TimeZone : string
}.

(** BigQuery table name for the raw data. *)
Definition tableName : string := "data".

Definition bqLeaseLabelName : string := "slo2bq_lease_expiration".

(** The collaborators of the package, as transitions of an outside world
    [W]: the interfaces [MetricClient], [SLOClient] and [BigQueryClient],
    the clock behind the package variable [timeNow] (a test seam), the
    clock [time.Now] and the time-zone database.  The slices of pointers
    that the listings and queries return are lists of the structs pointed
    to: a nil element of such a slice is not represented. *)
Record Env (W : Type) : Type := mkEnv {
  timeNow : W -> GoTime.Time * W;
  time_Now : W -> GoTime.Time * W;
  LoadLocation : string -> outcome GoTime.Location;
  ListTimeSeries : ListTimeSeriesRequest -> W -> outcome (list TimeSeries) * W;
  Services : W -> outcome (list Service) * W;
  SLOs : Service -> W -> outcome (list SLO) * W;
  Query : string -> W -> outcome (list BQRow) * W;
  Put : string -> string -> list BQRow -> W -> option error * W;
  ReadDatasetMetadataLabel : string -> string -> W -> outcome (string * string) * W;
  WriteDatasetMetadataLabel : string -> string -> string -> string -> W -> option error * W
}.

Arguments timeNow {W} _ _.
Arguments time_Now {W} _ _.
Arguments LoadLocation {W} _ _.
Arguments ListTimeSeries {W} _ _ _.
Arguments Services {W} _ _.
Arguments SLOs {W} _ _ _.
Arguments Query {W} _ _ _.
Arguments Put {W} _ _ _ _ _.
Arguments ReadDatasetMetadataLabel {W} _ _ _ _.
Arguments WriteDatasetMetadataLabel {W} _ _ _ _ _ _.

(** The calls made on the collaborators, in order. *)
Inductive Event : Type :=
| EvListTimeSeries (req : ListTimeSeriesRequest)
| EvServices
| EvSLOs (svc : Service)
| EvQuery (q : string)
| EvPut (dataset table : string) (rows : list BQRow)
| EvReadLabel (dataset label : string)
| EvWriteLabel (dataset label value etag : string).

Record State (W : Type) : Type := mkState { world : W; trace : list Event }.

Arguments mkState {W} _ _.
Arguments world {W} _.
Arguments trace {W} _.

(** Sequential Go code: a state transformer that returns, fails with an
    error value, or panics. *)
Definition M (W A : Type) : Type := State W -> outcome A * State W.

Definition ret {W A} (a : A) : M W A := fun st => (Ret a, st).

Definition fail {W A} (e : error) : M W A := fun st => (Fail e, st).

Definition lift {W A} (o : outcome A) : M W A := fun st => (o, st).

Definition bind {W A B} (c : M W A) (k : A -> M W B) : M W B :=
  fun st =>
    match c st with
    | (Ret a, st') => k a st'
    | (Fail e, st') => (Fail e, st')
    | (Panic p, st') => (Panic p, st')
    end.

Declare Scope go_scope.
Delimit Scope go_scope with go.

Notation "x <- c ;; k" := (bind c (fun x => k))
  (at level 100, c at next level, right associativity) : go_scope.

(** A call that returns [(T, error)]. *)
Definition call {W A} (op : W -> outcome A * W) (ev : Event) : M W A :=
  fun st =>
    let '(r, w) := op (world st) in
    (r, mkState w (trace st ++ [ev])).

(** A call that returns only [error]; the error is handed to the caller as
    a value. *)
Definition call_err {W} (op : W -> option error * W) (ev : Event) : M W (option error) :=
  fun st =>
    let '(r, w) := op (world st) in
    (Ret r, mkState w (trace st ++ [ev])).

(** Reading a clock leaves no trace. *)
Definition clock {W} (op : W -> GoTime.Time * W) : M W GoTime.Time :=
  fun st =>
    let '(t, w) := op (world st) in
    (Ret t, mkState w (trace st)).

(* ===================================================================== *)
(** * package slo2bq: lease, existing-data index and backfill *)
(* ===================================================================== *)

(** [type bqMapKey struct{ Service, SLO, Date string }] and
    [type bqMap map[bqMapKey]bool] *)
Abbreviation bqMapKey := (string * string * string)%type.
Abbreviation bqMap := (gmap (string * string * string) bool).

(** [func (b bqMap) Add(service, slo, date string)] *)
Definition bqMap_Add (b : bqMap) (service slo date : string) : bqMap :=
  <[(service, slo, date) := true]> b.

(** [func (b bqMap) Check(service, slo, date string) bool]: a missing key
    reads as [false]. *)
Definition bqMap_Check (b : bqMap) (service slo date : string) : bool :=
  default false (b !! (service, slo, date)).

(** [type bqLease struct] *)
Record bqLease : Type := mkLease { leaseDataset : string }.

Section Engine.

Context {W : Type}.
Variable env : Env W.

(** Package variable [backfillDays] (40 by default; tests set it). *)
Variable backfillDays : Z.

Local Open Scope go_scope.

(** [func newBqLease(ctx, client, dataset, expiration)], returning a lease
    or an error. *)
Definition newBqLease (dataset : string) (expiration : GoTime.Time) : M W bqLease :=
  r <- call (ReadDatasetMetadataLabel env dataset bqLeaseLabelName)
            (EvReadLabel dataset bqLeaseLabelName) ;;
  let '(exp, etag) := r in
  _ <- (if Strings.nonempty exp then
          (* Label value is expiration time as a Unix timestamp. *)
          match Strconv.ParseInt exp with
          | None => fail (ErrLeaseParse exp)
          | Some ts =>
              now <- clock (time_Now env) ;;
              let t := GoTime.FromUnix ts 0 in
              if GoTime.After t now then fail (ErrLeaseStillValid ts)
              else ret tt
          end
        else ret tt) ;;
  let value := Strconv.FormatInt (GoTime.Unix expiration) in
  err <- call_err (WriteDatasetMetadataLabel env dataset bqLeaseLabelName value etag)
                  (EvWriteLabel dataset bqLeaseLabelName value etag) ;;
  match err with
  | Some e => fail (ErrLeaseUpdate e)
  | None => ret (mkLease dataset)
  end.

(** [func (l *bqLease) Close(ctx) error] *)
Definition bqLease_Close (l : bqLease) : M W (option error) :=
  call_err (WriteDatasetMetadataLabel env (leaseDataset l) bqLeaseLabelName "" "")
           (EvWriteLabel (leaseDataset l) bqLeaseLabelName "" "").

Definition readBQMap_query (cfg : Config) (startDate : string) : string :=
  String.append "SELECT service, slo, FORMAT_DATE('%F', `date`) as date FROM `"
   (String.append (Dataset cfg) (String.append "." (String.append tableName
   (String.append "` WHERE date >= '" (String.append startDate "';"))))).

(** The loop of [readBQMap] over the rows of the query result. *)
Fixpoint readBQMap_rows (rows : list BQRow) (result : bqMap) : outcome bqMap :=
  match rows with
  | [] => Ret result
  | row :: rest =>
      if negb (Strings.nonempty (rowService row))
         || negb (Strings.nonempty (rowSLO row))
         || negb (Strings.nonempty (rowDate row))
      then Fail ErrBQRow
      else readBQMap_rows rest
             (bqMap_Add result (rowService row) (rowSLO row) (rowDate row))
  end.

(** [func readBQMap(ctx, client, cfg) (bqMap, error)] *)
Definition readBQMap (cfg : Config) : M W bqMap :=
  loc <- lift (LoadLocation env (TimeZone cfg)) ;;
  now <- clock (time_Now env) ;;
  let startDate :=
    GoTime.FormatDate (daysAgoMidnightTimestamp now loc backfillDays) in
  let q := readBQMap_query cfg startDate in
  rows <- call (Query env q) (EvQuery q) ;;
  lift (readBQMap_rows rows ∅).

(** The signature shared by the two revisions of [getGoodTotal]. *)
Definition evaluator : Type :=
  Config -> SLO -> GoTime.Time -> GoTime.Time -> M W (Z * Z).

(** One iteration of the loop of [newRecords]: the body for [daysAgo],
    which leaves [rows] as it is when the day is already in [existing]. *)
Definition newRecords_day (getGoodTotal : evaluator) (cfg : Config)
    (svc : Service) (slo : SLO) (existing : bqMap) (loc : GoTime.Location)
    (daysAgo : Z) (rows : list BQRow) : M W (list BQRow) :=
  now1 <- clock (timeNow env) ;;
  let start := daysAgoMidnightTimestamp now1 loc daysAgo in
  now2 <- clock (timeNow env) ;;
  let end_ := daysAgoMidnightTimestamp now2 loc (daysAgo - 1) in
  let date := GoTime.FormatDate start in
  service <- lift (Service_HumanName svc) ;;
  name <- lift (SLO_HumanName slo) ;;
  if bqMap_Check existing service name date then ret rows
  else
    gt <- getGoodTotal cfg slo start end_ ;;
    let '(good, total) := gt in
    _ <- lift (SLO_HumanName slo) ;;
    ret (rows ++ [mkBQRow service name date total good (sloGoal slo)]).

(** [for daysAgo := 1; daysAgo <= backfillDays; daysAgo++], with [n] the
    number of iterations left. *)
Fixpoint newRecords_loop (getGoodTotal : evaluator) (cfg : Config)
    (svc : Service) (slo : SLO) (existing : bqMap) (loc : GoTime.Location)
    (n : nat) (daysAgo : Z) (rows : list BQRow) : M W (list BQRow) :=
  match n with
  | O => ret rows
  | S n' =>
      rows' <- newRecords_day getGoodTotal cfg svc slo existing loc daysAgo rows ;;
      newRecords_loop getGoodTotal cfg svc slo existing loc n' (daysAgo + 1) rows'
  end.

(** [func newRecords(ctx, cfg, svc, slo, existing, sd) ([]*clients.BQRow, error)],
    for either revision of [getGoodTotal]. *)
Definition newRecordsWith (getGoodTotal : evaluator) (cfg : Config)
    (svc : Service) (slo : SLO) (existing : bqMap) : M W (list BQRow) :=
  loc <- lift (LoadLocation env (TimeZone cfg)) ;;
  newRecords_loop getGoodTotal cfg svc slo existing loc (Z.to_nat backfillDays) 1 [].

End Engine.

(** A double quote, for the filters that contain one. *)
Definition dquote : string := String (ascii_of_nat 34) EmptyString.

(** [len(rows) >= bqBatchSize] *)
Definition batch_full (bqBatchSize : Z) (rows : list BQRow) : bool :=
  bqBatchSize <=? Z.of_nat (length rows).

(* ===================================================================== *)
(** * package slo2bq, first revision: one combined query per day *)
(* ===================================================================== *)

Module Legacy.

Section Legacy.

Context {W : Type}.
Variable env : Env W.

(** Result of [int64(f)] where Go leaves it to the implementation. *)
Variable indefinite : float -> Z.

(** Package variables [backfillDays] and [bqBatchSize]. *)
Variable backfillDays : Z.
Variable bqBatchSize : Z.

Local Open Scope go_scope.

Definition request (cfg : Config) (slo : SLO) (start end_ : GoTime.Time)
  : ListTimeSeriesRequest :=
  mkRequest
    (String.append "projects/" (Project cfg))
    (String.append "select_slo_counts("
      (String.append dquote (String.append (sloName slo) (String.append dquote ")"))))
    (GoTime.Unix start)
    (GoTime.Unix end_)
    (Int64.sub (GoTime.Unix end_) (GoTime.Unix start))
    ALIGN_DELTA
    REDUCE_NONE.

(** The loop of [getGoodTotal] over the returned series. *)
Fixpoint sumSeries (series : list TimeSeries) (good total : float)
  : outcome (float * float) :=
  match series with
  | [] => Ret (good, total)
  | s :: rest =>
      match Points s with
      | [p] =>
          match valueType s with
          | DOUBLE =>
              let value := GetDoubleValue (pointValue p) in
              let event_type := label s "event_type" in
              if String.eqb event_type "bad" then
                sumSeries rest good (total + value)%float
              else if String.eqb event_type "good" then
                sumSeries rest (good + value)%float (total + value)%float
              else Fail (ErrEventType event_type)
          | _ => Fail ErrValueType
          end
      | _ => Fail ErrExpectedOnePoint
      end
  end.

(** [func getGoodTotal(ctx, cfg, slo, start, end, sd) (int64, int64, error)] *)
Definition getGoodTotal (cfg : Config) (slo : SLO) (start end_ : GoTime.Time)
  : M W (Z * Z) :=
  let req := request cfg slo start end_ in
  series <- (fun st =>
     match call (ListTimeSeries env req) (EvListTimeSeries req) st with
     | (Fail err, st') => (Fail (ErrListTimeSeries err), st')
     | r => r
     end) ;;
  match series with
  | [] => ret (0, 0)
  | [_; _] =>
      gt <- lift (sumSeries series 0%float 0%float) ;;
      let '(good, total) := gt in
      ret (Float64.to_int64 indefinite good, Float64.to_int64 indefinite total)
  | _ => fail ErrExpectedTwoSeries
  end.

Definition newRecords : Config -> Service -> SLO -> bqMap -> M W (list BQRow) :=
  newRecordsWith env backfillDays getGoodTotal.

(** [bq.Put(ctx, cfg.Dataset, tableName, rows)], returning its error. *)
Definition put (cfg : Config) (rows : list BQRow) : M W unit :=
  err <- call_err (Put env (Dataset cfg) tableName rows)
                  (EvPut (Dataset cfg) tableName rows) ;;
  match err with
  | Some e => fail e
  | None => ret tt
  end.

(** The inner loop of [syncAllServices], over the SLOs of [svc]. *)
Fixpoint syncSLOs (cfg : Config) (existing : bqMap) (svc : Service)
    (slos : list SLO) (rows : list BQRow) : M W (list BQRow) :=
  match slos with
  | [] => ret rows
  | slo :: rest =>
      res <- newRecords cfg svc slo existing ;;
      let rows := rows ++ res in
      _ <- lift (Service_HumanName svc) ;;
      _ <- lift (SLO_HumanName slo) ;;
      rows <- (if batch_full bqBatchSize rows
               then (_ <- put cfg rows ;; ret [])
               else ret rows) ;;
      syncSLOs cfg existing svc rest rows
  end.

(** The outer loop of [syncAllServices], over the services. *)
Fixpoint syncServices (cfg : Config) (existing : bqMap)
    (svcs : list Service) (rows : list BQRow) : M W (list BQRow) :=
  match svcs with
  | [] => ret rows
  | svc :: rest =>
      slos <- call (SLOs env svc) (EvSLOs svc) ;;
      rows <- syncSLOs cfg existing svc slos rows ;;
      syncServices cfg existing rest rows
  end.

(** [func syncAllServices(ctx, cfg, sd, sloc, bq) error] *)
Definition syncAllServices (cfg : Config) : M W unit :=
  existing <- readBQMap env backfillDays cfg ;;
  svcs <- call (Services env) EvServices ;;
  rows <- syncServices cfg existing svcs [] ;;
  put cfg rows.

End Legacy.

End Legacy.

(* ===================================================================== *)
(** * package slo2bq, second revision: two of three counters per day *)
(* ===================================================================== *)

Module Ratio.

Section Ratio.

Context {W : Type}.
Variable env : Env W.
Variable indefinite : float -> Z.
Variable backfillDays : Z.
Variable bqBatchSize : Z.

Local Open Scope go_scope.

Definition request (cfg : Config) (start end_ : GoTime.Time) (filter : string)
  : ListTimeSeriesRequest :=
  mkRequest
    (String.append "projects/" (Project cfg))
    filter
    (GoTime.Unix start)
    (GoTime.Unix end_)
    (Int64.sub (GoTime.Unix end_) (GoTime.Unix start))
    ALIGN_DELTA
    REDUCE_SUM.

(** What [getCounter] makes of the series it got back. *)
Definition counterOf (series : list TimeSeries) : outcome Z :=
  match series with
  | [] => Ret 0
  | [s] =>
      match Points s with
      | [p] =>
          match valueType s with
          | DOUBLE => Ret (Float64.to_int64 indefinite (GetDoubleValue (pointValue p)))
          | INT64 => Ret (GetInt64Value (pointValue p))
          | _ => Fail ErrValueType
          end
      | _ => Fail ErrExpectedOnePoint
      end
  | _ => Fail ErrExpectedOneSeries
  end.

(** [func getCounter(ctx, cfg, start, end, filter, sd) (int64, error)] *)
Definition getCounter (cfg : Config) (start end_ : GoTime.Time) (filter : string)
  : M W Z :=
  let req := request cfg start end_ filter in
  series <- call (ListTimeSeries env req) (EvListTimeSeries req) ;;
  lift (counterOf series).

(** [slo.SLI.RequestBasedSLI.GoodTotalRatioSLI], then the first field read
    through the resulting pointer. *)
Definition ratioSLI (slo : SLO) : outcome GoodTotalRatioSLI :=
  match requestBasedSLI (sloSLI slo) with
  | None => Panic NilDereference
  | Some r =>
      match goodTotalRatioSLI r with
      | None => Panic NilDereference
      | Some sli => Ret sli
      end
  end.

(** [func getGoodTotal(ctx, cfg, slo, start, end, sd) (int64, int64, error)] *)
Definition getGoodTotal (cfg : Config) (slo : SLO) (start end_ : GoTime.Time)
  : M W (Z * Z) :=
  sli <- lift (ratioSLI slo) ;;
  if Strings.nonempty (Good sli) && Strings.nonempty (Total sli) then
    good <- getCounter cfg start end_ (Good sli) ;;
    total <- getCounter cfg start end_ (Total sli) ;;
    ret (good, total)
  else if Strings.nonempty (Good sli) && Strings.nonempty (Bad sli) then
    good <- getCounter cfg start end_ (Good sli) ;;
    bad <- getCounter cfg start end_ (Bad sli) ;;
    ret (good, Int64.add good bad)
  else if Strings.nonempty (Bad sli) && Strings.nonempty (Total sli) then
    bad <- getCounter cfg start end_ (Bad sli) ;;
    total <- getCounter cfg start end_ (Total sli) ;;
    ret (Int64.sub total bad, total)
  else fail ErrTwoOfThree.

Definition newRecords : Config -> Service -> SLO -> bqMap -> M W (list BQRow) :=
  newRecordsWith env backfillDays getGoodTotal.

Definition put (cfg : Config) (rows : list BQRow) : M W unit :=
  err <- call_err (Put env (Dataset cfg) tableName rows)
                  (EvPut (Dataset cfg) tableName rows) ;;
  match err with
  | Some e => fail e
  | None => ret tt
  end.

(** [slo.SLI.RequestBasedSLI != nil && slo.SLI.RequestBasedSLI.GoodTotalRatioSLI != nil] *)
Definition isGoodTotalRatio (slo : SLO) : bool :=
  match requestBasedSLI (sloSLI slo) with
  | Some r => match goodTotalRatioSLI r with Some _ => true | None => false end
  | None => false
  end.

Fixpoint syncSLOs (cfg : Config) (existing : bqMap) (svc : Service)
    (slos : list SLO) (rows : list BQRow) : M W (list BQRow) :=
  match slos with
  | [] => ret rows
  | slo :: rest =>
      rows <- (if isGoodTotalRatio slo then
                 res <- newRecords cfg svc slo existing ;;
                 let rows := rows ++ res in
                 _ <- lift (Service_HumanName svc) ;;
                 _ <- lift (SLO_HumanName slo) ;;
                 ret rows
               else
                 _ <- lift (Service_HumanName svc) ;;
                 _ <- lift (SLO_HumanName slo) ;;
                 ret rows) ;;
      rows <- (if batch_full bqBatchSize rows
               then (_ <- put cfg rows ;; ret [])
               else ret rows) ;;
      syncSLOs cfg existing svc rest rows
  end.

Fixpoint syncServices (cfg : Config) (existing : bqMap)
    (svcs : list Service) (rows : list BQRow) : M W (list BQRow) :=
  match svcs with
  | [] => ret rows
  | svc :: rest =>
      slos <- call (SLOs env svc) (EvSLOs svc) ;;
      rows <- syncSLOs cfg existing svc slos rows ;;
      syncServices cfg existing rest rows
  end.

(** [func syncAllServices(ctx, cfg, sd, sloc, bq) error] *)
Definition syncAllServices (cfg : Config) : M W unit :=
  existing <- readBQMap env backfillDays cfg ;;
  svcs <- call (Services env) EvServices ;;
  rows <- syncServices cfg existing svcs [] ;;
  put cfg rows.

End Ratio.

End Ratio.

(* ===================================================================== *)
(** * package clients: the BigQuery client *)
(* ===================================================================== *)

(** The part of [cloud.google.com/go/bigquery] that [BQClient] goes
    through to read and write dataset labels, and the values of a saved
    row. *)
Module BigQuery.

(** [bigquery.Value], for the column types of [BQRow]. *)
Inductive Value : Type :=
| VString (s : string)
| VInt64 (i : Z)
| VFloat64 (f : float).

(** [bigquery.DatasetMetadata]: the fields that are read. *)
Record DatasetMetadata : Type := mkDatasetMetadata {
  Labels : gmap string string;
  ETag : string
}.

(** [bigquery.DatasetMetadataToUpdate]: the labels to set and the labels to
    delete. *)
Record DatasetMetadataToUpdate : Type := mkDatasetMetadataToUpdate {
  setLabels : gmap string string;
  deleteLabels : gset string
}.

(** [bigquery.DatasetMetadataToUpdate{}] *)
Definition noUpdate : DatasetMetadataToUpdate := mkDatasetMetadataToUpdate ∅ ∅.

(** [func (u *DatasetMetadataToUpdate) SetLabel(name, value string)] *)
Definition SetLabel (u : DatasetMetadataToUpdate) (name value : string)
  : DatasetMetadataToUpdate :=
  mkDatasetMetadataToUpdate (<[name := value]> (setLabels u)) (deleteLabels u).

(** [func (u *DatasetMetadataToUpdate) DeleteLabel(name string)] *)
Definition DeleteLabel (u : DatasetMetadataToUpdate) (name : string)
  : DatasetMetadataToUpdate :=
  mkDatasetMetadataToUpdate (setLabels u) ({[ name ]} ∪ deleteLabels u).

(** [c.bq.Dataset(dataset).Metadata(ctx)] and
    [c.bq.Dataset(dataset).Update(ctx, update, etag)] (whose returned
    metadata the client drops), as transitions of the outside world. *)
Record Client (W : Type) : Type := mkClient {
  Metadata : string -> W -> outcome DatasetMetadata * W;
  Update : string -> DatasetMetadataToUpdate -> string -> W -> option error * W
}.

Arguments Metadata {W} _ _ _.
Arguments Update {W} _ _ _ _ _.

End BigQuery.

(** [func (r *BQRow) Save() (map[string]bigquery.Value, string, error)] *)
Definition BQRow_Save (r : BQRow)
  : gmap string BigQuery.Value * string * option error :=
  ({[ "Service" := BigQuery.VString (rowService r);
      "SLO" := BigQuery.VString (rowSLO r);
      "Date" := BigQuery.VString (rowDate r);
      "Total" := BigQuery.VInt64 (rowTotal r);
      "Good" := BigQuery.VInt64 (rowGood r);
      "Target" := BigQuery.VFloat64 (rowTarget r) ]}, "", None).

Section BQClient.

Context {W : Type}.
Variable bq : BigQuery.Client W.

(** [func (c *BQClient) ReadDatasetMetadataLabel(ctx, dataset, label string) (string, string, error)]:
    a label that the dataset does not carry reads as the empty string. *)
Definition BQClient_ReadDatasetMetadataLabel (dataset label : string)
  : W -> outcome (string * string) * W :=
  fun w =>
    match BigQuery.Metadata bq dataset w with
    | (Ret md, w') =>
        (Ret (default "" (BigQuery.Labels md !! label), BigQuery.ETag md), w')
    | (Fail err, w') => (Fail err, w')
    | (Panic p, w') => (Panic p, w')
    end.

(** [func (c *BQClient) WriteDatasetMetadataLabel(ctx, dataset, label, value, etag string) error] *)
Definition BQClient_WriteDatasetMetadataLabel (dataset label value etag : string)
  : W -> option error * W :=
  fun w =>
    let update := BigQuery.noUpdate in
    let update :=
      if Strings.nonempty value then BigQuery.SetLabel update label value
      else BigQuery.DeleteLabel update label in
    BigQuery.Update bq dataset update etag w.

End BQClient.

(* ===================================================================== *)
(** * package clients: the Service Monitoring client *)
(* ===================================================================== *)

Module SLOClient.

(** [url.Values] *)
Abbreviation Values := (gmap string (list string)).

(** [*url.URL]: the address without its query, and the query. *)
Record URL : Type := mkURL { Address : string; RawQuery : string }.

(** [*http.Request]: method, address and header. *)
Record Request : Type := mkRequest {
  Method : string;
  Target : string;
  Header : gmap string (list string)
}.

(** [*http.Response]: the status and the body. *)
Record Response : Type := mkResponse { StatusCode : Z; Body : string }.

(** One page of a listing ([servicesResponse], [slosResponse]). *)
Record page (A : Type) : Type := mkPage { items : list A; NextPageToken : string }.

Arguments mkPage {A} _ _.
Arguments items {A} _.
Arguments NextPageToken {A} _.

(** [net/url], [net/http] and [encoding/json] as the client uses them:
    [url.Parse], [u.Query()], [q.Encode()], [u.String()],
    [http.NewRequest(method, url, nil)], [c.http.Do], [resp.Body.Close] and
    the decoding of a body into a pointer to a page, which a JSON [null]
    sets to nil. *)
Record Net (W : Type) : Type := mkNet {
  url_Parse : string -> outcome URL;
  URL_Query : URL -> Values;
  Values_Encode : Values -> string;
  URL_String : URL -> string;
  http_NewRequest : string -> string -> outcome Request;
  Do : Request -> W -> outcome Response * W;
  Body_Close : Response -> W -> W;
  decodeServices : string -> outcome (option (page Service));
  decodeSLOs : string -> outcome (option (page SLO))
}.

Arguments url_Parse {W} _ _.
Arguments URL_Query {W} _ _.
Arguments Values_Encode {W} _ _.
Arguments URL_String {W} _ _.
Arguments http_NewRequest {W} _ _ _.
Arguments Do {W} _ _ _.
Arguments Body_Close {W} _ _ _.
Arguments decodeServices {W} _ _.
Arguments decodeSLOs {W} _ _.

(** [q.Set(key, value)] *)
Definition Values_Set (q : Values) (key value : string) : Values := <[key := [value]]> q.

(** [req.Header.Add(key, value)] for a key in canonical form. *)
Definition Header_Add (req : Request) (key value : string) : Request :=
  mkRequest (Method req) (Target req)
    (<[key := default [] (Header req !! key) ++ [value]]> (Header req)).

Section Client.

Context {W : Type}.
Variable net : Net W.

(** [c.project] *)
Variable project : string.

(** [func (c *StackdriverSLOClient) newRequest(tpe, uri, pageToken string)],
    returning a request or an error. *)
Definition newRequest (tpe uri pageToken : string) : outcome Request :=
  match url_Parse net uri with
  | Ret u =>
      let q := URL_Query net u in
      let q := Values_Set q "pageSize" "1000" in
      let q := if Strings.nonempty pageToken then Values_Set q "pageToken" pageToken
               else q in
      let u := mkURL (Address u) (Values_Encode net q) in
      match http_NewRequest net tpe (URL_String net u) with
      | Ret req => Ret (Header_Add req "X-Goog-User-Project" project)
      | Fail err => Fail err
      | Panic p => Panic p
      end
  | Fail err => Fail err
  | Panic p => Panic p
  end.

(** The deferred [resp.Body.Close()] calls, which run when the function
    returns, the last one first; [bodies] holds the responses received,
    the last one first. *)
Definition closeBodies (bodies : list Response) (w : W) : W :=
  foldl (fun w resp => Body_Close net resp w) w bodies.

(** The loop of [Services] and of [SLOs], which differ in the address and
    in the type of the page; [None] means that [fuel] iterations did not
    reach a page without a next-page token. *)
Fixpoint list_loop {A : Type} (decode : string -> outcome (option (page A)))
    (uri : string) (fuel : nat) (pageToken : string) (results : list A)
    (bodies : list Response) (w : W) : option (outcome (list A) * W) :=
  match fuel with
  | O => None
  | S fuel' =>
      match newRequest "GET" uri pageToken with
      | Fail err => Some (Fail err, closeBodies bodies w)
      | Panic p => Some (Panic p, closeBodies bodies w)
      | Ret req =>
          match Do net req w with
          | (Fail err, w) => Some (Fail err, closeBodies bodies w)
          | (Panic p, w) => Some (Panic p, closeBodies bodies w)
          | (Ret resp, w) =>
              let bodies := resp :: bodies in
              match decode (Body resp) with
              | Fail err => Some (Fail err, closeBodies bodies w)
              | Panic p => Some (Panic p, closeBodies bodies w)
              | Ret None => Some (Panic NilDereference, closeBodies bodies w)
              | Ret (Some pg) =>
                  let results := results ++ items pg in
                  let pageToken := NextPageToken pg in
                  if Strings.nonempty pageToken
                  then list_loop decode uri fuel' pageToken results bodies w
                  else Some (Ret results, closeBodies bodies w)
              end
          end
      end
  end.

(** [func (c *StackdriverSLOClient) Services() ([]*Service, error)] *)
Definition Services (fuel : nat) (w : W) : option (outcome (list Service) * W) :=
  let uri := String.append "https://monitoring.googleapis.com/v3/projects/"
               (String.append project "/services") in
  list_loop (decodeServices net) uri fuel "" [] [] w.

(** [func (c *StackdriverSLOClient) SLOs(service *Service) ([]*SLO, error)] *)
Definition SLOs (service : Service) (fuel : nat) (w : W)
  : option (outcome (list SLO) * W) :=
  let uri := String.append "https://monitoring.googleapis.com/v3/"
               (String.append (svcName service) "/serviceLevelObjectives") in
  list_loop (decodeSLOs net) uri fuel "" [] [] w.

End Client.

End SLOClient.

(* ===================================================================== *)
(** * package slo2bq: the entry point *)
(* ===================================================================== *)

(** [type PubSubMessage struct] *)
Record PubSubMessage : Type := mkPubSubMessage { Data : list Byte.byte }.

(** What the entry point relies on besides the calls of the clients: the
    JSON decoding of the configuration, and the construction and the closing
    of the clients. *)
Record Runtime (W : Type) : Type := mkRuntime {
  json_Unmarshal : list Byte.byte -> outcome Config;
  NewBQClient : string -> W -> option error * W;
  BQClient_Close : W -> option error * W;
  DefaultClient : W -> option error * W;
  NewStackdriverMetricClient : W -> option error * W;
  MetricClient_Close : W -> option error * W
}.

Arguments json_Unmarshal {W} _ _.
Arguments NewBQClient {W} _ _ _.
Arguments BQClient_Close {W} _ _.
Arguments DefaultClient {W} _ _.
Arguments NewStackdriverMetricClient {W} _ _.
Arguments MetricClient_Close {W} _ _.

(** A call on the runtime that returns only [error]; it is not one of the
    service calls that the trace records. *)
Definition setup {W} (op : W -> option error * W) : M W (option error) :=
  fun st =>
    let '(r, w) := op (world st) in
    (Ret r, mkState w (trace st)).

(** [defer f()] in front of [body]: [f] runs when the function returns and
    when it panics, and what [f] returns is dropped. *)
Definition defer {W A B} (f : M W B) (body : M W A) : M W A :=
  fun st =>
    let '(r, st') := body st in
    match f st' with
    | (Panic p, st'') => (Panic p, st'')
    | (_, st'') => (r, st'')
    end.

(** [func (t Time) Add(d Duration) Time] for a duration of whole seconds. *)
Definition Time_Add (t : GoTime.Time) (seconds : Z) : GoTime.Time :=
  GoTime.mkTime (Int64.wrap (GoTime.isec t + seconds)) (GoTime.nsec t) (GoTime.loc t).

Section EntryPoint.

Context {W : Type}.
Variable env : Env W.
Variable rt : Runtime W.

(** [syncAllServices] of either revision. *)
Variable syncAllServices : Config -> M W unit.

Local Open Scope go_scope.

(** [func SyncSloPerformance(ctx context.Context, m PubSubMessage) error] *)
Definition SyncSloPerformance (m : PubSubMessage) : M W unit :=
  cfg <- lift (json_Unmarshal rt (Data m)) ;;
  err <- setup (NewBQClient rt (Project cfg)) ;;
  match err with
  | Some e => fail e
  | None =>
      defer (setup (BQClient_Close rt))
        (* GCF runtime will kill the function after 9 minutes, so getting a
           lease for 10 minutes ensures that at most one instance of the
           function is executed at any time. *)
        (now <- clock (time_Now env) ;;
         l <- newBqLease env (Dataset cfg) (Time_Add now (10 * 60)) ;;
         defer (bqLease_Close env l)
           (err <- setup (DefaultClient rt) ;;
            match err with
            | Some e => fail e
            | None =>
                err <- setup (NewStackdriverMetricClient rt) ;;
                match err with
                | Some e => fail e
                | None =>
                    defer (setup (MetricClient_Close rt)) (syncAllServices cfg)
                end
            end))
  end.

End EntryPoint.

(* ===================================================================== *)
(** * Test doubles *)
(* ===================================================================== *)

(** Collaborators with canned answers, in the manner of the package's
    gomock-based tests: every call gets the same answer and the world
    carries no state. *)
Module Mock.

Record answers : Type := mkAnswers {
  mockTimeNow : GoTime.Time;
  mockNow : GoTime.Time;
  mockSeries : ListTimeSeriesRequest -> outcome (list TimeSeries);
  mockServices : outcome (list Service);
  mockSLOs : Service -> outcome (list SLO);
  mockQuery : outcome (list BQRow);
  mockPut : option error;
  mockReadLabel : outcome (string * string);
  mockWriteLabel : string -> string -> option error
}.

(** The zones the tests load; the empty name and ["UTC"] are UTC. *)
Definition tzdata (name : string) : outcome GoTime.Location :=
  if String.eqb name "" then Ret GoTime.UTC
  else if String.eqb name "UTC" then Ret GoTime.UTC
  else if String.eqb name "Europe/London" then Ret Zones.London
  else if String.eqb name "Australia/Lord_Howe" then Ret Zones.Lord_Howe
  else if String.eqb name "America/Sao_Paulo" then Ret Zones.Sao_Paulo
  else Fail (ErrLoadLocation name).

Definition env (a : answers) : Env unit :=
  mkEnv unit
    (fun w => (mockTimeNow a, w))
    (fun w => (mockNow a, w))
    tzdata
    (fun req w => (mockSeries a req, w))
    (fun w => (mockServices a, w))
    (fun svc w => (mockSLOs a svc, w))
    (fun _ w => (mockQuery a, w))
    (fun _ _ _ w => (mockPut a, w))
    (fun _ _ w => (mockReadLabel a, w))
    (fun _ _ value etag w => (mockWriteLabel a value etag, w)).

Definition start : State unit := mkState tt [].

(** [int64(f)] out of range on amd64: the "integer indefinite" value. *)
Definition amd64 (_ : float) : Z := Int64.min_int.

End Mock.

(** An in-memory dataset service, in the manner of a fake: every dataset
    carries its labels and a version that serves as etag; an update under a
    stale etag is refused, and an accepted one sets and deletes the labels
    it names and moves the version on. *)
Module Memory.

Record dataset : Type := mkDataset { dsLabels : gmap string string; dsVersion : Z }.

Abbreviation store := (gmap string dataset).

Definition etagOf (d : dataset) : string := Strconv.FormatInt (dsVersion d).

Definition notFound : error := ErrExternal "notFound".
Definition conditionNotMet : error := ErrExternal "conditionNotMet".

Definition applyUpdate (u : BigQuery.DatasetMetadataToUpdate)
    (labels : gmap string string) : gmap string string :=
  filter (fun kv => kv.1 ∉ BigQuery.deleteLabels u) (BigQuery.setLabels u ∪ labels).

Definition metadata (name : string) (w : store)
  : outcome BigQuery.DatasetMetadata * store :=
  match w !! name with
  | Some d => (Ret (BigQuery.mkDatasetMetadata (dsLabels d) (etagOf d)), w)
  | None => (Fail notFound, w)
  end.

Definition update (name : string) (u : BigQuery.DatasetMetadataToUpdate)
    (etag : string) (w : store) : option error * store :=
  match w !! name with
  | Some d =>
      if Strings.nonempty etag && negb (String.eqb etag (etagOf d))
      then (Some conditionNotMet, w)
      else (None, <[name := mkDataset (applyUpdate u (dsLabels d)) (dsVersion d + 1)]> w)
  | None => (Some notFound, w)
  end.

Definition client : BigQuery.Client store := BigQuery.mkClient store metadata update.

(** Collaborators for the lease: [BQClient] over the in-memory service and
    a clock that stands still at [now]. *)
Definition env (now : GoTime.Time) : Env store :=
  mkEnv store
    (fun w => (now, w))
    (fun w => (now, w))
    Mock.tzdata
    (fun _ w => (Ret [], w))
    (fun w => (Ret [], w))
    (fun _ w => (Ret [], w))
    (fun _ w => (Ret [], w))
    (fun _ _ _ w => (None, w))
    (BQClient_ReadDatasetMetadataLabel client)
    (BQClient_WriteDatasetMetadataLabel client).

(** One dataset without labels. *)
Definition start (name : string) : State store :=
  mkState {[ name := mkDataset ∅ 0 ]} [].

End Memory.

(** A server with two pages of services, the first of which names the
    token ["t2"] of the second; its world counts the bodies closed. *)
Module TwoPages.

Definition svcA : Service := mkService "projects/p/services/a" "" "" "".
Definition svcB : Service := mkService "projects/p/services/b" "" "" "".

Definition tokenOf (q : SLOClient.Values) : string :=
  match q !! "pageToken" with
  | Some (t :: _) => t
  | _ => ""
  end.

Definition decode {A : Type} (first second : list A) (body : string)
  : outcome (option (SLOClient.page A)) :=
  if String.eqb body "" then Ret (Some (SLOClient.mkPage first "t2"))
  else if String.eqb body "t2" then Ret (Some (SLOClient.mkPage second ""))
  else Fail (ErrExternal "unexpected end of JSON input").

Definition net : SLOClient.Net nat :=
  SLOClient.mkNet nat
    (fun uri => Ret (SLOClient.mkURL uri ""))
    (fun _ => ∅)
    tokenOf
    SLOClient.RawQuery
    (fun method target => Ret (SLOClient.mkRequest method target ∅))
    (fun req w => (Ret (SLOClient.mkResponse 200 (SLOClient.Target req)), w))
    (fun _ w => S w)
    (decode [svcA] [svcB])
    (decode [] []).

(** The same server, but naming the token ["t2"] on every page. *)
Definition again : SLOClient.Net nat :=
  SLOClient.mkNet nat
    (fun uri => Ret (SLOClient.mkURL uri ""))
    (fun _ => ∅)
    tokenOf
    SLOClient.RawQuery
    (fun method target => Ret (SLOClient.mkRequest method target ∅))
    (fun req w => (Ret (SLOClient.mkResponse 200 ""), w))
    (fun _ w => S w)
    (decode [svcA] [svcB])
    (decode [] []).

End TwoPages.

(* ===================================================================== *)
(** * Vocabulary of the properties and test data *)
(* ===================================================================== *)

(** Resource names of the shape the code comments describe. *)
Definition serviceResourceName (project service : string) : string :=
  String.append "projects/" (String.append project
    (String.append "/services/" service)).

Definition sloResourceName (project service slo : string) : string :=
  String.append (serviceResourceName project service)
    (String.append "/serviceLevelObjectives/" slo).

Definition noSLI : SLI := mkSLI None.

Definition rowKey (row : BQRow) : bqMapKey :=
  (rowService row, rowSLO row, rowDate row).

(** A row of the query result with an empty [Service], [SLO] or [Date]. *)
Definition keyIncomplete (row : BQRow) : Prop :=
  rowService row = "" \/ rowSLO row = "" \/ rowDate row = "".

Definition keyComplete (row : BQRow) : Prop :=
  rowService row <> "" /\ rowSLO row <> "" /\ rowDate row <> "".

Definition testRow (service slo date : string) : BQRow :=
  mkBQRow service slo date 0 0 0%float.

Definition testAnswers : Mock.answers :=
  Mock.mkAnswers
    (GoTime.Date 2015 5 10 15 0 0 0 GoTime.UTC)
    (GoTime.Date 2015 5 10 15 0 0 0 GoTime.UTC)
    (fun _ => Ret [])
    (Ret [])
    (fun _ => Ret [])
    (Ret [])
    None
    (Ret ("", "etag1"))
    (fun _ _ => None).

Definition withQuery (a : Mock.answers) (q : outcome (list BQRow)) : Mock.answers :=
  Mock.mkAnswers (Mock.mockTimeNow a) (Mock.mockNow a) (Mock.mockSeries a)
    (Mock.mockServices a) (Mock.mockSLOs a) q (Mock.mockPut a)
    (Mock.mockReadLabel a) (Mock.mockWriteLabel a).

(** Number of filter expressions that are set. *)
Definition filtersSet (sli : GoodTotalRatioSLI) : nat :=
  ((if Strings.nonempty (Good sli) then 1 else 0)
   + (if Strings.nonempty (Bad sli) then 1 else 0)
   + (if Strings.nonempty (Total sli) then 1 else 0))%nat.

Definition ratioSLO (good bad total : string) : SLO :=
  mkSLO "s1" "slo1" 0.5
    (mkSLI (Some (mkRequestBasedSLI (Some (mkGoodTotalRatioSLI good bad total))))).

Definition withSeries (a : Mock.answers)
    (f : ListTimeSeriesRequest -> outcome (list TimeSeries)) : Mock.answers :=
  Mock.mkAnswers (Mock.mockTimeNow a) (Mock.mockNow a) f
    (Mock.mockServices a) (Mock.mockSLOs a) (Mock.mockQuery a) (Mock.mockPut a)
    (Mock.mockReadLabel a) (Mock.mockWriteLabel a).

Definition oneSeries (vt : ValueType) (v : TypedValue) : TimeSeries :=
  mkTimeSeries ∅ vt [mkPoint v].

Definition seriesAnswers (series : list TimeSeries) : Mock.answers :=
  withSeries testAnswers (fun _ => Ret series).

(** Counters good = 10, bad = 5, total = 15 behind three filters. *)
Definition counterAnswers : Mock.answers :=
  withSeries testAnswers (fun req =>
    if String.eqb (reqFilter req) "good" then Ret [oneSeries INT64 (Int64Value 10)]
    else if String.eqb (reqFilter req) "bad" then Ret [oneSeries INT64 (Int64Value 5)]
    else if String.eqb (reqFilter req) "total" then Ret [oneSeries INT64 (Int64Value 15)]
    else Ret []).

Definition testConfig : Config := mkConfig "project" "datasetname" "Europe/London".

Definition day0 : GoTime.Time := GoTime.Date 2015 5 9 0 0 0 0 Zones.London.
Definition day1 : GoTime.Time := GoTime.Date 2015 5 10 0 0 0 0 Zones.London.

(** A series of the shape the combined query is expected to return. *)
Definition conforming (s : TimeSeries) : Prop :=
  length (Points s) = 1%nat
  /\ valueType s = DOUBLE
  /\ (label s "event_type" = "good" \/ label s "event_type" = "bad").

(** The value of the single point of a series. *)
Definition pointOf (s : TimeSeries) : float :=
  match Points s with
  | p :: _ => GetDoubleValue (pointValue p)
  | [] => 0%float
  end.

Definition labelled (event_type : string) (v : float) : TimeSeries :=
  mkTimeSeries {[ "event_type" := event_type ]} DOUBLE [mkPoint (DoubleValue v)].

Definition legacySLO (name display : string) (goal : float) : SLO :=
  mkSLO name display goal noSLI.

(** A clock reading whose second count suffers no overflow. *)
Definition plainClock (now : GoTime.Time) : Prop :=
  Int64.in_range (GoTime.isec now)
  /\ Int64.in_range (GoTime.isec now + GoTime.internalToUnix)
  /\ 0 <= GoTime.nsec now.

Definition withLabel (a : Mock.answers) (l : outcome (string * string)) : Mock.answers :=
  Mock.mkAnswers (Mock.mockTimeNow a) (Mock.mockNow a) (Mock.mockSeries a)
    (Mock.mockServices a) (Mock.mockSLOs a) (Mock.mockQuery a) (Mock.mockPut a)
    l (Mock.mockWriteLabel a).

(** The lease of the package's tests: expiration 1337 on dataset "dsname",
    with the clock at 2015-05-10 15:00 UTC. *)
Definition acquire (existingLease : string) : outcome bqLease * State unit :=
  newBqLease (Mock.env (withLabel testAnswers (Ret (existingLease, "etag1"))))
    "dsname" (GoTime.FromUnix 1337 0) Mock.start.

(** Every call that [c] adds to the trace satisfies [P], however [c] ends. *)
Definition emits {W A : Type} (c : M W A) (P : Event -> Prop) : Prop :=
  forall st, exists evs, trace (snd (c st)) = trace st ++ evs /\ Forall P evs.

(** Every value that [c] returns satisfies [Q]. *)
Definition returns {W A : Type} (c : M W A) (Q : A -> Prop) : Prop :=
  forall st a st', c st = (Ret a, st') -> Q a.

(** [now] is a reading of the clock behind [timeNow]: what it shows in
    some world. *)
Definition timeNowShows {W : Type} (env : Env W) (now : GoTime.Time) : Prop :=
  exists w, fst (timeNow env w) = now.

(** The clock behind [timeNow] reads [now], whatever the world. *)
Definition timeNowReads {W : Type} (env : Env W) (now : GoTime.Time) : Prop :=
  forall w, fst (timeNow env w) = now.

(** A metric query over one backfill day of [loc] whose key is not in the
    index: [daysAgo] between 1 and [backfillDays], from local midnight of
    that day to the next one, the two midnights counted back from two
    readings of the clock of [env]. *)
Definition queryForOpenDay {W : Type} (env : Env W) (backfillDays : Z)
    (loc : GoTime.Location)
    (svc : Service) (slo : SLO) (existing : bqMap) (ev : Event) : Prop :=
  exists req daysAgo now1 now2 service name,
    ev = EvListTimeSeries req
    /\ timeNowShows env now1
    /\ timeNowShows env now2
    /\ 1 <= daysAgo <= backfillDays
    /\ reqStartTime req = GoTime.Unix (daysAgoMidnightTimestamp now1 loc daysAgo)
    /\ reqEndTime req = GoTime.Unix (daysAgoMidnightTimestamp now2 loc (daysAgo - 1))
    /\ Service_HumanName svc = Ret service
    /\ SLO_HumanName slo = Ret name
    /\ bqMap_Check existing service name
         (GoTime.FormatDate (daysAgoMidnightTimestamp now1 loc daysAgo)) = false.

(** A row for one backfill day of [loc] whose key is not in the index, the
    day counted back from a reading of the clock of [env]. *)
Definition rowForOpenDay {W : Type} (env : Env W) (backfillDays : Z)
    (loc : GoTime.Location)
    (svc : Service) (slo : SLO) (existing : bqMap) (row : BQRow) : Prop :=
  exists daysAgo now1,
    timeNowShows env now1
    /\ 1 <= daysAgo <= backfillDays
    /\ rowDate row = GoTime.FormatDate (daysAgoMidnightTimestamp now1 loc daysAgo)
    /\ Service_HumanName svc = Ret (rowService row)
    /\ SLO_HumanName slo = Ret (rowSLO row)
    /\ rowTarget row = sloGoal slo
    /\ bqMap_Check existing (rowService row) (rowSLO row) (rowDate row) = false.

(** An evaluator that only queries the interval it is given. *)
Definition queriesItsInterval {W : Type} (getGoodTotal : @evaluator W) : Prop :=
  forall cfg slo start end_,
    emits (getGoodTotal cfg slo start end_)
      (fun ev => exists req,
         ev = EvListTimeSeries req
         /\ reqStartTime req = GoTime.Unix start
         /\ reqEndTime req = GoTime.Unix end_).

(** The date, in [loc], of the instant [u] (Unix seconds). *)
Definition dateOfUnix (l : GoTime.Location) (u : Z) : string :=
  GoTime.FormatDate (GoTime.unixTime u 0 l).

(** The query of the day [daysAgo] days before [now]: from the local
    midnight of that day to the next one. *)
Definition queryOfDay (now : GoTime.Time) (loc : GoTime.Location) (daysAgo : Z)
    (req : ListTimeSeriesRequest) : Prop :=
  reqStartTime req = GoTime.Unix (daysAgoMidnightTimestamp now loc daysAgo)
  /\ reqEndTime req = GoTime.Unix (daysAgoMidnightTimestamp now loc (daysAgo - 1)).

(** What [newRecords] does for the days that are recorded already, on a run
    from [st] in zone [loc] with [backfillDays] days, however it ends:
    - the calls it makes are metric queries, each over one day with
      [daysAgo] between 1 and [backfillDays] whose key is not in the index,
      counted back from readings of the clock of [env];
    - hence no query starts on the date of a key that is in the index;
    - the rows it returns are rows of such days, under the human names of
      the service and the SLO;
    - hence no returned row carries a key that is in the index;
    - with a clock that reads [now] throughout, every query is the query of
      a day [daysAgo] days before [now] and every row is dated that day,
      with [daysAgo] between 1 and [backfillDays]: never that of
      [daysAgo = 0]. *)
Definition backfillsOpenDaysOnly {W : Type} (env : Env W) (backfillDays : Z)
    (loc : GoTime.Location)
    (svc : Service) (slo : SLO) (existing : bqMap)
    (newRecords : M W (list BQRow)) : Prop :=
  forall st, exists evs,
    trace (snd (newRecords st)) = trace st ++ evs
    /\ Forall (queryForOpenDay env backfillDays loc svc slo existing) evs
    /\ (forall service name date,
          bqMap_Check existing service name date = true ->
          Service_HumanName svc = Ret service ->
          SLO_HumanName slo = Ret name ->
          forall req, EvListTimeSeries req ∈ evs ->
            dateOfUnix loc (reqStartTime req) <> date)
    /\ (forall rows,
          fst (newRecords st) = Ret rows ->
          Forall (rowForOpenDay env backfillDays loc svc slo existing) rows
          /\ forall service name date,
               bqMap_Check existing service name date = true ->
               forall row, row ∈ rows ->
                 (rowService row, rowSLO row, rowDate row) <> (service, name, date))
    /\ (forall now,
          timeNowReads env now ->
          Forall (fun ev =>
                    exists req daysAgo,
                      ev = EvListTimeSeries req
                      /\ 1 <= daysAgo <= backfillDays
                      /\ queryOfDay now loc daysAgo req) evs
          /\ forall rows,
               fst (newRecords st) = Ret rows ->
               Forall (fun row =>
                         exists daysAgo,
                           1 <= daysAgo <= backfillDays
                           /\ rowDate row
                              = GoTime.FormatDate
                                  (daysAgoMidnightTimestamp now loc daysAgo)) rows).

(** The rows of a store write. *)
Definition putOf (ev : Event) : option (list BQRow) :=
  match ev with
  | EvPut _ _ rows => Some rows
  | _ => None
  end.

(** The batches written to the store, in order. *)
Definition puts (evs : list Event) : list (list BQRow) := omap putOf evs.

(** The buffer discipline in the words of the design: the rows produced for
    each SLO ([results], one list per SLO) are appended to the buffer; once
    the buffer has reached the batch size it is flushed and cleared.  The
    result is the list of flushed batches and the buffer that is left. *)
Fixpoint accumulate (bqBatchSize : Z) (buffer : list BQRow)
    (results : list (list BQRow)) : list (list BQRow) * list BQRow :=
  match results with
  | [] => ([], buffer)
  | res :: rest =>
      let buffer := buffer ++ res in
      if batch_full bqBatchSize buffer then
        let '(flushed, kept) := accumulate bqBatchSize [] rest in
        (buffer :: flushed, kept)
      else accumulate bqBatchSize buffer rest
  end.

(** The writes of a whole run: the flushed batches, then the final flush of
    whatever is kept, empty or not. *)
Definition expectedPuts (bqBatchSize : Z) (results : list (list BQRow))
  : list (list BQRow) :=
  let '(flushed, kept) := accumulate bqBatchSize [] results in
  flushed ++ [kept].

(** [c] makes no store write. *)
Definition quiet {W A : Type} (c : M W A) : Prop :=
  emits c (fun ev => putOf ev = None).

(** [slos] is an answer of the collaborator to the listing of the SLOs of
    [svc]. *)
Definition listedFor {W : Type} (env : Env W) (svc : Service) (slos : list SLO) : Prop :=
  exists w w', SLOs env svc w = (Ret slos, w').

(** The SLOs in the order of the two loops of [syncAllServices], each with
    its service: [sloss] holds the SLOs of each service of [svcs]. *)
Definition slosInOrder (svcs : list Service) (sloss : list (list SLO))
  : list (Service * SLO) :=
  concat (zip_with (fun svc slos => map (pair svc) slos) svcs sloss).

(** What a run from [st] is made of: the index [existing] that [readBQMap]
    returned in [st], the services that the listing then answered, for each
    of them an answer of the listing of its SLOs and, for each of these SLOs
    in order, one list of rows in [results], related to the SLO by
    [contributes]. *)
Definition gathers {W : Type} (env : Env W) (backfillDays : Z) (cfg : Config)
    (contributes : bqMap -> Service * SLO -> list BQRow -> Prop)
    (st : State W) (existing : bqMap) (results : list (list BQRow)) : Prop :=
  exists st1 svcs w2 sloss,
    readBQMap env backfillDays cfg st = (Ret existing, st1)
    /\ Services env (world st1) = (Ret svcs, w2)
    /\ Forall2 (listedFor env) svcs sloss
    /\ Forall2 (contributes existing) (slosInOrder svcs sloss) results.

(** The rows that a call of [newRecords] returned for the SLO. *)
Definition producedBy {W : Type} (env : Env W) (indefinite : float -> Z)
    (backfillDays : Z) (cfg : Config) (existing : bqMap)
    (item : Service * SLO) (res : list BQRow) : Prop :=
  exists s s' : State W,
    Legacy.newRecords env indefinite backfillDays cfg (fst item) (snd item) existing s
    = (Ret res, s').

(** The float64 nearest to 0.99. *)
Definition goal99 : float := 0x1.fae147ae147aep-1%float.

Definition svc1 : Service := mkService "s1" "svc1" "" "".
Definition slo1 : SLO := legacySLO "s1" "slo1" goal99.
Definition slo2 : SLO := legacySLO "s1" "slo2" 0.5.

(** [TestSyncAllServices]: the clock at 2015-05-10 15:00 UTC, one service
    with two SLOs, 100 good and 11 bad events for every day, and two rows
    already in the table. *)
Definition syncAnswers : Mock.answers :=
  Mock.mkAnswers
    (GoTime.Date 2015 5 10 15 0 0 0 GoTime.UTC)
    (GoTime.Date 2015 5 10 15 0 0 0 GoTime.UTC)
    (fun _ => Ret [labelled "good" 100; labelled "bad" 11])
    (Ret [svc1])
    (fun _ => Ret [slo1; slo2])
    (Ret [testRow "svc1" "slo1" "2015-05-08"; testRow "svc1" "slo2" "2015-05-09"])
    None
    (Ret ("", "etag1"))
    (fun _ _ => None).

(** The same with a single SLO and an empty table. *)
Definition oneSLOAnswers : Mock.answers :=
  Mock.mkAnswers
    (Mock.mockTimeNow syncAnswers) (Mock.mockNow syncAnswers)
    (Mock.mockSeries syncAnswers) (Ret [svc1]) (fun _ => Ret [slo1]) (Ret [])
    None (Ret ("", "etag1")) (fun _ _ => None).

Definition syncRun (a : Mock.answers) (backfillDays bqBatchSize : Z)
  : outcome unit * State unit :=
  Legacy.syncAllServices (Mock.env a) Mock.amd64 backfillDays bqBatchSize
    testConfig Mock.start.

Definition isQuery (ev : Event) : bool :=
  match ev with EvListTimeSeries _ => true | _ => false end.

Definition row_slo1_0509 : BQRow := mkBQRow "svc1" "slo1" "2015-05-09" 111 100 goal99.
Definition row_slo1_0508 : BQRow := mkBQRow "svc1" "slo1" "2015-05-08" 111 100 goal99.
Definition row_slo2_0508 : BQRow := mkBQRow "svc1" "slo2" "2015-05-08" 111 100 0.5.

(** The index of the end-to-end test. *)
Definition existingTest : bqMap :=
  bqMap_Add (bqMap_Add ∅ "svc1" "slo1" "2015-05-08") "svc1" "slo2" "2015-05-09".

(** Length in seconds of the day that [newRecords] queries for [daysAgo]. *)
Definition dayLength (now : GoTime.Time) (l : GoTime.Location) (daysAgo : Z) : Z :=
  GoTime.SubSeconds (daysAgoMidnightTimestamp now l (daysAgo - 1))
                    (daysAgoMidnightTimestamp now l daysAgo).

(** The calendar date, in [l], of the instant [u] (Unix seconds). *)
Definition dayOfUnix (l : GoTime.Location) (u : Z) : Z * Z * Z :=
  GoTime.DateOf (GoTime.unixTime u 0 l).

(** The date of a day number is a valid date, and it is the date of that
    day number. *)
Definition dateOk (d : Z) : bool :=
  let '(year, month, day) := GoTime.cycleDate 0 d in
  (1 <=? month) && (month <=? 12) && (1 <=? day) && (day <=? 31)
  && (GoTime.civilDay year month day =? d).

Fixpoint allFrom (ok : Z -> bool) (n : nat) (d : Z) : bool :=
  match n with
  | O => true
  | S n' => ok d && allFrom ok n' (d + 1)
  end.

(** Local wall-clock time at instant [u], in seconds since 1970. *)
Definition localSeconds (l : GoTime.Location) (u : Z) : Z := u + GoTime.offsetAt l u.

(** [time.Date] maps the wall-clock reading [c] (seconds since 1970, read
    as if in UTC) to an instant at which the clocks of [l] show [c]: the
    reading is not skipped by a transition. *)
Definition shownBy (l : GoTime.Location) (c : Z) : Prop :=
  localSeconds l (c - GoTime.resolveOffset l c) = c.

(** Offsets of at most a day, as in every real zone. *)
Definition boundedZone (l : GoTime.Location) : Prop :=
  Z.abs (GoTime.zoneFirst l) <= 86400
  /\ Forall (fun t => Z.abs (GoTime.offset t) <= 86400) (GoTime.tx l).

(** A clock reading in the range of a few tens of thousands of years. *)
Definition saneClock (now : GoTime.Time) : Prop :=
  Z.abs (GoTime.isec now + GoTime.internalToUnix) <= 2 ^ 40
  /\ 0 <= GoTime.nsec now < 1000000000.

(** The wall-clock reading of the calendar date and time of day. *)
Definition reading (year month day hour min sec : Z) : Z :=
  (GoTime.civilDay year month day - GoTime.unixEpochDay) * 86400
  + hour * 3600 + min * 60 + sec.

(** Day number and second of the day of the local time at instant [u]. *)
Definition localDay (l : GoTime.Location) (u : Z) : Z := localSeconds l u / 86400.
Definition localSecondOfDay (l : GoTime.Location) (u : Z) : Z := localSeconds l u mod 86400.

(** The index that the loop of [readBQMap] builds from an initial one. *)
Definition indexOf (rows : list BQRow) (result : bqMap) : bqMap :=
  foldl (fun b row => bqMap_Add b (rowService row) (rowSLO row) (rowDate row)) result rows.

(** The lease label as [newBqLease] writes it for [expiration]. *)
Definition leaseValue (expiration : GoTime.Time) : string :=
  Strconv.FormatInt (GoTime.Unix expiration).

Definition leaseRead (dataset : string) : Event :=
  EvReadLabel dataset bqLeaseLabelName.

Definition leaseWrite (dataset value etag : string) : Event :=
  EvWriteLabel dataset bqLeaseLabelName value etag.

(** A dataset service that applies the updates it accepts: afterwards the
    labels that were to be set (and not deleted) are there, and the labels
    that were to be deleted are not. *)
Definition appliesUpdates {W : Type} (bq : BigQuery.Client W) : Prop :=
  forall dataset u etag w w',
    BigQuery.Update bq dataset u etag w = (None, w') ->
    exists md w'',
      BigQuery.Metadata bq dataset w' = (Ret md, w'')
      /\ (forall k v, BigQuery.setLabels u !! k = Some v ->
                      k ∉ BigQuery.deleteLabels u ->
                      BigQuery.Labels md !! k = Some v)
      /\ (forall k, k ∈ BigQuery.deleteLabels u -> BigQuery.Labels md !! k = None).

(** Collaborators whose label store gives back what was written last. *)
Definition readsBackWrites {W : Type} (env : Env W) : Prop :=
  forall dataset label value etag w w',
    WriteDatasetMetadataLabel env dataset label value etag w = (None, w') ->
    exists etag' w'',
      ReadDatasetMetadataLabel env dataset label w' = (Ret (value, etag'), w'').

(** A clock that, whatever the world, reads [now]. *)
Definition clockReads {W : Type} (env : Env W) (now : GoTime.Time) : Prop :=
  forall w, fst (time_Now env w) = now.

(** A zone whose offset from UTC never changes. *)
Definition fixedZone (l : GoTime.Location) : Prop :=
  GoTime.tx l = [] /\ Z.abs (GoTime.zoneFirst l) <= 86400.

(** The date string of the day [daysAgo] days before [now] in [loc]. *)
Definition dateDaysAgo (now : GoTime.Time) (loc : GoTime.Location) (daysAgo : Z) : string :=
  GoTime.FormatDate (daysAgoMidnightTimestamp now loc daysAgo).

(** The days [daysAgo], [daysAgo + 1], ... ([n] of them). *)
Fixpoint daysFrom (daysAgo : Z) (n : nat) : list Z :=
  match n with
  | O => []
  | S n' => daysAgo :: daysFrom (daysAgo + 1) n'
  end.

(** The dates of the backfill days, the most recent first, that the index
    does not hold under the names [service] and [name]. *)
Definition openDates (backfillDays : Z) (now : GoTime.Time) (loc : GoTime.Location)
    (existing : bqMap) (service name : string) : list string :=
  List.filter (fun date => negb (bqMap_Check existing service name date))
    (map (dateDaysAgo now loc) (daysFrom 1 (Z.to_nat backfillDays))).

(** A service whose resource name ends in a slash. *)
Definition unnamedService : Service := mkService "projects/p/services/" "" "" "".

(** [c] adds at most [n] calls to the trace, however it ends. *)
Definition callsAtMost {W A : Type} (c : M W A) (n : nat) : Prop :=
  forall st, exists evs, trace (snd (c st)) = trace st ++ evs /\ (length evs <= n)%nat.

(** A row whose counts are those that [getGoodTotal] returned for the day
    of the row, a backfill day [daysAgo]: the interval from the midnight
    that gives the row its date to the midnight after it, the first counted
    [daysAgo] days and the second [daysAgo - 1] days back from readings of
    the clock of [env]. *)
Definition rowOfEvaluation {W : Type} (env : Env W) (backfillDays : Z)
    (getGoodTotal : @evaluator W) (cfg : Config)
    (slo : SLO) (loc : GoTime.Location) (row : BQRow) : Prop :=
  exists daysAgo now1 now2 (s s' : State W),
    timeNowShows env now1
    /\ timeNowShows env now2
    /\ 1 <= daysAgo <= backfillDays
    /\ getGoodTotal cfg slo (daysAgoMidnightTimestamp now1 loc daysAgo)
         (daysAgoMidnightTimestamp now2 loc (daysAgo - 1)) s
       = (Ret (rowGood row, rowTotal row), s')
    /\ rowDate row = GoTime.FormatDate (daysAgoMidnightTimestamp now1 loc daysAgo)
    /\ rowTarget row = sloGoal slo.

(** The same with the clock at [now]: the counts are those of the interval
    from the midnight [daysAgo] days before [now] to the next midnight, the
    one [daysAgo - 1] days before [now]. *)
Definition rowOfEvaluationAt {W : Type} (now : GoTime.Time) (backfillDays : Z)
    (getGoodTotal : @evaluator W) (cfg : Config)
    (slo : SLO) (loc : GoTime.Location) (row : BQRow) : Prop :=
  exists daysAgo (s s' : State W),
    1 <= daysAgo <= backfillDays
    /\ getGoodTotal cfg slo (daysAgoMidnightTimestamp now loc daysAgo)
         (daysAgoMidnightTimestamp now loc (daysAgo - 1)) s
       = (Ret (rowGood row, rowTotal row), s')
    /\ rowDate row = GoTime.FormatDate (daysAgoMidnightTimestamp now loc daysAgo)
    /\ rowTarget row = sloGoal slo.

(** An answer of the metric service to every query: an error. *)
Definition failingSeries (e : error) : Mock.answers :=
  withSeries testAnswers (fun _ => Fail e).

(** The calls a synchronisation run under [cfg] may make: metric queries
    under the project of [cfg], with the DELTA aligner and one alignment
    period that spans the queried interval; listings of services and SLOs;
    the index query on the table of [cfg]; writes to that table.  The lease
    label is none of its business. *)
Definition confined (cfg : Config) (ev : Event) : Prop :=
  match ev with
  | EvListTimeSeries req =>
      reqName req = String.append "projects/" (Project cfg)
      /\ reqPerSeriesAligner req = ALIGN_DELTA
      /\ reqAlignmentPeriod req = Int64.sub (reqEndTime req) (reqStartTime req)
  | EvServices => True
  | EvSLOs _ => True
  | EvQuery q => exists startDate, q = readBQMap_query cfg startDate
  | EvPut dataset table _ => dataset = Dataset cfg /\ table = tableName
  | EvReadLabel _ _ => False
  | EvWriteLabel _ _ _ _ => False
  end.

(** What the SLO contributes to the buffer in the second revision: the
    rows that a call of [newRecords] returned for it when it is based on a
    [GoodTotalRatioSLI], and nothing when it is not. *)
Definition contributedBy {W : Type} (env : Env W) (indefinite : float -> Z)
    (backfillDays : Z) (cfg : Config) (existing : bqMap)
    (item : Service * SLO) (res : list BQRow) : Prop :=
  (Ratio.isGoodTotalRatio (snd item) = true
   /\ exists s s' : State W,
        Ratio.newRecords env indefinite backfillDays cfg (fst item) (snd item) existing s
        = (Ret res, s'))
  \/ (Ratio.isGoodTotalRatio (snd item) = false /\ res = []).

(** The index query of a run under [cfg] that reads the clock at [now]. *)
Definition indexQuery (backfillDays : Z) (cfg : Config) (loc : GoTime.Location)
    (now : GoTime.Time) : string :=
  readBQMap_query cfg
    (GoTime.FormatDate (daysAgoMidnightTimestamp now loc backfillDays)).

(** One service with an SLO of the three-way ratio form and one without,
    and the counters of [counterAnswers]. *)
Definition ratioSyncAnswers : Mock.answers :=
  Mock.mkAnswers
    (Mock.mockTimeNow syncAnswers) (Mock.mockNow syncAnswers)
    (Mock.mockSeries counterAnswers) (Ret [svc1])
    (fun _ => Ret [ratioSLO "good" "bad" ""; slo2]) (Ret [])
    None (Ret ("", "etag1")) (fun _ _ => None).

Definition ratioRun (a : Mock.answers) (backfillDays bqBatchSize : Z)
  : outcome unit * State unit :=
  Ratio.syncAllServices (Mock.env a) Mock.amd64 backfillDays bqBatchSize
    testConfig Mock.start.

(** A runtime in which every step succeeds and every message decodes to
    [cfg]. *)
Definition plainRuntime (cfg : Config) : Runtime unit :=
  mkRuntime unit (fun _ => Ret cfg)
    (fun _ w => (None, w)) (fun w => (None, w)) (fun w => (None, w))
    (fun w => (None, w)) (fun w => (None, w)).

Definition entryRun (a : Mock.answers) : outcome unit * State unit :=
  SyncSloPerformance (Mock.env a) (plainRuntime testConfig)
    (Legacy.syncAllServices (Mock.env a) Mock.amd64 2 1)
    (mkPubSubMessage []) Mock.start.

(** A server that names a next page on every page. *)
Definition endless {W A : Type} (net : SLOClient.Net W) (project : string)
    (decode : string -> outcome (option (SLOClient.page A))) (uri : string) : Prop :=
  (forall tok, exists req, SLOClient.newRequest net project "GET" uri tok = Ret req)
  /\ (forall req w, exists resp w' pg,
        SLOClient.Do net req w = (Ret resp, w')
        /\ decode (SLOClient.Body resp) = Ret (Some pg)
        /\ SLOClient.NextPageToken pg <> "").

(** From token [tok] and world [w] the server answers with the pages [pgs]
    in the responses [resps], each page naming the token of the next, and
    the next token is [tok'] in world [w']. *)
Inductive reads {W A : Type} (net : SLOClient.Net W) (project : string)
    (decode : string -> outcome (option (SLOClient.page A))) (uri : string)
  : string -> W -> list (SLOClient.page A) -> list SLOClient.Response -> string -> W -> Prop :=
| reads_nil tok w : reads net project decode uri tok w [] [] tok w
| reads_cons tok w req resp w1 pg pgs resps tok' w' :
    SLOClient.newRequest net project "GET" uri tok = Ret req ->
    SLOClient.Do net req w = (Ret resp, w1) ->
    decode (SLOClient.Body resp) = Ret (Some pg) ->
    SLOClient.NextPageToken pg <> "" ->
    reads net project decode uri (SLOClient.NextPageToken pg) w1 pgs resps tok' w' ->
    reads net project decode uri tok w (pg :: pgs) (resp :: resps) tok' w'.

(** The items of pages, in order. *)
Definition itemsOf {A : Type} (pgs : list (SLOClient.page A)) : list A :=
  concat (map SLOClient.items pgs).

(** What a listing function makes of the server's answers: after the pages
    [pgs], each naming a next page, the request for the next token decides.
    A page without a next token ends the listing with the items of all
    pages in order; an error of the request, of the exchange or of the
    decoding is returned and the items read so far are dropped; a JSON
    [null] leaves a nil page behind, which is dereferenced.  In every case
    the bodies received are closed, the last one first; fewer iterations
    than pages do not end the listing. *)
Definition listsAllPages {W A : Type} (net : SLOClient.Net W) (project : string)
    (decode : string -> outcome (option (SLOClient.page A))) (uri : string)
    (run : nat -> W -> option (outcome (list A) * W)) : Prop :=
  forall w pgs resps tok w1,
    reads net project decode uri "" w pgs resps tok w1 ->
    (forall fuel, (fuel <= length pgs)%nat -> run fuel w = None)
    /\ forall fuel, (length pgs < fuel)%nat ->
       (forall e,
          SLOClient.newRequest net project "GET" uri tok = Fail e ->
          run fuel w = Some (Fail e, SLOClient.closeBodies net (rev resps) w1))
       /\ (forall req e w2,
             SLOClient.newRequest net project "GET" uri tok = Ret req ->
             SLOClient.Do net req w1 = (Fail e, w2) ->
             run fuel w = Some (Fail e, SLOClient.closeBodies net (rev resps) w2))
       /\ (forall req resp w2,
             SLOClient.newRequest net project "GET" uri tok = Ret req ->
             SLOClient.Do net req w1 = (Ret resp, w2) ->
             (forall e,
                decode (SLOClient.Body resp) = Fail e ->
                run fuel w
                = Some (Fail e, SLOClient.closeBodies net (resp :: rev resps) w2))
             /\ (decode (SLOClient.Body resp) = Ret None ->
                 run fuel w
                 = Some (Panic NilDereference,
                         SLOClient.closeBodies net (resp :: rev resps) w2))
             /\ (forall pg,
                   decode (SLOClient.Body resp) = Ret (Some pg) ->
                   SLOClient.NextPageToken pg = "" ->
                   run fuel w
                   = Some (Ret (itemsOf pgs ++ SLOClient.items pg),
                           SLOClient.closeBodies net (resp :: rev resps) w2))).

Definition servicesURI (project : string) : string :=
  String.append "https://monitoring.googleapis.com/v3/projects/"
    (String.append project "/services").

Definition slosURI (service : Service) : string :=
  String.append "https://monitoring.googleapis.com/v3/"
    (String.append (svcName service) "/serviceLevelObjectives").

(* ===================================================================== *)
(** * Properties *)
(* ===================================================================== *)

(** ** Machine integers *)

Lemma int64_in_rangeb_spec z : Int64.in_rangeb z = true <-> Int64.in_range z.
Proof.
  unfold Int64.in_rangeb, Int64.in_range.
  rewrite andb_true_iff, !Z.leb_le. tauto.
Qed.

Lemma int64_wrap_in_range z : Int64.in_range (Int64.wrap z).
Proof.
  unfold Int64.wrap, Int64.in_range, Int64.min_int, Int64.max_int.
  pose proof (Z.mod_pos_bound (z + 2 ^ 63) (2 ^ 64) ltac:(lia)). lia.
Qed.

Lemma int64_wrap_id z : Int64.in_range z -> Int64.wrap z = z.
Proof.
  unfold Int64.wrap, Int64.in_range, Int64.min_int, Int64.max_int. intros H.
  rewrite Z.mod_small by lia. lia.
Qed.

(** ** Strings *)

Lemma nonempty_true s : Strings.nonempty s = true <-> s <> "".
Proof. destruct s; simpl; split; congruence. Qed.

Lemma nonempty_false s : Strings.nonempty s = false <-> s = "".
Proof. destruct s; simpl; split; congruence. Qed.

Lemma Split_not_nil s sep : Strings.Split s sep <> [].
Proof.
  induction s as [|c rest IH]; simpl; [discriminate|].
  destruct (Ascii.eqb c sep); [discriminate|].
  destruct (Strings.Split rest sep); discriminate.
Qed.

Lemma Split_no_sep s sep :
  Strings.Contains s sep = false -> Strings.Split s sep = [s].
Proof.
  induction s as [|c rest IH]; simpl; [reflexivity|].
  intros H. apply orb_false_iff in H as [Hc Hr].
  rewrite Hc, (IH Hr). reflexivity.
Qed.

Lemma Split_app s t sep :
  Strings.Contains s sep = false ->
  Strings.Split (String.append s (String sep t)) sep = s :: Strings.Split t sep.
Proof.
  induction s as [|c rest IH]; simpl.
  - intros _. rewrite Ascii.eqb_refl. reflexivity.
  - intros H. apply orb_false_iff in H as [Hc Hr].
    rewrite Hc, (IH Hr). reflexivity.
Qed.

Lemma index_lt {A} (s : list A) (i : nat) :
  (i < length s)%nat -> exists x, s !! i = Some x /\ index s i = Ret x.
Proof.
  intros H. destruct (lookup_lt_is_Some_2 s i H) as [x Hx].
  exists x. unfold index. rewrite Hx. auto.
Qed.

Lemma index_ge {A} (s : list A) (i : nat) :
  (length s <= i)%nat -> index s i = Panic (IndexOutOfRange i (length s)).
Proof.
  intros H. unfold index. rewrite (lookup_ge_None_2 s i H). reflexivity.
Qed.

(** ** Human-readable names *)

Lemma Split_serviceResourceName project service :
  Strings.Contains project "/" = false ->
  Strings.Contains service "/" = false ->
  Strings.Split (serviceResourceName project service) "/"
  = ["projects"; project; "services"; service].
Proof.
  intros Hp Hs. unfold serviceResourceName.
  change (String.append "projects/" ?x) with (String.append "projects" (String "/" x)).
  rewrite Split_app by reflexivity.
  change (String.append "/services/" service)
    with (String "/" (String.append "services" (String "/" service))).
  rewrite Split_app by assumption.
  rewrite Split_app by reflexivity.
  rewrite Split_no_sep by assumption. reflexivity.
Qed.

Lemma append_assoc (a b c : string) :
  String.append (String.append a b) c = String.append a (String.append b c).
Proof.
  induction a as [|x a IH]; [reflexivity|].
  change (String x (String.append (String.append a b) c)
          = String x (String.append a (String.append b c))).
  f_equal. exact IH.
Qed.

Lemma Split_sloResourceName project service slo :
  Strings.Contains project "/" = false ->
  Strings.Contains service "/" = false ->
  Strings.Contains slo "/" = false ->
  Strings.Split (sloResourceName project service slo) "/"
  = ["projects"; project; "services"; service; "serviceLevelObjectives"; slo].
Proof.
  intros Hp Hs Hl. unfold sloResourceName, serviceResourceName.
  rewrite !append_assoc.
  change (String.append "projects/" ?x) with (String.append "projects" (String "/" x)).
  rewrite Split_app by reflexivity.
  change (String.append "/services/" ?x)
    with (String "/" (String.append "services" (String "/" x))).
  rewrite Split_app by assumption.
  rewrite Split_app by reflexivity.
  change (String.append "/serviceLevelObjectives/" slo)
    with (String "/" (String.append "serviceLevelObjectives" (String "/" slo))).
  rewrite Split_app by assumption.
  rewrite Split_app by reflexivity.
  rewrite Split_no_sep by assumption. reflexivity.
Qed.

(** C10.  [Service.HumanName] and [SLO.HumanName] return [DisplayName]
    whenever it is non-empty.  When it is empty they return the 4th
    (services) or 6th (SLOs) component of [Name] split at ['/'] if [Name] has
    that many components, and panic with an index out of range if it has
    fewer; on a resource name of the documented shape they return its last
    component. *)
Theorem HumanName_display_or_component (svc : Service) (slo : SLO) :
  (svcDisplayName svc <> "" -> Service_HumanName svc = Ret (svcDisplayName svc))
  /\ (sloDisplayName slo <> "" -> SLO_HumanName slo = Ret (sloDisplayName slo))
  /\ (svcDisplayName svc = "" ->
        forall n, length (Strings.Split (svcName svc) "/") = n ->
        ((3 < n)%nat ->
           exists e, Strings.Split (svcName svc) "/" !! 3%nat = Some e
                     /\ Service_HumanName svc = Ret e)
        /\ ((n <= 3)%nat ->
              Service_HumanName svc = Panic (IndexOutOfRange 3 n)))
  /\ (sloDisplayName slo = "" ->
        forall n, length (Strings.Split (sloName slo) "/") = n ->
        ((5 < n)%nat ->
           exists e, Strings.Split (sloName slo) "/" !! 5%nat = Some e
                     /\ SLO_HumanName slo = Ret e)
        /\ ((n <= 5)%nat ->
              SLO_HumanName slo = Panic (IndexOutOfRange 5 n)))
  /\ (forall project service,
        Strings.Contains project "/" = false ->
        Strings.Contains service "/" = false ->
        svcDisplayName svc = "" ->
        svcName svc = serviceResourceName project service ->
        Service_HumanName svc = Ret service)
  /\ (forall project service name,
        Strings.Contains project "/" = false ->
        Strings.Contains service "/" = false ->
        Strings.Contains name "/" = false ->
        sloDisplayName slo = "" ->
        sloName slo = sloResourceName project service name ->
        SLO_HumanName slo = Ret name).
Proof.
  unfold Service_HumanName, SLO_HumanName.
  repeat split.
  - intros H. apply nonempty_true in H. rewrite H. reflexivity.
  - intros H. apply nonempty_true in H. rewrite H. reflexivity.
  - subst n. intros Hlen. rewrite H. simpl. apply index_lt. exact Hlen.
  - subst n. intros Hlen. rewrite H. simpl. apply index_ge. exact Hlen.
  - subst n. intros Hlen. rewrite H. simpl. apply index_lt. exact Hlen.
  - subst n. intros Hlen. rewrite H. simpl. apply index_ge. exact Hlen.
  - intros project service Hp Hs Hd Hn. rewrite Hd, Hn. simpl Strings.nonempty.
    cbv iota. rewrite Split_serviceResourceName by assumption. reflexivity.
  - intros project service name Hp Hs Hl Hd Hn. rewrite Hd, Hn. simpl Strings.nonempty.
    cbv iota. rewrite Split_sloResourceName by assumption. reflexivity.
Qed.

Lemma HumanName_display_or_component_witness :
  Service_HumanName (mkService "s1" "svc1" "" "") = Ret "svc1"
  /\ SLO_HumanName (mkSLO "s1" "slo1" 0.5 noSLI) = Ret "slo1"
  /\ Service_HumanName (mkService "projects/p" "" "" "") = Panic (IndexOutOfRange 3 2)
  /\ SLO_HumanName (mkSLO "projects/p/services/web" "" 0.5 noSLI)
     = Panic (IndexOutOfRange 5 4)
  /\ Service_HumanName (mkService (serviceResourceName "p" "web") "" "" "") = Ret "web"
  /\ SLO_HumanName (mkSLO (sloResourceName "p" "web" "latency") "" 0.5 noSLI)
     = Ret "latency".
Proof.
  pose proof (HumanName_display_or_component
                (mkService "s1" "svc1" "" "") (mkSLO "s1" "slo1" 0.5 noSLI))
    as (H1 & H2 & _).
  pose proof (HumanName_display_or_component
                (mkService "projects/p" "" "" "")
                (mkSLO "projects/p/services/web" "" 0.5 noSLI))
    as (_ & _ & H3 & H4 & _).
  pose proof (HumanName_display_or_component
                (mkService (serviceResourceName "p" "web") "" "" "")
                (mkSLO (sloResourceName "p" "web" "latency") "" 0.5 noSLI))
    as (_ & _ & _ & _ & H5 & H6).
  split; [apply H1; discriminate|].
  split; [apply H2; discriminate|].
  split; [apply (H3 eq_refl 2%nat eq_refl); simpl; lia|].
  split; [apply (H4 eq_refl 4%nat eq_refl); simpl; lia|].
  split; [apply (H5 "p" "web"); reflexivity|].
  apply (H6 "p" "web" "latency"); reflexivity.
Defined.

(** ** The existing-data index *)

Lemma bqMap_Check_true (b : bqMap) service slo date :
  bqMap_Check b service slo date = true <-> b !! (service, slo, date) = Some true.
Proof.
  unfold bqMap_Check. destruct (b !! (service, slo, date)) as [[|]|]; simpl;
    split; congruence.
Qed.

Lemma bqMap_Check_Add (b : bqMap) s l d s' l' d' :
  bqMap_Check (bqMap_Add b s l d) s' l' d' = true
  <-> (s, l, d) = (s', l', d') \/ bqMap_Check b s' l' d' = true.
Proof.
  rewrite !bqMap_Check_true. unfold bqMap_Add.
  destruct (decide ((s, l, d) = (s', l', d'))) as [E|N].
  - rewrite E, lookup_insert_eq. tauto.
  - rewrite lookup_insert_ne by exact N. tauto.
Qed.

Lemma readBQMap_rows_incomplete rows :
  Exists keyIncomplete rows ->
  forall result, readBQMap_rows rows result = Fail ErrBQRow.
Proof.
  induction 1 as [row rest Hbad | row rest _ IH]; intros result; simpl.
  - destruct Hbad as [H | [H | H]]; apply nonempty_false in H; rewrite H; simpl;
      rewrite ?orb_true_r; reflexivity.
  - destruct (_ || _ || _); [reflexivity | apply IH].
Qed.

Lemma readBQMap_rows_complete rows :
  Forall keyComplete rows ->
  forall result,
  exists m, readBQMap_rows rows result = Ret m
    /\ forall s l d,
         bqMap_Check m s l d = true
         <-> bqMap_Check result s l d = true
             \/ exists row, row ∈ rows /\ rowKey row = (s, l, d).
Proof.
  induction 1 as [| row rest (Hs & Hl & Hd) _ IH]; intros result; simpl.
  - exists result. split; [reflexivity|]. intros s l d. split; [tauto|].
    intros [H | (row & Hin & _)]; [exact H | inversion Hin].
  - apply nonempty_true in Hs, Hl, Hd. rewrite Hs, Hl, Hd. simpl.
    destruct (IH (bqMap_Add result (rowService row) (rowSLO row) (rowDate row)))
      as (m & Hm & Hiff).
    exists m. split; [exact Hm|]. intros s l d. rewrite Hiff, bqMap_Check_Add.
    split.
    + intros [[E | H] | (r & Hin & Hk)].
      * right. exists row. split; [left | exact E].
      * left. exact H.
      * right. exists r. split; [right; exact Hin | exact Hk].
    + intros [H | (r & Hin & Hk)].
      * left. right. exact H.
      * apply elem_of_cons in Hin as [-> | Hin].
        -- left. left. exact Hk.
        -- right. exists r. split; assumption.
Qed.

Lemma bqMap_Check_empty s l d : bqMap_Check ∅ s l d = false.
Proof. unfold bqMap_Check. rewrite lookup_empty. reflexivity. Qed.

Section ReadBQMap.

Context {W : Type}.
Variable env : Env W.
Variable backfillDays : Z.

(** C9.  When the zone loads and the store query succeeds with [rows],
    [readBQMap] fails as soon as some returned row has an empty [Service],
    [SLO] or [Date]; otherwise it returns a map on which [Check] holds
    exactly for the triples of strings that occur as a (Service, SLO, Date)
    of some returned row. *)
Theorem readBQMap_checks_exactly_the_rows
    (cfg : Config) (st : State W) (loc : GoTime.Location) (now : GoTime.Time)
    (w1 w2 : W) (rows : list BQRow) :
  LoadLocation env (TimeZone cfg) = Ret loc ->
  time_Now env (world st) = (now, w1) ->
  Query env
    (readBQMap_query cfg
       (GoTime.FormatDate (daysAgoMidnightTimestamp now loc backfillDays))) w1
  = (Ret rows, w2) ->
  (Exists keyIncomplete rows ->
     fst (readBQMap env backfillDays cfg st) = Fail ErrBQRow)
  /\ (Forall keyComplete rows ->
        exists m,
          fst (readBQMap env backfillDays cfg st) = Ret m
          /\ forall service slo date,
               bqMap_Check m service slo date = true
               <-> exists row, row ∈ rows
                     /\ rowService row = service
                     /\ rowSLO row = slo
                     /\ rowDate row = date).
Proof.
  intros Hloc Hnow Hq.
  unfold readBQMap, bind, lift, clock, call. rewrite Hloc, Hnow. simpl.
  rewrite Hq. simpl. split.
  - intros Hbad. rewrite (readBQMap_rows_incomplete rows Hbad). reflexivity.
  - intros Hok. destruct (readBQMap_rows_complete rows Hok ∅) as (m & Hm & Hiff).
    exists m. rewrite Hm. split; [reflexivity|].
    intros s l d. rewrite Hiff, bqMap_Check_empty. split.
    + intros [H | (row & Hin & Hk)]; [discriminate|].
      exists row. unfold rowKey in Hk. inversion Hk. auto.
    + intros (row & Hin & <- & <- & <-). right. exists row. auto.
Qed.

End ReadBQMap.

Lemma readBQMap_checks_exactly_the_rows_witness :
  fst (readBQMap (Mock.env (withQuery testAnswers
                     (Ret [testRow "" "slo2" "2015-01-01"])))
         40 (mkConfig "" "" "") Mock.start)
  = Fail ErrBQRow
  /\ exists m,
       fst (readBQMap (Mock.env (withQuery testAnswers
                          (Ret [testRow "svc1" "slo1" "2015-01-01";
                                testRow "svc2" "slo2" "2015-01-01"])))
              40 (mkConfig "" "" "") Mock.start)
       = Ret m
       /\ bqMap_Check m "svc1" "slo1" "2015-01-01" = true
       /\ bqMap_Check m "svc2" "slo2" "2015-01-01" = true
       /\ bqMap_Check m "svc1" "slo2" "2015-01-01" = false.
Proof.
  split.
  - refine (proj1 (readBQMap_checks_exactly_the_rows
             (Mock.env (withQuery testAnswers (Ret [testRow "" "slo2" "2015-01-01"])))
             40 (mkConfig "" "" "") Mock.start GoTime.UTC _ tt tt _
             eq_refl eq_refl eq_refl) _).
    apply Exists_cons_hd. left. reflexivity.
  - destruct (proj2 (readBQMap_checks_exactly_the_rows
             (Mock.env (withQuery testAnswers
                (Ret [testRow "svc1" "slo1" "2015-01-01";
                      testRow "svc2" "slo2" "2015-01-01"])))
             40 (mkConfig "" "" "") Mock.start GoTime.UTC _ tt tt _
             eq_refl eq_refl eq_refl)) as (m & Hm & Hiff).
    + repeat constructor; discriminate.
    + exists m. split; [exact Hm|]. split; [|split].
      * apply Hiff. eexists. split; [apply list_elem_of_here|]. auto.
      * apply Hiff. eexists. split; [apply list_elem_of_further, list_elem_of_here|]. auto.
      * destruct (bqMap_Check m "svc1" "slo2" "2015-01-01") eqn:E; [|reflexivity].
        apply Hiff in E as (row & Hin & H1 & H2 & H3).
        repeat (apply elem_of_cons in Hin as [-> | Hin]); try discriminate.
        inversion Hin.
Defined.

(** ** Running sequential code *)

Lemma bind_Ret {W A B} (c : M W A) (k : A -> M W B) st a st' :
  c st = (Ret a, st') -> bind c k st = k a st'.
Proof. intros H. unfold bind. rewrite H. reflexivity. Qed.

Lemma bind_Fail {W A B} (c : M W A) (k : A -> M W B) st e st' :
  c st = (Fail e, st') -> bind c k st = (Fail e, st').
Proof. intros H. unfold bind. rewrite H. reflexivity. Qed.

Lemma bind_Panic {W A B} (c : M W A) (k : A -> M W B) st p st' :
  c st = (Panic p, st') -> bind c k st = (Panic p, st').
Proof. intros H. unfold bind. rewrite H. reflexivity. Qed.

(** A computation that returns went through its first part. *)
Lemma bind_inv_Ret {W A B} (c : M W A) (k : A -> M W B) st b st'' :
  bind c k st = (Ret b, st'') ->
  exists a st', c st = (Ret a, st') /\ k a st' = (Ret b, st'').
Proof.
  unfold bind. destruct (c st) as [[a | e | p] st'] eqn:E; intros H;
    [eauto | discriminate | discriminate].
Qed.

Lemma lift_inv_Ret {W A} (o : outcome A) (st : State W) a st' :
  lift o st = (Ret a, st') -> o = Ret a /\ st' = st.
Proof. unfold lift. intros H. inversion H. auto. Qed.

Lemma clock_trace {W} (op : W -> GoTime.Time * W) (st : State W) :
  exists t st', clock op st = (Ret t, st') /\ trace st' = trace st.
Proof.
  unfold clock. destruct (op (world st)) as [t w]. eexists _, _.
  split; reflexivity.
Qed.

(** ** Counters of the three-way ratio form *)

Section RatioFacts.

Context {W : Type}.
Variable env : Env W.
Variable indefinite : float -> Z.
Variable backfillDays : Z.

Local Abbreviation getCounter := (Ratio.getCounter env indefinite).
Local Abbreviation getGoodTotal := (Ratio.getGoodTotal env indefinite).
Local Abbreviation newRecords := (Ratio.newRecords env indefinite backfillDays).

(** C7.  With the answer of the metrics query at hand, [getCounter] returns
    0 and no error for zero series; for exactly one series with exactly one
    point it returns the point's value, a [DOUBLE] converted with [int64(.)]
    (the fraction is dropped) and an [INT64] as it is; it fails for more than
    one series, for a point count other than one and for any other value
    type.  It makes this one query and no other call. *)
Theorem getCounter_by_shape
    (cfg : Config) (start end_ : GoTime.Time) (filter : string)
    (st : State W) (series : list TimeSeries) (w : W) :
  ListTimeSeries env (Ratio.request cfg start end_ filter) (world st)
  = (Ret series, w) ->
  let result := fst (getCounter cfg start end_ filter st) in
  snd (getCounter cfg start end_ filter st)
  = mkState w (trace st ++ [EvListTimeSeries (Ratio.request cfg start end_ filter)])
  /\ (series = [] -> result = Ret 0)
  /\ (forall s p, series = [s] -> Points s = [p] -> valueType s = DOUBLE ->
        result = Ret (Float64.to_int64 indefinite (GetDoubleValue (pointValue p)))
        /\ forall f z, pointValue p = DoubleValue f ->
             Float64.trunc f = Some z -> Int64.in_range z -> result = Ret z)
  /\ (forall s p, series = [s] -> Points s = [p] -> valueType s = INT64 ->
        result = Ret (GetInt64Value (pointValue p)))
  /\ ((1 < length series)%nat -> result = Fail ErrExpectedOneSeries)
  /\ (forall s, series = [s] -> length (Points s) <> 1%nat ->
        result = Fail ErrExpectedOnePoint)
  /\ (forall s p, series = [s] -> Points s = [p] ->
        valueType s <> DOUBLE -> valueType s <> INT64 ->
        result = Fail ErrValueType).
Proof.
  intros Hq result. subst result.
  unfold Ratio.getCounter, bind, call, lift. rewrite Hq. simpl.
  split; [reflexivity|].
  split; [intros ->; reflexivity|].
  split.
  { intros s p -> Hp Hv. simpl. rewrite Hp, Hv. split; [reflexivity|].
    intros f z Hf Ht Hr. rewrite Hf. simpl. unfold Float64.to_int64.
    rewrite Ht. apply int64_in_rangeb_spec in Hr. rewrite Hr. reflexivity. }
  split; [intros s p -> Hp Hv; simpl; rewrite Hp, Hv; reflexivity|].
  split.
  { destruct series as [|s1 [|s2 rest]]; simpl; intros H; [lia | lia | reflexivity]. }
  split.
  { intros s -> Hlen. simpl. destruct (Points s) as [|p [|q ps]];
      [reflexivity | simpl in Hlen; congruence | reflexivity]. }
  intros s p -> Hp Hd Hi. simpl. rewrite Hp.
  destruct (valueType s); try reflexivity; congruence.
Qed.

Lemma getGoodTotal_incomplete cfg slo sli start end_ (st : State W) :
  Ratio.ratioSLI slo = Ret sli ->
  (filtersSet sli < 2)%nat ->
  getGoodTotal cfg slo start end_ st = (Fail ErrTwoOfThree, st).
Proof.
  intros Hsli Hn. unfold Ratio.getGoodTotal, bind, lift. rewrite Hsli.
  unfold filtersSet in Hn.
  destruct (Strings.nonempty (Good sli)), (Strings.nonempty (Bad sli)),
    (Strings.nonempty (Total sli)); simpl in *; try lia; reflexivity.
Qed.

(** A day contributes a row only if the evaluator returned for it. *)
Lemma newRecords_day_no_counts (ggt : evaluator) cfg svc slo existing loc daysAgo :
  (forall s e st, is_Ret (fst (ggt cfg slo s e st)) = false) ->
  forall rows (st : State W) rows' st',
    newRecords_day env ggt cfg svc slo existing loc daysAgo rows st = (Ret rows', st') ->
    rows' = rows.
Proof.
  intros Hggt rows st rows' st' H. unfold newRecords_day in H.
  apply bind_inv_Ret in H as (now1 & st1 & _ & H).
  apply bind_inv_Ret in H as (now2 & st2 & _ & H).
  apply bind_inv_Ret in H as (service & st3 & _ & H).
  apply bind_inv_Ret in H as (name & st4 & _ & H).
  destruct (bqMap_Check existing service name _).
  - inversion H. reflexivity.
  - apply bind_inv_Ret in H as (gt & st5 & Hgt & _).
    specialize (Hggt (daysAgoMidnightTimestamp now1 loc daysAgo)
                     (daysAgoMidnightTimestamp now2 loc (daysAgo - 1)) st4).
    rewrite Hgt in Hggt. discriminate.
Qed.

Lemma newRecords_loop_no_counts (ggt : evaluator) cfg svc slo existing loc :
  (forall s e st, is_Ret (fst (ggt cfg slo s e st)) = false) ->
  forall n daysAgo rows (st : State W) rows' st',
    newRecords_loop env ggt cfg svc slo existing loc n daysAgo rows st = (Ret rows', st') ->
    rows' = rows.
Proof.
  intros Hggt. induction n as [|n IH]; intros daysAgo rows st rows' st' H; simpl in H.
  - inversion H. reflexivity.
  - apply bind_inv_Ret in H as (rows1 & st1 & Hday & Hrest).
    apply (newRecords_day_no_counts ggt) in Hday; [|exact Hggt]. subst rows1.
    eapply IH. exact Hrest.
Qed.

(** C5.  If fewer than two of the three filter expressions are set,
    [getGoodTotal] returns the error and makes no query, never counts; so
    [newRecords] returns no row for that SLO (it fails, or every day was
    already recorded and it returns the empty list). *)
Theorem getGoodTotal_needs_two_filters
    (cfg : Config) (svc : Service) (slo : SLO) (sli : GoodTotalRatioSLI)
    (existing : bqMap) (start end_ : GoTime.Time) (st : State W) :
  Ratio.ratioSLI slo = Ret sli ->
  (filtersSet sli < 2)%nat ->
  getGoodTotal cfg slo start end_ st = (Fail ErrTwoOfThree, st)
  /\ forall rows, fst (newRecords cfg svc slo existing st) = Ret rows -> rows = [].
Proof.
  intros Hsli Hn. split; [apply (getGoodTotal_incomplete cfg slo sli); assumption|].
  intros rows H. unfold Ratio.newRecords, newRecordsWith in H.
  destruct (bind _ _ st) as [o st'] eqn:E. simpl in H. subst o.
  apply bind_inv_Ret in E as (loc & st1 & _ & E).
  eapply newRecords_loop_no_counts; [|exact E].
  intros s e st0. rewrite (getGoodTotal_incomplete cfg slo sli s e st0 Hsli Hn).
  reflexivity.
Qed.

End RatioFacts.

Section RatioForms.

Context {W : Type}.
Variable env : Env W.
Variable indefinite : float -> Z.

Local Abbreviation getCounter := (Ratio.getCounter env indefinite).
Local Abbreviation getGoodTotal := (Ratio.getGoodTotal env indefinite).

(** C4.  [getGoodTotal] returns the two queried counters (good, total) when
    the good and total filters are set; (good, good + bad) when good and bad
    are set and total is not; (total - bad, total) when bad and total are set
    and good is not, the sum and the difference being [int64] operations.
    Hence, when the counters behind three filters satisfy
    total = good + bad, the three two-of-three configurations of these
    filters return the same pair (good, total). *)
Theorem getGoodTotal_two_of_three
    (cfg : Config) (start end_ : GoTime.Time) :
  (forall slo sli (st st1 st2 : State W) good total,
     Ratio.ratioSLI slo = Ret sli ->
     Good sli <> "" -> Total sli <> "" ->
     getCounter cfg start end_ (Good sli) st = (Ret good, st1) ->
     getCounter cfg start end_ (Total sli) st1 = (Ret total, st2) ->
     getGoodTotal cfg slo start end_ st = (Ret (good, total), st2))
  /\ (forall slo sli (st st1 st2 : State W) good bad,
        Ratio.ratioSLI slo = Ret sli ->
        Good sli <> "" -> Bad sli <> "" -> Total sli = "" ->
        getCounter cfg start end_ (Good sli) st = (Ret good, st1) ->
        getCounter cfg start end_ (Bad sli) st1 = (Ret bad, st2) ->
        getGoodTotal cfg slo start end_ st = (Ret (good, Int64.add good bad), st2))
  /\ (forall slo sli (st st1 st2 : State W) bad total,
        Ratio.ratioSLI slo = Ret sli ->
        Good sli = "" -> Bad sli <> "" -> Total sli <> "" ->
        getCounter cfg start end_ (Bad sli) st = (Ret bad, st1) ->
        getCounter cfg start end_ (Total sli) st1 = (Ret total, st2) ->
        getGoodTotal cfg slo start end_ st = (Ret (Int64.sub total bad, total), st2))
  /\ (forall fgood fbad ftotal good bad total,
        fgood <> "" -> fbad <> "" -> ftotal <> "" ->
        (forall st, fst (getCounter cfg start end_ fgood st) = Ret good) ->
        (forall st, fst (getCounter cfg start end_ fbad st) = Ret bad) ->
        (forall st, fst (getCounter cfg start end_ ftotal st) = Ret total) ->
        Int64.in_range good -> Int64.in_range total -> total = good + bad ->
        forall st,
          fst (getGoodTotal cfg (ratioSLO fgood "" ftotal) start end_ st)
          = Ret (good, total)
          /\ fst (getGoodTotal cfg (ratioSLO fgood fbad "") start end_ st)
             = Ret (good, total)
          /\ fst (getGoodTotal cfg (ratioSLO "" fbad ftotal) start end_ st)
             = Ret (good, total)).
Proof.
  assert (A : forall slo sli (st st1 st2 : State W) good total,
     Ratio.ratioSLI slo = Ret sli ->
     Good sli <> "" -> Total sli <> "" ->
     getCounter cfg start end_ (Good sli) st = (Ret good, st1) ->
     getCounter cfg start end_ (Total sli) st1 = (Ret total, st2) ->
     getGoodTotal cfg slo start end_ st = (Ret (good, total), st2)).
  { intros slo sli st st1 st2 good total Hsli Hg Ht H1 H2.
    apply nonempty_true in Hg, Ht.
    unfold Ratio.getGoodTotal. rewrite (bind_Ret _ _ st sli st) by (rewrite Hsli; reflexivity).
    rewrite Hg, Ht. simpl.
    rewrite (bind_Ret _ _ _ _ _ H1), (bind_Ret _ _ _ _ _ H2). reflexivity. }
  assert (B : forall slo sli (st st1 st2 : State W) good bad,
        Ratio.ratioSLI slo = Ret sli ->
        Good sli <> "" -> Bad sli <> "" -> Total sli = "" ->
        getCounter cfg start end_ (Good sli) st = (Ret good, st1) ->
        getCounter cfg start end_ (Bad sli) st1 = (Ret bad, st2) ->
        getGoodTotal cfg slo start end_ st = (Ret (good, Int64.add good bad), st2)).
  { intros slo sli st st1 st2 good bad Hsli Hg Hb Ht H1 H2.
    apply nonempty_true in Hg, Hb. apply nonempty_false in Ht.
    unfold Ratio.getGoodTotal. rewrite (bind_Ret _ _ st sli st) by (rewrite Hsli; reflexivity).
    rewrite Hg, Hb, Ht. simpl.
    rewrite (bind_Ret _ _ _ _ _ H1), (bind_Ret _ _ _ _ _ H2). reflexivity. }
  assert (C : forall slo sli (st st1 st2 : State W) bad total,
        Ratio.ratioSLI slo = Ret sli ->
        Good sli = "" -> Bad sli <> "" -> Total sli <> "" ->
        getCounter cfg start end_ (Bad sli) st = (Ret bad, st1) ->
        getCounter cfg start end_ (Total sli) st1 = (Ret total, st2) ->
        getGoodTotal cfg slo start end_ st = (Ret (Int64.sub total bad, total), st2)).
  { intros slo sli st st1 st2 bad total Hsli Hg Hb Ht H1 H2.
    apply nonempty_false in Hg. apply nonempty_true in Hb, Ht.
    unfold Ratio.getGoodTotal. rewrite (bind_Ret _ _ st sli st) by (rewrite Hsli; reflexivity).
    rewrite Hg, Hb, Ht. simpl.
    rewrite (bind_Ret _ _ _ _ _ H1), (bind_Ret _ _ _ _ _ H2). reflexivity. }
  split; [exact A|]. split; [exact B|]. split; [exact C|].
  intros fgood fbad ftotal good bad total Hfg Hfb Hft Hg Hb Ht Rg Rt Hsum st.
  assert (run : forall f v, (forall st, fst (getCounter cfg start end_ f st) = Ret v) ->
            forall st, exists st', getCounter cfg start end_ f st = (Ret v, st')).
  { intros f v H st0. specialize (H st0).
    destruct (getCounter cfg start end_ f st0) as [o st']. simpl in H. subst o.
    exists st'. reflexivity. }
  split; [|split].
  - destruct (run _ _ Hg st) as (st1 & H1). destruct (run _ _ Ht st1) as (st2 & H2).
    rewrite (A (ratioSLO fgood "" ftotal) _ st st1 st2 good total eq_refl Hfg Hft H1 H2).
    reflexivity.
  - destruct (run _ _ Hg st) as (st1 & H1). destruct (run _ _ Hb st1) as (st2 & H2).
    rewrite (B (ratioSLO fgood fbad "") _ st st1 st2 good bad eq_refl Hfg Hfb eq_refl H1 H2).
    simpl. unfold Int64.add. rewrite <- Hsum, int64_wrap_id by exact Rt. reflexivity.
  - destruct (run _ _ Hb st) as (st1 & H1). destruct (run _ _ Ht st1) as (st2 & H2).
    rewrite (C (ratioSLO "" fbad ftotal) _ st st1 st2 bad total eq_refl eq_refl Hfb Hft H1 H2).
    simpl. unfold Int64.sub. replace (total - bad) with good by lia.
    rewrite int64_wrap_id by exact Rg. reflexivity.
Qed.

End RatioForms.

(** *** The counters on canned answers *)

Lemma in_range_small z : - 2 ^ 62 <= z <= 2 ^ 62 -> Int64.in_range z.
Proof. unfold Int64.in_range, Int64.min_int, Int64.max_int. lia. Qed.

Lemma getCounter_by_shape_witness :
  let run series :=
    fst (Ratio.getCounter (Mock.env (seriesAnswers series)) Mock.amd64
           testConfig day0 day1 "filter" Mock.start) in
  run [] = Ret 0
  /\ run [oneSeries DOUBLE (DoubleValue 2.75)] = Ret 2
  /\ run [oneSeries DOUBLE (DoubleValue (-2.75))] = Ret (-2)
  /\ run [oneSeries INT64 (Int64Value 7)] = Ret 7
  /\ run [oneSeries INT64 (Int64Value 7); oneSeries INT64 (Int64Value 8)]
     = Fail ErrExpectedOneSeries
  /\ run [mkTimeSeries ∅ INT64 []] = Fail ErrExpectedOnePoint
  /\ run [oneSeries STRING (StringValue "7")] = Fail ErrValueType.
Proof.
  intros run. subst run. cbv beta.
  pose (thm series :=
    getCounter_by_shape (Mock.env (seriesAnswers series)) Mock.amd64
      testConfig day0 day1 "filter" Mock.start series tt eq_refl).
  split; [exact (proj1 (proj2 (thm [])) eq_refl)|].
  split.
  { refine (proj2 (proj1 (proj2 (proj2 (thm [oneSeries DOUBLE (DoubleValue 2.75)])))
              _ _ eq_refl eq_refl eq_refl) 2.75%float 2 eq_refl eq_refl _).
    apply in_range_small. lia. }
  split.
  { refine (proj2 (proj1 (proj2 (proj2 (thm [oneSeries DOUBLE (DoubleValue (-2.75))])))
              _ _ eq_refl eq_refl eq_refl) (-2.75)%float (-2) eq_refl eq_refl _).
    apply in_range_small. lia. }
  split.
  { exact (proj1 (proj2 (proj2 (proj2 (thm [oneSeries INT64 (Int64Value 7)]))))
             _ _ eq_refl eq_refl eq_refl). }
  split.
  { apply (proj1 (proj2 (proj2 (proj2 (proj2
             (thm [oneSeries INT64 (Int64Value 7); oneSeries INT64 (Int64Value 8)])))))).
    simpl. lia. }
  split.
  { apply (proj1 (proj2 (proj2 (proj2 (proj2 (proj2
             (thm [mkTimeSeries ∅ INT64 []])))))) _ eq_refl).
    simpl. lia. }
  apply (proj2 (proj2 (proj2 (proj2 (proj2 (proj2
           (thm [oneSeries STRING (StringValue "7")])))))) _ _ eq_refl eq_refl);
    discriminate.
Defined.

Lemma getGoodTotal_needs_two_filters_witness :
  Ratio.getGoodTotal (Mock.env counterAnswers) Mock.amd64 testConfig
    (ratioSLO "good" "" "") day0 day1 Mock.start
  = (Fail ErrTwoOfThree, Mock.start)
  /\ forall rows,
       fst (Ratio.newRecords (Mock.env counterAnswers) Mock.amd64 2 testConfig
              (mkService "s1" "svc1" "" "") (ratioSLO "good" "" "") ∅ Mock.start)
       = Ret rows ->
       rows = [].
Proof.
  apply (getGoodTotal_needs_two_filters (Mock.env counterAnswers) Mock.amd64 2
           testConfig (mkService "s1" "svc1" "" "") (ratioSLO "good" "" "")
           (mkGoodTotalRatioSLI "good" "" "") ∅ day0 day1 Mock.start eq_refl).
  unfold filtersSet. simpl. lia.
Defined.

Lemma getGoodTotal_two_of_three_witness :
  let run slo :=
    fst (Ratio.getGoodTotal (Mock.env counterAnswers) Mock.amd64 testConfig
           slo day0 day1 Mock.start) in
  (run (ratioSLO "good" "" "total") = Ret (10, 15)
   /\ run (ratioSLO "good" "bad" "") = Ret (10, 15)
   /\ run (ratioSLO "" "bad" "total") = Ret (10, 15))
  /\ run (ratioSLO "good" "bad" "total") = Ret (10, 15)
  /\ run (ratioSLO "good" "bad" "") = Ret (10, Int64.add 10 5)
  /\ run (ratioSLO "" "bad" "total") = Ret (Int64.sub 15 5, 15).
Proof.
  intros run. subst run. cbv beta.
  pose proof (getGoodTotal_two_of_three (Mock.env counterAnswers) Mock.amd64
                testConfig day0 day1) as (A & B & C & D).
  split.
  { apply (D "good" "bad" "total" 10 5 15); try discriminate;
      try (intros st; reflexivity); try (apply in_range_small; lia).
    reflexivity. }
  split.
  { refine (f_equal fst (A (ratioSLO "good" "bad" "total") _ Mock.start _ _ 10 15
                           eq_refl _ _ eq_refl eq_refl)); discriminate. }
  split.
  { refine (f_equal fst (B (ratioSLO "good" "bad" "") _ Mock.start _ _ 10 5
                           eq_refl _ _ eq_refl eq_refl eq_refl)); discriminate. }
  refine (f_equal fst (C (ratioSLO "" "bad" "total") _ Mock.start _ _ 5 15
                         eq_refl eq_refl _ _ eq_refl eq_refl)); discriminate.
Defined.

(** ** float64 sums and conversions *)

Lemma Prim2SF_zero_add (f : float) :
  Prim2SF (0 + f)%float
  = match Prim2SF f with S754_zero _ => S754_zero false | x => x end.
Proof.
  rewrite add_spec. change (Prim2SF 0%float) with (S754_zero false).
  unfold SF64add, SFadd. destruct (Prim2SF f) as [[|]|[|]| |s m e]; reflexivity.
Qed.

Lemma float_add_comm (x y : float) : (x + y)%float = (y + x)%float.
Proof.
  apply Prim2SF_inj. rewrite !add_spec. unfold SF64add, SFadd.
  destruct (Prim2SF x) as [[|]|[|]| |sx mx ex], (Prim2SF y) as [[|]|[|]| |sy my ey];
    try reflexivity.
  rewrite (Z.min_comm ex ey), Z.add_comm. reflexivity.
Qed.

(** Starting a sum from zero does not change what [int64(.)] makes of it. *)
Lemma to_int64_zero_add indefinite (f : float) :
  Float64.to_int64 indefinite (0 + f)%float = Float64.to_int64 indefinite f.
Proof.
  pose proof (Prim2SF_zero_add f) as H.
  destruct (Prim2SF f) as [s | s | | s m e] eqn:E.
  - unfold Float64.to_int64, Float64.trunc. rewrite H, E. reflexivity.
  - rewrite <- E in H. apply Prim2SF_inj in H. rewrite H. reflexivity.
  - rewrite <- E in H. apply Prim2SF_inj in H. rewrite H. reflexivity.
  - rewrite <- E in H. apply Prim2SF_inj in H. rewrite H. reflexivity.
Qed.

Lemma to_int64_same_up_to_zero_sign indefinite (x y : float) :
  Prim2SF x = Prim2SF y
  \/ (exists s s', Prim2SF x = S754_zero s /\ Prim2SF y = S754_zero s') ->
  Float64.to_int64 indefinite x = Float64.to_int64 indefinite y.
Proof.
  intros [H | (s & s' & Hx & Hy)].
  - apply Prim2SF_inj in H. rewrite H. reflexivity.
  - unfold Float64.to_int64, Float64.trunc. rewrite Hx, Hy. reflexivity.
Qed.

Lemma to_int64_sum_from_zero indefinite (a b : float) :
  Float64.to_int64 indefinite (0 + a + b)%float
  = Float64.to_int64 indefinite (a + b)%float.
Proof.
  apply to_int64_same_up_to_zero_sign.
  rewrite !add_spec. change (Prim2SF 0%float) with (S754_zero false).
  unfold SF64add, SFadd.
  destruct (Prim2SF a) as [[|]|[|]| |sa ma ea], (Prim2SF b) as [[|]|[|]| |sb mb eb];
    try (left; reflexivity); right; eauto.
Qed.

(** ** The combined query of the first revision *)

Lemma sumSeries_step_good s rest good total :
  conforming s -> label s "event_type" = "good" ->
  Legacy.sumSeries (s :: rest) good total
  = Legacy.sumSeries rest (good + pointOf s)%float (total + pointOf s)%float.
Proof.
  intros (Hp & Hv & _) Hl. simpl. unfold pointOf.
  destruct (Points s) as [|p [|q ps]]; simpl in Hp; try discriminate.
  rewrite Hv, Hl. reflexivity.
Qed.

Lemma sumSeries_step_bad s rest good total :
  conforming s -> label s "event_type" = "bad" ->
  Legacy.sumSeries (s :: rest) good total
  = Legacy.sumSeries rest good (total + pointOf s)%float.
Proof.
  intros (Hp & Hv & _) Hl. simpl. unfold pointOf.
  destruct (Points s) as [|p [|q ps]]; simpl in Hp; try discriminate.
  rewrite Hv, Hl. reflexivity.
Qed.

Lemma sumSeries_head_nonconforming s rest good total :
  ~ conforming s -> is_Fail (Legacy.sumSeries (s :: rest) good total) = true.
Proof.
  intros Hn. simpl.
  destruct (Points s) as [|p [|q ps]] eqn:Hp; try reflexivity.
  destruct (valueType s) eqn:Hv; try reflexivity.
  destruct (String.eqb (label s "event_type") "bad") eqn:Hb.
  { exfalso. apply Hn. apply String.eqb_eq in Hb. unfold conforming.
    rewrite Hp. auto. }
  destruct (String.eqb (label s "event_type") "good") eqn:Hg; [|reflexivity].
  exfalso. apply Hn. apply String.eqb_eq in Hg. unfold conforming.
  rewrite Hp. auto.
Qed.

Lemma sumSeries_nonconforming series :
  Exists (fun s => ~ conforming s) series ->
  forall good total, is_Fail (Legacy.sumSeries series good total) = true.
Proof.
  induction 1 as [s rest Hbad | s rest _ IH]; intros good total.
  - apply sumSeries_head_nonconforming. exact Hbad.
  - simpl.
    destruct (Points s) as [|p [|q ps]]; try reflexivity.
    destruct (valueType s); try reflexivity.
    destruct (String.eqb _ "bad"); [apply IH|].
    destruct (String.eqb _ "good"); [apply IH | reflexivity].
Qed.

Section LegacyFacts.

Context {W : Type}.
Variable env : Env W.
Variable indefinite : float -> Z.

Local Abbreviation getGoodTotal := (Legacy.getGoodTotal env indefinite).

(** C6 (as the code has it).  With the answer of the combined query at hand,
    [getGoodTotal] returns (0, 0) and no error when there is no series; it
    fails for every answer whose series count is neither 0 nor 2, and for
    every two-series answer in which some series has a point count other
    than 1, a value type other than [DOUBLE] or an [event_type] label that
    is neither ["good"] nor ["bad"]; for one good-labelled and one
    bad-labelled conforming series, in either order, it returns
    good = [int64] of the good value and total = [int64] of the float64 sum
    of the two values.  It makes this one query and no other call. *)
Theorem getGoodTotal_legacy_by_shape
    (cfg : Config) (slo : SLO) (start end_ : GoTime.Time)
    (st : State W) (series : list TimeSeries) (w : W) :
  ListTimeSeries env (Legacy.request cfg slo start end_) (world st)
  = (Ret series, w) ->
  let result := fst (getGoodTotal cfg slo start end_ st) in
  snd (getGoodTotal cfg slo start end_ st)
  = mkState w (trace st ++ [EvListTimeSeries (Legacy.request cfg slo start end_)])
  /\ (series = [] -> result = Ret (0, 0))
  /\ (length series <> 0%nat -> length series <> 2%nat ->
        result = Fail ErrExpectedTwoSeries)
  /\ (length series = 2%nat -> Exists (fun s => ~ conforming s) series ->
        is_Fail result = true)
  /\ (forall sg sb,
        series = [sg; sb] \/ series = [sb; sg] ->
        conforming sg -> conforming sb ->
        label sg "event_type" = "good" -> label sb "event_type" = "bad" ->
        result = Ret (Float64.to_int64 indefinite (pointOf sg),
                      Float64.to_int64 indefinite (pointOf sg + pointOf sb)%float)).
Proof.
  intros Hq result. subst result.
  unfold Legacy.getGoodTotal, bind, call, lift. rewrite Hq. simpl.
  split.
  { destruct series as [|s1 [|s2 [|s3 rest]]]; try reflexivity.
    destruct (Legacy.sumSeries _ _ _) as [[g t] | e | p]; reflexivity. }
  split; [intros ->; reflexivity|].
  split.
  { destruct series as [|s1 [|s2 [|s3 rest]]]; simpl; intros H0 H2;
      try congruence; reflexivity. }
  split.
  { intros Hlen Hbad.
    destruct series as [|s1 [|s2 [|s3 rest]]]; simpl in Hlen; try discriminate.
    pose proof (sumSeries_nonconforming _ Hbad 0%float 0%float) as Hf.
    destruct (Legacy.sumSeries _ _ _) as [[g t] | e | p]; simpl in *;
      [discriminate | reflexivity | discriminate]. }
  intros sg sb Hs Hcg Hcb Hg Hb. destruct Hs as [-> | ->].
  - rewrite (sumSeries_step_good sg), (sumSeries_step_bad sb) by assumption.
    simpl. rewrite to_int64_zero_add, to_int64_sum_from_zero. reflexivity.
  - rewrite (sumSeries_step_bad sb), (sumSeries_step_good sg) by assumption.
    simpl. rewrite to_int64_zero_add, to_int64_sum_from_zero.
    rewrite (float_add_comm (pointOf sb)). reflexivity.
Qed.

End LegacyFacts.

(** *** The combined query on canned answers *)

Lemma conforming_labelled_good v : conforming (labelled "good" v).
Proof. unfold conforming. simpl. auto. Qed.

Lemma conforming_labelled_bad v : conforming (labelled "bad" v).
Proof. unfold conforming. simpl. auto. Qed.

Lemma getGoodTotal_legacy_by_shape_witness :
  let run series :=
    fst (Legacy.getGoodTotal (Mock.env (seriesAnswers series)) Mock.amd64
           testConfig (legacySLO "s1" "slo1" 0.5) day0 day1 Mock.start) in
  run [] = Ret (0, 0)
  /\ run [labelled "good" 100] = Fail ErrExpectedTwoSeries
  /\ is_Fail (run [labelled "good" 100; labelled "ugly" 11]) = true
  /\ run [labelled "good" 100; labelled "bad" 11] = Ret (100, 111)
  /\ run [labelled "bad" 11; labelled "good" 100] = Ret (100, 111).
Proof.
  intros run. subst run. cbv beta.
  pose (thm series :=
    getGoodTotal_legacy_by_shape (Mock.env (seriesAnswers series)) Mock.amd64
      testConfig (legacySLO "s1" "slo1" 0.5) day0 day1 Mock.start series tt eq_refl).
  split; [exact (proj1 (proj2 (thm [])) eq_refl)|].
  split.
  { apply (proj1 (proj2 (proj2 (thm [labelled "good" 100])))); simpl; lia. }
  split.
  { apply (proj1 (proj2 (proj2 (proj2 (thm [labelled "good" 100; labelled "ugly" 11])))));
      [reflexivity|].
    apply Exists_cons_tl, Exists_cons_hd.
    intros (_ & _ & [H | H]); discriminate H. }
  split.
  { exact (proj2 (proj2 (proj2 (proj2 (thm [labelled "good" 100; labelled "bad" 11]))))
             (labelled "good" 100) (labelled "bad" 11) (or_introl eq_refl)
             (conforming_labelled_good _) (conforming_labelled_bad _)
             eq_refl eq_refl). }
  exact (proj2 (proj2 (proj2 (proj2 (thm [labelled "bad" 11; labelled "good" 100]))))
           (labelled "good" 100) (labelled "bad" 11) (or_intror eq_refl)
           (conforming_labelled_good _) (conforming_labelled_bad _)
           eq_refl eq_refl).
Defined.

(** An answer without any series has a series count other than 2, and yet
    [getGoodTotal] returns counts, not an error. *)
Lemma getGoodTotal_legacy_zero_series_counterexample :
  fst (Legacy.getGoodTotal (Mock.env (seriesAnswers [])) Mock.amd64
         testConfig (legacySLO "s1" "slo1" 0.5) day0 day1 Mock.start)
  = Ret (0, 0)
  /\ ~ (forall series : list TimeSeries,
          length series <> 2%nat ->
          is_Fail (fst (Legacy.getGoodTotal (Mock.env (seriesAnswers series))
                          Mock.amd64 testConfig (legacySLO "s1" "slo1" 0.5)
                          day0 day1 Mock.start)) = true).
Proof.
  split; [reflexivity|].
  intros H. specialize (H [] ltac:(discriminate)). discriminate H.
Qed.

(** ** The lease *)

Lemma digit_bounds c d : Strconv.digit c = Some d -> 0 <= d <= 9.
Proof.
  unfold Strconv.digit. destruct (_ && _) eqn:E; [|discriminate].
  apply andb_true_iff in E as [H1 H2]. apply Z.leb_le in H1, H2.
  intros H. inversion H. lia.
Qed.

Lemma digits_nonneg s : forall acc n, 0 <= acc -> Strconv.digits s acc = Some n -> 0 <= n.
Proof.
  induction s as [|c rest IH]; simpl; intros acc n Hacc H.
  - inversion H. lia.
  - destruct (Strconv.digit c) as [d|] eqn:Hd; [|discriminate].
    apply digit_bounds in Hd. apply (IH (acc * 10 + d)); [lia | exact H].
Qed.

Lemma ParseUint_range s n : Strconv.ParseUint s = Some n -> 0 <= n < 2 ^ 64.
Proof.
  unfold Strconv.ParseUint. destruct s as [|c rest]; [discriminate|].
  destruct (Strconv.digits _ 0) as [m|] eqn:Hm; [|discriminate].
  destruct (m <? 2 ^ 64) eqn:Hlt; [|discriminate].
  intros H. inversion H. subst m. apply Z.ltb_lt in Hlt.
  apply digits_nonneg in Hm; lia.
Qed.

(** [ParseInt] only returns values of type [int64]. *)
Lemma ParseInt_range s n : Strconv.ParseInt s = Some n -> Int64.in_range n.
Proof.
  unfold Strconv.ParseInt. destruct s as [|c rest]; [discriminate|].
  destruct (if Ascii.eqb c "+" then _ else _) as [neg body].
  destruct (Strconv.ParseUint body) as [un|] eqn:Hu; [|discriminate].
  apply ParseUint_range in Hu.
  unfold Int64.in_range, Int64.min_int, Int64.max_int.
  destruct neg; simpl.
  - destruct (2 ^ 63 <? un) eqn:E; [discriminate|]. apply Z.ltb_ge in E.
    intros H. inversion H. lia.
  - destruct (2 ^ 63 <=? un) eqn:E; [discriminate|]. apply Z.leb_gt in E.
    intros H. inversion H. lia.
Qed.

Lemma Unix_plain now : plainClock now -> GoTime.Unix now = GoTime.isec now + GoTime.internalToUnix.
Proof. intros (_ & H & _). unfold GoTime.Unix. apply int64_wrap_id. exact H. Qed.

(** On timestamps that [time.Unix] can hold without overflow, [After]
    compares the timestamp with the clock. *)
Lemma After_FromUnix ts now :
  plainClock now -> Int64.in_range ts ->
  ts + GoTime.unixToInternal <= Int64.max_int ->
  GoTime.After (GoTime.FromUnix ts 0) now = (GoTime.Unix now <? ts).
Proof.
  intros Hc Hts Hmax. rewrite (Unix_plain now Hc).
  destruct Hc as (_ & _ & Hn).
  unfold GoTime.After, GoTime.FromUnix, GoTime.unixTime. simpl.
  rewrite int64_wrap_id.
  2:{ unfold Int64.in_range, Int64.min_int, Int64.max_int, GoTime.unixToInternal in *. lia. }
  unfold GoTime.internalToUnix.
  destruct (GoTime.nsec now <? 0) eqn:E; [apply Z.ltb_lt in E; lia|].
  rewrite andb_false_r, orb_false_r.
  destruct (Z.ltb_spec (GoTime.isec now) (ts + GoTime.unixToInternal));
    destruct (Z.ltb_spec (GoTime.isec now + - GoTime.unixToInternal) ts); lia.
Qed.

Section LeaseFacts.

Context {W : Type}.
Variable env : Env W.

(** The lease protocol.  With the label [(exp, etag)] read from the dataset:
    a non-empty value that does not parse fails without a write; a value
    that parses to a timestamp after the clock (and that [time.Unix] can
    hold without overflow) fails without a write; an empty value, or one
    that parses to a timestamp not after the clock, leads to one write of
    the new expiration as a decimal Unix timestamp under the etag that was
    read, whose error, if any, is returned, and else the lease. *)
Lemma newBqLease_protocol
    (dataset : string) (expiration : GoTime.Time) (st : State W)
    (exp etag : string) (w1 : W) :
  ReadDatasetMetadataLabel env dataset bqLeaseLabelName (world st)
  = (Ret (exp, etag), w1) ->
  let read := EvReadLabel dataset bqLeaseLabelName in
  let value := Strconv.FormatInt (GoTime.Unix expiration) in
  let write := EvWriteLabel dataset bqLeaseLabelName value etag in
  let written r w :=
    (match r with
     | Some e => Fail (ErrLeaseUpdate e)
     | None => Ret (mkLease dataset)
     end, mkState w (trace st ++ [read; write])) in
  (exp <> "" -> Strconv.ParseInt exp = None ->
     newBqLease env dataset expiration st
     = (Fail (ErrLeaseParse exp), mkState w1 (trace st ++ [read])))
  /\ (forall ts now w2,
        exp <> "" -> Strconv.ParseInt exp = Some ts ->
        time_Now env w1 = (now, w2) -> plainClock now ->
        ts + GoTime.unixToInternal <= Int64.max_int ->
        GoTime.Unix now < ts ->
        newBqLease env dataset expiration st
        = (Fail (ErrLeaseStillValid ts), mkState w2 (trace st ++ [read])))
  /\ (forall r w3,
        exp = "" ->
        WriteDatasetMetadataLabel env dataset bqLeaseLabelName value etag w1 = (r, w3) ->
        newBqLease env dataset expiration st = written r w3)
  /\ (forall ts now w2 r w3,
        exp <> "" -> Strconv.ParseInt exp = Some ts ->
        time_Now env w1 = (now, w2) -> plainClock now ->
        ts <= GoTime.Unix now ->
        WriteDatasetMetadataLabel env dataset bqLeaseLabelName value etag w2 = (r, w3) ->
        newBqLease env dataset expiration st = written r w3).
Proof.
  intros Hread read value write written.
  unfold newBqLease, bind, call, call_err, clock, fail, ret.
  rewrite Hread. cbn [world trace].
  split; [|split; [|split]].
  - intros Hne Hp. apply nonempty_true in Hne. rewrite Hne, Hp. reflexivity.
  - intros ts now w2 Hne Hp Hnow Hc Hmax Hfut.
    apply nonempty_true in Hne. rewrite Hne, Hp. cbn [world trace]. rewrite Hnow.
    rewrite (After_FromUnix ts now Hc (ParseInt_range _ _ Hp) Hmax).
    apply Z.ltb_lt in Hfut. rewrite Hfut. reflexivity.
  - intros r w3 He Hw. apply nonempty_false in He. rewrite He.
    cbn [world trace]. fold value. rewrite Hw. subst written. cbv beta.
    rewrite <- app_assoc. destruct r; reflexivity.
  - intros ts now w2 r w3 Hne Hp Hnow Hc Hpast Hw.
    apply nonempty_true in Hne. rewrite Hne, Hp. cbn [world trace]. rewrite Hnow.
    rewrite (After_FromUnix ts now Hc (ParseInt_range _ _ Hp)).
    2:{ pose proof (Unix_plain now Hc) as HU. destruct Hc as (Hr & _ & _).
        unfold Int64.in_range, GoTime.internalToUnix in *. lia. }
    apply Z.ltb_ge in Hpast. rewrite Hpast.
    cbn [world trace]. fold value. rewrite Hw. subst written. cbv beta.
    rewrite <- app_assoc. destruct r; reflexivity.
Qed.

End LeaseFacts.

(** C2 (where the code departs from it).  A stored lease of
    9223372036854775807 parses to a Unix timestamp far in the future, but
    [time.Unix] adds 62135596800 to it in [int64], which wraps around to a
    second count before the clock: [newBqLease] takes the lease for expired,
    writes the new expiration and returns a lease.  A lease one minute ahead
    of the clock is refused without a write, as documented. *)
Theorem newBqLease_far_future_lease_overwritten :
  Strconv.ParseInt "9223372036854775807" = Some Int64.max_int
  /\ GoTime.Unix (Mock.mockNow testAnswers) < Int64.max_int
  /\ GoTime.After (GoTime.FromUnix Int64.max_int 0) (Mock.mockNow testAnswers) = false
  /\ acquire "9223372036854775807"
     = (Ret (mkLease "dsname"),
        mkState tt [EvReadLabel "dsname" bqLeaseLabelName;
                    EvWriteLabel "dsname" bqLeaseLabelName "1337" "etag1"])
  /\ Strconv.ParseInt "1431270060" = Some (GoTime.Unix (Mock.mockNow testAnswers) + 60)
  /\ acquire "1431270060"
     = (Fail (ErrLeaseStillValid 1431270060),
        mkState tt [EvReadLabel "dsname" bqLeaseLabelName]).
Proof.
  split; [vm_compute; reflexivity|].
  split; [vm_compute; reflexivity|].
  split; [vm_compute; reflexivity|].
  split; [vm_compute; reflexivity|].
  split; vm_compute; reflexivity.
Qed.

(** ** What a computation calls and what it returns *)

Section Observations.

Context {W : Type}.

Lemma emits_nothing {A} (c : M W A) P :
  (forall st, trace (snd (c st)) = trace st) -> emits c P.
Proof. intros H st. exists []. rewrite H, app_nil_r. auto. Qed.

Lemma emits_ret {A} (a : A) P : emits (@ret W A a) P.
Proof. apply emits_nothing. reflexivity. Qed.

Lemma emits_fail {A} e P : emits (@fail W A e) P.
Proof. apply emits_nothing. reflexivity. Qed.

Lemma emits_lift {A} (o : outcome A) P : emits (@lift W A o) P.
Proof. apply emits_nothing. reflexivity. Qed.

Lemma emits_clock op P : emits (@clock W op) P.
Proof.
  apply emits_nothing. intros st. unfold clock.
  destruct (op (world st)). reflexivity.
Qed.

Lemma emits_call {A} (op : W -> outcome A * W) ev (P : Event -> Prop) :
  P ev -> emits (call op ev) P.
Proof.
  intros H st. exists [ev]. unfold call. destruct (op (world st)). simpl. auto.
Qed.

Lemma emits_call_err (op : W -> option error * W) ev (P : Event -> Prop) :
  P ev -> emits (call_err op ev) P.
Proof.
  intros H st. exists [ev]. unfold call_err. destruct (op (world st)). simpl. auto.
Qed.

Lemma emits_bind {A B} (c : M W A) (k : A -> M W B) P :
  emits c P ->
  (forall a st st', c st = (Ret a, st') -> emits (k a) P) ->
  emits (bind c k) P.
Proof.
  intros Hc Hk st. unfold bind.
  destruct (Hc st) as (evs & Ht & Hp).
  destruct (c st) as [[a | e | p] st'] eqn:E; simpl in Ht.
  - destruct (Hk a st st' E st') as (evs' & Ht' & Hp').
    exists (evs ++ evs'). rewrite Ht', Ht, app_assoc. split; [reflexivity|].
    apply Forall_app. auto.
  - exists evs. auto.
  - exists evs. auto.
Qed.

Lemma emits_weaken {A} (c : M W A) (P Q : Event -> Prop) :
  emits c P -> (forall ev, P ev -> Q ev) -> emits c Q.
Proof.
  intros Hc HPQ st. destruct (Hc st) as (evs & Ht & Hp).
  exists evs. split; [exact Ht|]. eapply Forall_impl; eauto.
Qed.

Lemma returns_ret {A} (a : A) (Q : A -> Prop) : Q a -> returns (@ret W A a) Q.
Proof. intros H st b st' E. inversion E. subst. exact H. Qed.

Lemma returns_bind {A B} (c : M W A) (k : A -> M W B) (Q : B -> Prop) :
  (forall a st st', c st = (Ret a, st') -> returns (k a) Q) ->
  returns (bind c k) Q.
Proof.
  intros Hk st b st'' H. apply bind_inv_Ret in H as (a & st' & Hc & Hka).
  exact (Hk a st st' Hc st' b st'' Hka).
Qed.

End Observations.

(** ** Backfill: only days that are not recorded yet *)

Section Backfill.

Context {W : Type}.
Variable env : Env W.
Variable backfillDays : Z.
Variable getGoodTotal : @evaluator W.
Hypothesis getGoodTotal_queries : queriesItsInterval getGoodTotal.

Variables (cfg : Config) (svc : Service) (slo : SLO) (existing : bqMap).
Variable loc : GoTime.Location.

Local Abbreviation openQuery := (queryForOpenDay env backfillDays loc svc slo existing).
Local Abbreviation openRow := (rowForOpenDay env backfillDays loc svc slo existing).

Lemma clock_timeNowShows (st : State W) now st' :
  clock (timeNow env) st = (Ret now, st') -> timeNowShows env now.
Proof.
  unfold clock. intros H. exists (world st).
  destruct (timeNow env (world st)) as [t w]. inversion H. reflexivity.
Qed.

Lemma newRecords_day_emits daysAgo rows :
  1 <= daysAgo <= backfillDays ->
  emits (newRecords_day env getGoodTotal cfg svc slo existing loc daysAgo rows) openQuery.
Proof.
  intros Hd. unfold newRecords_day.
  apply emits_bind; [apply emits_clock|]. intros now1 c1 c1' Hn1.
  apply clock_timeNowShows in Hn1.
  apply emits_bind; [apply emits_clock|]. intros now2 c2 c2' Hn2.
  apply clock_timeNowShows in Hn2.
  apply emits_bind; [apply emits_lift|]. intros service s0 s1 Hs.
  apply lift_inv_Ret in Hs as [Hs _].
  apply emits_bind; [apply emits_lift|]. intros name s2 s3 Hn.
  apply lift_inv_Ret in Hn as [Hn _].
  destruct (bqMap_Check existing service name _) eqn:Hc; [apply emits_ret|].
  apply emits_bind.
  - eapply emits_weaken; [apply getGoodTotal_queries|].
    intros ev (req & -> & Hstart & Hend).
    exists req, daysAgo, now1, now2, service, name. auto 10.
  - intros [good total] _ _ _.
    apply emits_bind; [apply emits_lift|]. intros _ _ _ _. apply emits_ret.
Qed.

Lemma newRecords_day_returns daysAgo rows :
  1 <= daysAgo <= backfillDays ->
  Forall openRow rows ->
  returns (newRecords_day env getGoodTotal cfg svc slo existing loc daysAgo rows)
    (Forall openRow).
Proof.
  intros Hd Hrows. unfold newRecords_day.
  apply returns_bind. intros now1 c1 c1' Hn1. apply clock_timeNowShows in Hn1.
  apply returns_bind. intros now2 _ _ _.
  apply returns_bind. intros service s0 s1 Hs. apply lift_inv_Ret in Hs as [Hs _].
  apply returns_bind. intros name s2 s3 Hn. apply lift_inv_Ret in Hn as [Hn _].
  destruct (bqMap_Check existing service name _) eqn:Hc; [apply returns_ret; exact Hrows|].
  apply returns_bind. intros [good total] _ _ _.
  apply returns_bind. intros _ _ _ _. apply returns_ret.
  apply Forall_app. split; [exact Hrows|]. constructor; [|constructor].
  exists daysAgo, now1. simpl. auto 10.
Qed.

Lemma newRecords_loop_emits n : forall daysAgo rows,
  1 <= daysAgo -> Z.of_nat n <= Z.max 0 (backfillDays - daysAgo + 1) ->
  emits (newRecords_loop env getGoodTotal cfg svc slo existing loc n daysAgo rows) openQuery.
Proof.
  induction n as [|n IH]; intros daysAgo rows Hlo Hhi; simpl.
  - apply emits_ret.
  - apply emits_bind; [apply newRecords_day_emits; lia|].
    intros rows' _ _ _. apply IH; lia.
Qed.

Lemma newRecords_loop_returns n : forall daysAgo rows,
  1 <= daysAgo -> Z.of_nat n <= Z.max 0 (backfillDays - daysAgo + 1) ->
  Forall openRow rows ->
  returns (newRecords_loop env getGoodTotal cfg svc slo existing loc n daysAgo rows)
    (Forall openRow).
Proof.
  induction n as [|n IH]; intros daysAgo rows Hlo Hhi Hrows; simpl.
  - apply returns_ret. exact Hrows.
  - apply returns_bind. intros rows' st st' Hday.
    apply IH; [lia | lia |].
    exact (newRecords_day_returns daysAgo rows ltac:(lia) Hrows st rows' st' Hday).
Qed.

Lemma newRecordsWith_open_days :
  LoadLocation env (TimeZone cfg) = Ret loc ->
  emits (newRecordsWith env backfillDays getGoodTotal cfg svc slo existing) openQuery
  /\ returns (newRecordsWith env backfillDays getGoodTotal cfg svc slo existing)
       (Forall openRow).
Proof.
  intros Hloc. unfold newRecordsWith. rewrite Hloc. split.
  - apply emits_bind; [apply emits_lift|]. intros l st st' Hl.
    apply lift_inv_Ret in Hl as [Hl _]. inversion Hl. subst l.
    apply newRecords_loop_emits; lia.
  - apply returns_bind. intros l st st' Hl.
    apply lift_inv_Ret in Hl as [Hl _]. inversion Hl. subst l.
    apply newRecords_loop_returns; [lia | lia | constructor].
Qed.

End Backfill.

(** *** The calendar day of a query *)

Lemma wrap_wrap_add a b : Int64.wrap (Int64.wrap a + b) = Int64.wrap (a + b).
Proof.
  unfold Int64.wrap. f_equal.
  replace ((a + 2 ^ 63) mod 2 ^ 64 - 2 ^ 63 + b + 2 ^ 63)
    with ((a + 2 ^ 63) mod 2 ^ 64 + b) by lia.
  rewrite Z.add_mod_idemp_l by lia. f_equal. lia.
Qed.

Lemma wrap_wrap a : Int64.wrap (Int64.wrap a) = Int64.wrap a.
Proof. apply int64_wrap_id, int64_wrap_in_range. Qed.

Lemma Unix_unixTime u n l : GoTime.Unix (GoTime.unixTime u n l) = Int64.wrap u.
Proof.
  unfold GoTime.Unix, GoTime.unixTime. simpl. rewrite wrap_wrap_add.
  f_equal. unfold GoTime.internalToUnix. lia.
Qed.

Lemma loc_Date y m d hh mm ss ns l : GoTime.loc (GoTime.Date y m d hh mm ss ns l) = l.
Proof.
  unfold GoTime.Date.
  repeat match goal with |- context [let '(_, _) := ?p in _] => destruct p end.
  reflexivity.
Qed.

Lemma loc_daysAgoMidnightTimestamp now l daysAgo :
  GoTime.loc (daysAgoMidnightTimestamp now l daysAgo) = l.
Proof.
  unfold daysAgoMidnightTimestamp.
  destruct (GoTime.DateOf _) as [[y m] d]. apply loc_Date.
Qed.

(** The formatted date of a [Time] depends on its instant and zone only. *)
Lemma FormatDate_by_Unix t :
  GoTime.FormatDate t = dateOfUnix (GoTime.loc t) (GoTime.Unix t).
Proof.
  unfold dateOfUnix, GoTime.FormatDate, GoTime.DateOf, GoTime.abs.
  rewrite Unix_unixTime.
  assert (E : Int64.wrap (GoTime.Unix t) = GoTime.Unix t)
    by (unfold GoTime.Unix; apply wrap_wrap).
  rewrite E. reflexivity.
Qed.

(** *** Both revisions query the interval they are given *)

Lemma Legacy_getGoodTotal_queries {W} (env : Env W) indefinite :
  queriesItsInterval (Legacy.getGoodTotal env indefinite).
Proof.
  intros cfg slo start end_. unfold Legacy.getGoodTotal.
  apply emits_bind.
  - intros st. exists [EvListTimeSeries (Legacy.request cfg slo start end_)].
    unfold call. destruct (ListTimeSeries env _ (world st)) as [[series | e | p] w];
      simpl; (split; [reflexivity|]); repeat constructor; eexists;
      (split; [reflexivity|]); split; reflexivity.
  - intros series _ _ _. destruct series as [|s1 [|s2 [|s3 rest]]];
      try apply emits_fail; try apply emits_ret.
    apply emits_bind; [apply emits_lift|]. intros [good total] _ _ _. apply emits_ret.
Qed.

Lemma Ratio_getCounter_queries {W} (env : Env W) indefinite cfg start end_ filter :
  emits (Ratio.getCounter env indefinite cfg start end_ filter)
    (fun ev => exists req,
       ev = EvListTimeSeries req
       /\ reqStartTime req = GoTime.Unix start
       /\ reqEndTime req = GoTime.Unix end_).
Proof.
  unfold Ratio.getCounter. apply emits_bind.
  - apply emits_call. eexists. split; [reflexivity|]. split; reflexivity.
  - intros series _ _ _. apply emits_lift.
Qed.

Lemma Ratio_getGoodTotal_queries {W} (env : Env W) indefinite :
  queriesItsInterval (Ratio.getGoodTotal env indefinite).
Proof.
  intros cfg slo start end_. unfold Ratio.getGoodTotal.
  apply emits_bind; [apply emits_lift|]. intros sli _ _ _.
  destruct (_ && _).
  { apply emits_bind; [apply Ratio_getCounter_queries|]. intros good _ _ _.
    apply emits_bind; [apply Ratio_getCounter_queries|]. intros total _ _ _.
    apply emits_ret. }
  destruct (_ && _).
  { apply emits_bind; [apply Ratio_getCounter_queries|]. intros good _ _ _.
    apply emits_bind; [apply Ratio_getCounter_queries|]. intros bad _ _ _.
    apply emits_ret. }
  destruct (_ && _); [|apply emits_fail].
  apply emits_bind; [apply Ratio_getCounter_queries|]. intros bad _ _ _.
  apply emits_bind; [apply Ratio_getCounter_queries|]. intros total _ _ _.
  apply emits_ret.
Qed.

(** Under a clock that reads [now] throughout, each of its readings is
    [now]. *)
Lemma timeNowShows_steady {W : Type} (env : Env W) now now1 :
  timeNowReads env now -> timeNowShows env now1 -> now1 = now.
Proof. intros Hall [w Hw]. rewrite <- Hw. apply Hall. Qed.

Lemma open_days_only {W : Type} (env : Env W) (backfillDays : Z) (loc : GoTime.Location)
    (svc : Service) (slo : SLO) (existing : bqMap) (c : M W (list BQRow)) :
  emits c (queryForOpenDay env backfillDays loc svc slo existing) ->
  returns c (Forall (rowForOpenDay env backfillDays loc svc slo existing)) ->
  backfillsOpenDaysOnly env backfillDays loc svc slo existing c.
Proof.
  intros He Hr st. destruct (He st) as (evs & Ht & Hevs).
  exists evs. split; [exact Ht|]. split; [exact Hevs|]. split; [|split].
  - intros service name date Hin Hs Hn req Hreq Hdate.
    rewrite Forall_forall in Hevs.
    destruct (Hevs _ Hreq)
      as (req' & d & now1 & now2 & s' & n' & Hev & _ & _ & _ & Hstart & _ & Hs' & Hn' & Hc).
    inversion Hev. subst req'.
    rewrite Hs in Hs'. rewrite Hn in Hn'. inversion Hs'. inversion Hn'. subst s' n'.
    rewrite FormatDate_by_Unix, loc_daysAgoMidnightTimestamp, <- Hstart, Hdate in Hc.
    congruence.
  - intros rows Hrows. destruct (c st) as [o st'] eqn:E.
    cbn [fst] in Hrows. subst o.
    pose proof (Hr st rows st' E) as Hall. split; [exact Hall|].
    intros service name date Hin row Hrow Hkey. inversion Hkey. subst.
    rewrite Forall_forall in Hall.
    destruct (Hall row Hrow) as (d & now1 & _ & _ & _ & _ & _ & _ & Hc). congruence.
  - intros now Hsteady. split.
    + eapply Forall_impl; [exact Hevs|].
      intros ev (req & d & now1 & now2 & s' & n' & Hev & H1 & H2 & Hd & Hstart & Hend & _).
      apply (timeNowShows_steady env now) in H1; [|exact Hsteady].
      apply (timeNowShows_steady env now) in H2; [|exact Hsteady].
      subst now1 now2. exists req, d. split; [exact Hev|]. split; [exact Hd|].
      split; [exact Hstart | exact Hend].
    + intros rows Hrows. destruct (c st) as [o st'] eqn:E.
      cbn [fst] in Hrows. subst o.
      pose proof (Hr st rows st' E) as Hall.
      eapply Forall_impl; [exact Hall|].
      intros row (d & now1 & H1 & Hd & Hdate & _).
      apply (timeNowShows_steady env now) in H1; [|exact Hsteady].
      subst now1. exists d. split; [exact Hd | exact Hdate].
Qed.

(** C1.  In both revisions, for every service, SLO and index: the calls
    [newRecords] makes are metric queries over days with [daysAgo] from 1 to
    [backfillDays] (never 0) whose key (service human name, SLO human name,
    date string) is not in the index, and the rows it returns are rows of
    such days; so for a key that the index contains, no query is made for
    that date and no returned row carries that key.  The days are counted
    back from what the clock behind [timeNow] shows: with a clock that reads
    [now] throughout, every query runs from the midnight [daysAgo] days
    before [now] to the next one and every row is dated that day, for a
    [daysAgo] from 1 to [backfillDays]. *)
Theorem newRecords_skips_recorded_days {W : Type} (env : Env W)
    (indefinite : float -> Z) (backfillDays : Z)
    (cfg : Config) (svc : Service) (slo : SLO) (existing : bqMap)
    (loc : GoTime.Location) :
  LoadLocation env (TimeZone cfg) = Ret loc ->
  backfillsOpenDaysOnly env backfillDays loc svc slo existing
    (Legacy.newRecords env indefinite backfillDays cfg svc slo existing)
  /\ backfillsOpenDaysOnly env backfillDays loc svc slo existing
       (Ratio.newRecords env indefinite backfillDays cfg svc slo existing).
Proof.
  intros Hloc. split; apply open_days_only.
  - apply newRecordsWith_open_days; [apply Legacy_getGoodTotal_queries | exact Hloc].
  - apply newRecordsWith_open_days; [apply Legacy_getGoodTotal_queries | exact Hloc].
  - apply newRecordsWith_open_days; [apply Ratio_getGoodTotal_queries | exact Hloc].
  - apply newRecordsWith_open_days; [apply Ratio_getGoodTotal_queries | exact Hloc].
Qed.

(** ** Batched writes *)

Lemma puts_app evs1 evs2 : puts (evs1 ++ evs2) = puts evs1 ++ puts evs2.
Proof. unfold puts. apply omap_app. Qed.

Lemma accumulate_app B results1 : forall buffer results2,
  accumulate B buffer (results1 ++ results2)
  = let '(flushed1, kept1) := accumulate B buffer results1 in
    let '(flushed2, kept2) := accumulate B kept1 results2 in
    (flushed1 ++ flushed2, kept2).
Proof.
  induction results1 as [|res rest IH]; intros buffer results2; simpl.
  - destruct (accumulate B buffer results2). reflexivity.
  - destruct (batch_full B (buffer ++ res)).
    + rewrite IH. destruct (accumulate B [] rest) as [f1 l1].
      destruct (accumulate B l1 results2) as [f2 l2]. reflexivity.
    + apply IH.
Qed.

(** Every flushed batch has reached the batch size; what is kept has not,
    unless nothing was added to a buffer that was already that long. *)
Lemma accumulate_sizes B results : forall buffer flushed kept,
  accumulate B buffer results = (flushed, kept) ->
  Forall (fun batch => B <= Z.of_nat (length batch)) flushed
  /\ (Z.of_nat (length kept) < B \/ kept = [] \/ (results = [] /\ kept = buffer)).
Proof.
  induction results as [|res rest IH]; intros buffer flushed kept; simpl.
  - intros H. inversion H. subst. auto.
  - destruct (batch_full B (buffer ++ res)) eqn:Hfull.
    + destruct (accumulate B [] rest) as [f l] eqn:E. intros H.
      injection H as <- <-.
      destruct (IH [] f l E) as (Hf & Hl). split.
      * constructor; [|exact Hf]. apply Z.leb_le. exact Hfull.
      * destruct Hl as [Hl | [Hl | [_ Hl]]]; auto.
    + intros H. destruct (IH _ _ _ H) as (Hf & Hl). split; [exact Hf|].
      destruct Hl as [Hl | [Hl | [_ Hl]]]; auto.
      left. rewrite Hl. apply Z.leb_gt. exact Hfull.
Qed.

(** No produced row is lost, repeated or reordered. *)
Lemma accumulate_concat B results : forall buffer flushed kept,
  accumulate B buffer results = (flushed, kept) ->
  concat flushed ++ kept = buffer ++ concat results.
Proof.
  induction results as [|res rest IH]; intros buffer flushed kept; simpl.
  - intros H. injection H as <- <-. simpl. rewrite app_nil_r. reflexivity.
  - destruct (batch_full B (buffer ++ res)).
    + destruct (accumulate B [] rest) as [f l] eqn:E. intros H.
      injection H as <- <-.
      simpl. rewrite <- !app_assoc. f_equal. f_equal. apply (IH [] f l E).
    + intros H. rewrite (IH _ _ _ H), <- app_assoc. reflexivity.
Qed.

Section Observations2.

Context {W : Type}.

Lemma quiet_puts {A} (c : M W A) st :
  quiet c -> puts (trace (snd (c st))) = puts (trace st).
Proof.
  intros H. destruct (H st) as (evs & Ht & Hp). rewrite Ht, puts_app.
  assert (E : puts evs = []).
  { clear Ht. induction Hp as [|ev evs Hev _ IH]; [reflexivity|].
    unfold puts in *. simpl. rewrite Hev. exact IH. }
  rewrite E, app_nil_r. reflexivity.
Qed.

End Observations2.

Section LegacySync.

Context {W : Type}.
Variable env : Env W.
Variable indefinite : float -> Z.
Variable backfillDays : Z.
Variable bqBatchSize : Z.
Variable cfg : Config.

Local Abbreviation newRecords := (Legacy.newRecords env indefinite backfillDays).
Local Abbreviation syncSLOs := (Legacy.syncSLOs env indefinite backfillDays bqBatchSize).
Local Abbreviation syncServices :=
  (Legacy.syncServices env indefinite backfillDays bqBatchSize).
Local Abbreviation syncAllServices :=
  (Legacy.syncAllServices env indefinite backfillDays bqBatchSize).
Local Abbreviation produced := (producedBy env indefinite backfillDays cfg).

Lemma call_inv_Ret {A} (op : W -> outcome A * W) ev (st : State W) a st' :
  call op ev st = (Ret a, st') -> op (world st) = (Ret a, world st').
Proof.
  unfold call. destruct (op (world st)) as [r w]. intros H. inversion H. reflexivity.
Qed.

Lemma newRecords_quiet svc slo existing : quiet (newRecords cfg svc slo existing).
Proof.
  unfold Legacy.newRecords, newRecordsWith.
  apply emits_bind; [apply emits_lift|]. intros loc _ _ _.
  eapply emits_weaken.
  - apply (newRecords_loop_emits env backfillDays (Legacy.getGoodTotal env indefinite)
             (Legacy_getGoodTotal_queries env indefinite) cfg svc slo existing loc);
      lia.
  - intros ev (req & d & n1 & n2 & s & n & -> & _). reflexivity.
Qed.

Lemma readBQMap_quiet : quiet (readBQMap env backfillDays cfg).
Proof.
  unfold readBQMap.
  apply emits_bind; [apply emits_lift|]. intros loc _ _ _.
  apply emits_bind; [apply emits_clock|]. intros now _ _ _.
  apply emits_bind; [apply emits_call; reflexivity|]. intros rows _ _ _.
  apply emits_lift.
Qed.

Lemma put_trace rows (st : State W) :
  trace (snd (Legacy.put env cfg rows st))
  = trace st ++ [EvPut (Dataset cfg) tableName rows].
Proof.
  unfold Legacy.put, bind, call_err.
  destruct (Put env (Dataset cfg) tableName rows (world st)) as [[e|] w]; reflexivity.
Qed.

Lemma syncSLOs_batches existing svc slos : forall rows st rows' st',
  syncSLOs cfg existing svc slos rows st = (Ret rows', st') ->
  exists results flushed,
    Forall2 (produced existing) (map (pair svc) slos) results
    /\ accumulate bqBatchSize rows results = (flushed, rows')
    /\ puts (trace st') = puts (trace st) ++ flushed.
Proof.
  induction slos as [|slo rest IH]; intros rows st rows' st' H; simpl in H.
  - inversion H. subst. exists [], []. rewrite app_nil_r.
    split; [constructor | auto].
  - apply bind_inv_Ret in H as (res & st1 & Hnr & H).
    apply bind_inv_Ret in H as (n1 & st2 & Hn1 & H).
    apply lift_inv_Ret in Hn1 as [_ ->].
    apply bind_inv_Ret in H as (n2 & st3 & Hn2 & H).
    apply lift_inv_Ret in Hn2 as [_ ->].
    apply bind_inv_Ret in H as (rows1 & st4 & Hflush & H).
    destruct (IH _ _ _ _ H) as (results & flushed & Hprod & Hacc & Hputs).
    pose proof (quiet_puts _ st (newRecords_quiet svc slo existing)) as Hq.
    rewrite Hnr in Hq. simpl in Hq.
    exists (res :: results).
    destruct (batch_full bqBatchSize (rows ++ res)) eqn:Hfull.
    + apply bind_inv_Ret in Hflush as ([] & st5 & Hput & Hret).
      inversion Hret. subst rows1 st5.
      pose proof (put_trace (rows ++ res) st1) as Ht. rewrite Hput in Ht. simpl in Ht.
      exists ((rows ++ res) :: flushed). split; [|split].
      * constructor; [|exact Hprod]. exists st, st1. exact Hnr.
      * simpl. rewrite Hfull, Hacc. reflexivity.
      * rewrite Hputs, Ht, puts_app, Hq. simpl. rewrite <- app_assoc. reflexivity.
    + inversion Hflush. subst rows1 st4.
      exists flushed. split; [|split].
      * constructor; [|exact Hprod]. exists st, st1. exact Hnr.
      * simpl. rewrite Hfull. exact Hacc.
      * rewrite Hputs, Hq. reflexivity.
Qed.

Lemma syncServices_batches existing svcs : forall rows st rows' st',
  syncServices cfg existing svcs rows st = (Ret rows', st') ->
  exists sloss results flushed,
    Forall2 (listedFor env) svcs sloss
    /\ Forall2 (produced existing) (slosInOrder svcs sloss) results
    /\ accumulate bqBatchSize rows results = (flushed, rows')
    /\ puts (trace st') = puts (trace st) ++ flushed.
Proof.
  induction svcs as [|svc rest IH]; intros rows st rows' st' H; simpl in H.
  - inversion H. subst. exists [], [], []. rewrite app_nil_r.
    split; [constructor|]. split; [constructor | auto].
  - apply bind_inv_Ret in H as (slos & st1 & Hslos & H).
    apply bind_inv_Ret in H as (rows1 & st2 & Hinner & H).
    destruct (syncSLOs_batches _ _ _ _ _ _ _ Hinner)
      as (results1 & flushed1 & Hp1 & Hacc1 & Hputs1).
    destruct (IH _ _ _ _ H) as (sloss & results2 & flushed2 & Hl2 & Hp2 & Hacc2 & Hputs2).
    assert (Hq : puts (trace st1) = puts (trace st)).
    { pose proof (quiet_puts (call (SLOs env svc) (EvSLOs svc)) st) as Hq.
      rewrite Hslos in Hq. apply Hq. apply emits_call. reflexivity. }
    exists (slos :: sloss), (results1 ++ results2), (flushed1 ++ flushed2).
    split; [|split; [|split]].
    + constructor; [|exact Hl2].
      exists (world st), (world st1). exact (call_inv_Ret _ _ _ _ _ Hslos).
    + unfold slosInOrder. cbn [zip_with concat].
      apply Forall2_app; [exact Hp1 | exact Hp2].
    + rewrite accumulate_app, Hacc1, Hacc2. reflexivity.
    + rewrite Hputs2, Hputs1, Hq, app_assoc. reflexivity.
Qed.

(** The writes of a run that ends without error are those of the buffer
    discipline, applied to the lists of rows that the calls of [newRecords]
    returned, one for every SLO that was listed, in order. *)
Lemma syncAllServices_batches (st st' : State W) :
  syncAllServices cfg st = (Ret tt, st') ->
  exists existing results,
    gathers env backfillDays cfg produced st existing results
    /\ puts (trace st') = puts (trace st) ++ expectedPuts bqBatchSize results.
Proof.
  intros H. unfold Legacy.syncAllServices in H.
  apply bind_inv_Ret in H as (existing & st1 & Hread & H).
  apply bind_inv_Ret in H as (svcs & st2 & Hsvcs & H).
  apply bind_inv_Ret in H as (rows & st3 & Hloop & Hput).
  destruct (syncServices_batches _ _ _ _ _ _ Hloop)
    as (sloss & results & flushed & Hlisted & Hprod & Hacc & Hputs).
  exists existing, results. split.
  { exists st1, svcs, (world st2), sloss. split; [exact Hread|].
    split; [exact (call_inv_Ret _ _ _ _ _ Hsvcs)|]. split; [exact Hlisted | exact Hprod]. }
  pose proof (put_trace rows st3) as Ht. rewrite Hput in Ht. simpl in Ht.
  pose proof (quiet_puts _ st readBQMap_quiet) as Hq1.
  rewrite Hread in Hq1. simpl in Hq1.
  assert (Hq2 : puts (trace st2) = puts (trace st1)).
  { pose proof (quiet_puts (call (Services env) EvServices) st1) as Hq.
    rewrite Hsvcs in Hq. apply Hq. apply emits_call. reflexivity. }
  unfold expectedPuts. rewrite Hacc, Ht, puts_app, Hputs, Hq2, Hq1. simpl.
  rewrite <- app_assoc. reflexivity.
Qed.

End LegacySync.

(** *** The run of the package's end-to-end test *)

Lemma syncRun_test :
  fst (syncRun syncAnswers 2 1) = Ret tt
  /\ puts (trace (snd (syncRun syncAnswers 2 1)))
     = [[row_slo1_0509]; [row_slo2_0508]; []]
  /\ length (filter isQuery (trace (snd (syncRun syncAnswers 2 1)))) = 2%nat.
Proof. vm_compute. auto. Qed.

Lemma syncRun_oneSLO :
  fst (syncRun oneSLOAnswers 2 1) = Ret tt
  /\ puts (trace (snd (syncRun oneSLOAnswers 2 1)))
     = [[row_slo1_0509; row_slo1_0508]; []].
Proof. vm_compute. auto. Qed.

(** C8 (as the code has it).  On a run of [syncAllServices] that ends
    without error, the store writes are those of the buffer discipline
    applied to the row lists returned by [newRecords], one list for every
    SLO that the collaborators listed, in the order of the listings:
    each list is appended to the buffer as a whole and, if the buffer has
    then reached [bqBatchSize], the buffer is written and cleared; a final
    write of what is left always follows, even when that is nothing.  So
    every write but the last carries at least [bqBatchSize] rows (possibly
    more), the last carries fewer or none, and the writes together carry the
    produced rows once, in order.  With a batch size of 1 and two SLOs that
    contribute one new row each, the store is written once per row and once
    more with no rows, as in the package's test. *)
Theorem syncAllServices_batched_writes :
  (forall W (env : Env W) indefinite backfillDays bqBatchSize cfg (st st' : State W),
     Legacy.syncAllServices env indefinite backfillDays bqBatchSize cfg st
     = (Ret tt, st') ->
     exists existing results,
       gathers env backfillDays cfg (producedBy env indefinite backfillDays cfg)
         st existing results
       /\ puts (trace st') = puts (trace st) ++ expectedPuts bqBatchSize results)
  /\ (forall bqBatchSize results,
        exists flushed kept,
          expectedPuts bqBatchSize results = flushed ++ [kept]
          /\ Forall (fun batch => bqBatchSize <= Z.of_nat (length batch)) flushed
          /\ (Z.of_nat (length kept) < bqBatchSize \/ kept = [])
          /\ concat (expectedPuts bqBatchSize results) = concat results)
  /\ (forall row1 row2 : BQRow,
        expectedPuts 1 [[row1]; [row2]] = [[row1]; [row2]; []])
  /\ (fst (syncRun syncAnswers 2 1) = Ret tt
      /\ puts (trace (snd (syncRun syncAnswers 2 1)))
         = [[row_slo1_0509]; [row_slo2_0508]; []]).
Proof.
  split; [|split; [|split]].
  - intros W env indefinite backfillDays bqBatchSize cfg st st' H.
    exact (syncAllServices_batches env indefinite backfillDays bqBatchSize cfg st st' H).
  - intros B results. unfold expectedPuts.
    destruct (accumulate B [] results) as [flushed kept] eqn:E.
    exists flushed, kept. split; [reflexivity|].
    destruct (accumulate_sizes B results [] flushed kept E) as (Hf & Hk).
    split; [exact Hf|]. split.
    + destruct Hk as [Hk | [Hk | [_ Hk]]]; auto.
    + rewrite concat_app. simpl. rewrite app_nil_r.
      apply (accumulate_concat B results [] flushed kept E).
  - intros row1 row2. reflexivity.
  - destruct syncRun_test as (H1 & H2 & _). auto.
Qed.

Lemma syncAllServices_batched_writes_witness :
  exists existing results,
    gathers (Mock.env syncAnswers) 2 testConfig
      (producedBy (Mock.env syncAnswers) Mock.amd64 2 testConfig)
      Mock.start existing results
    /\ puts (trace (snd (syncRun syncAnswers 2 1)))
       = puts (trace Mock.start) ++ expectedPuts 1 results.
Proof.
  apply (proj1 syncAllServices_batched_writes unit (Mock.env syncAnswers) Mock.amd64
           2 1 testConfig Mock.start (snd (syncRun syncAnswers 2 1))).
  vm_compute. reflexivity.
Defined.

(** With a batch size of 1, two new rows that come from the same SLO are
    written by a single call, followed by the final empty write: two calls
    for two rows, not one call per row plus one. *)
Lemma syncAllServices_one_write_per_SLO_counterexample :
  fst (syncRun oneSLOAnswers 2 1) = Ret tt
  /\ concat (puts (trace (snd (syncRun oneSLOAnswers 2 1))))
     = [row_slo1_0509; row_slo1_0508]
  /\ puts (trace (snd (syncRun oneSLOAnswers 2 1)))
     = [[row_slo1_0509; row_slo1_0508]; []]
  /\ length (puts (trace (snd (syncRun oneSLOAnswers 2 1)))) <> 3%nat.
Proof. vm_compute. repeat split; auto; discriminate. Qed.

Lemma newRecords_test :
  let run := Legacy.newRecords (Mock.env syncAnswers) Mock.amd64 2 testConfig
               svc1 slo1 existingTest Mock.start in
  fst run = Ret [row_slo1_0509]
  /\ map (fun ev => match ev with
                    | EvListTimeSeries req => dateOfUnix Zones.London (reqStartTime req)
                    | _ => ""
                    end) (trace (snd run))
     = ["2015-05-09"].
Proof. vm_compute. auto. Qed.

Lemma newRecords_skips_recorded_days_witness :
  backfillsOpenDaysOnly (Mock.env syncAnswers) 2 Zones.London svc1 slo1 existingTest
    (Legacy.newRecords (Mock.env syncAnswers) Mock.amd64 2 testConfig
       svc1 slo1 existingTest)
  /\ backfillsOpenDaysOnly (Mock.env syncAnswers) 2 Zones.London svc1 slo1 existingTest
       (Ratio.newRecords (Mock.env syncAnswers) Mock.amd64 2 testConfig
          svc1 slo1 existingTest).
Proof.
  exact (newRecords_skips_recorded_days (Mock.env syncAnswers) Mock.amd64 2
           testConfig svc1 slo1 existingTest Zones.London eq_refl).
Defined.

(** ** Day boundaries *)

(** [TestDaysAgoMidnightTimestamp]: an ordinary day, the spring-forward and
    fall-back days of Europe/London and the spring-forward day of
    Australia/Lord_Howe. *)
Lemma daysAgoMidnightTimestamp_test_cases :
  dayLength (GoTime.Date 2015 5 1 15 0 0 0 GoTime.UTC) Zones.London 0 = 24 * 3600
  /\ dayLength (GoTime.Date 2015 3 29 15 0 0 0 GoTime.UTC) Zones.London 0 = 23 * 3600
  /\ dayLength (GoTime.Date 2015 10 25 15 0 0 0 GoTime.UTC) Zones.London 0 = 25 * 3600
  /\ dayLength (GoTime.Date 2015 10 4 1 0 0 0 GoTime.UTC) Zones.Lord_Howe 0
     = 23 * 3600 + 30 * 60.
Proof. vm_compute. auto. Qed.

(** ** The calendar *)

Lemma allFrom_spec ok n : forall d,
  allFrom ok n d = true -> forall i, d <= i < d + Z.of_nat n -> ok i = true.
Proof.
  induction n as [|n IH]; intros d H i Hi; [lia|].
  simpl in H. apply andb_true_iff in H as [H0 H1].
  destruct (Z.eq_dec i d) as [-> | Hne]; [exact H0|].
  apply (IH (d + 1) H1). lia.
Qed.

Lemma cycle_dates_ok : allFrom dateOk (Z.to_nat 146097) 0 = true.
Proof. vm_cast_no_check (eq_refl true). Qed.

Lemma isLeap_shift y q : GoTime.isLeap (y + 400 * q) = GoTime.isLeap y.
Proof.
  unfold GoTime.isLeap.
  replace (y + 400 * q) with (y + (100 * q) * 4) at 1 by lia.
  replace (y + 400 * q) with (y + (4 * q) * 100) at 1 by lia.
  replace (y + 400 * q) with (y + q * 400) by lia.
  rewrite !Z_mod_plus_full. reflexivity.
Qed.

Lemma daysSinceEpoch_shift y q :
  GoTime.daysSinceEpoch (y + 400 * q) = GoTime.daysSinceEpoch y + 146097 * q.
Proof.
  unfold GoTime.daysSinceEpoch, GoTime.daysPer400Years.
  replace (y + 400 * q - 1) with (y - 1 + q * 400) by lia.
  rewrite Z.div_add by lia.
  replace (y - 1 + q * 400 - 400 * ((y - 1) / 400 + q))
    with (y - 1 - 400 * ((y - 1) / 400)) by lia.
  lia.
Qed.

Lemma civilDay_shift y m d q :
  GoTime.civilDay (y + 400 * q) m d = GoTime.civilDay y m d + 146097 * q.
Proof.
  unfold GoTime.civilDay. rewrite daysSinceEpoch_shift, isLeap_shift. lia.
Qed.

Lemma civilDay_add y m d j :
  GoTime.civilDay y m (d + j) = GoTime.civilDay y m d + j.
Proof. unfold GoTime.civilDay. lia. Qed.

Lemma cycleDate_shift q d :
  GoTime.cycleDate (400 * q) d
  = let '(y, m, dd) := GoTime.cycleDate 0 d in (y + 400 * q, m, dd).
Proof.
  unfold GoTime.cycleDate. cbv zeta.
  repeat match goal with
         | |- context [400 * q + ?a + ?b + ?c + 1] =>
             replace (400 * q + a + b + c + 1) with (0 + a + b + c + 1 + 400 * q) by lia
         end.
  rewrite !isLeap_shift. unfold GoTime.monthDay.
  destruct (GoTime.isLeap _).
  - destruct (_ <? _); [destruct (_ <=? _); reflexivity|].
    destruct (_ =? _); [reflexivity|]. destruct (_ <=? _); reflexivity.
  - destruct (_ <=? _); reflexivity.
Qed.

(** The date of a day number is a calendar date, and [civilDay] takes it
    back to the day number. *)
Lemma civil_roundtrip days :
  let '(year, month, day) := GoTime.civil days in
  1 <= month <= 12 /\ 1 <= day <= 31 /\ GoTime.civilDay year month day = days.
Proof.
  unfold GoTime.civil, GoTime.daysPer400Years.
  set (q := days / 146097). set (r := days - 146097 * q).
  assert (Hr : 0 <= r < 146097).
  { subst r q. pose proof (Z.mod_pos_bound days 146097 ltac:(lia)) as H.
    rewrite Z.mod_eq in H by lia. lia. }
  rewrite cycleDate_shift.
  pose proof (allFrom_spec _ _ _ cycle_dates_ok r ltac:(lia)) as Hok.
  unfold dateOk in Hok.
  destruct (GoTime.cycleDate 0 r) as [[y m] d].
  repeat (apply andb_true_iff in Hok as [Hok ?]).
  repeat match goal with
         | H : (_ <=? _) = true |- _ => apply Z.leb_le in H
         | H : (_ =? _) = true |- _ => apply Z.eqb_eq in H
         end.
  rewrite civilDay_shift. subst r. lia.
Qed.

(** ** Local midnights *)

Lemma lookupTx_bounded txs : forall off start sec,
  Z.abs off <= 86400 ->
  Forall (fun t => Z.abs (GoTime.offset t) <= 86400) txs ->
  Z.abs (fst (fst (GoTime.lookupTx txs off start sec))) <= 86400.
Proof.
  induction txs as [|t rest IH]; intros off start sec Hoff Hall; simpl.
  - exact Hoff.
  - inversion Hall; subst. destruct (sec <? GoTime.when t); [exact Hoff|].
    apply IH; assumption.
Qed.

Lemma offsetAt_bounded l u : boundedZone l -> Z.abs (GoTime.offsetAt l u) <= 86400.
Proof. intros [H0 Hall]. apply lookupTx_bounded; assumption. Qed.

Lemma resolveOffset_bounded l c : boundedZone l -> Z.abs (GoTime.resolveOffset l c) <= 86400.
Proof.
  intros Hb. unfold GoTime.resolveOffset.
  pose proof (offsetAt_bounded l c Hb) as H. unfold GoTime.offsetAt in H.
  destruct (GoTime.lookup l c) as [[off start] end_]. simpl in H.
  destruct (off =? 0); [lia|].
  destruct (_ <? _); [apply offsetAt_bounded; exact Hb|].
  destruct (_ <=? _); [apply offsetAt_bounded; exact Hb | exact H].
Qed.

Lemma Unix_sane now : saneClock now -> GoTime.Unix now = GoTime.isec now + GoTime.internalToUnix.
Proof.
  intros [H _]. unfold GoTime.Unix. apply int64_wrap_id, in_range_small. lia.
Qed.

Lemma Date_normal year month day hour min sec nsec l :
  1 <= month <= 12 -> 0 <= hour < 24 -> 0 <= min < 60 -> 0 <= sec < 60 ->
  0 <= nsec < 1000000000 ->
  GoTime.Date year month day hour min sec nsec l
  = let c := reading year month day hour min sec in
    GoTime.unixTime (c - GoTime.resolveOffset l c) nsec l.
Proof.
  intros Hm Hh Hmi Hs Hn. unfold GoTime.Date, GoTime.norm, reading.
  rewrite (Z.div_small (month - 1) 12), (Z.mod_small (month - 1) 12) by lia.
  rewrite (Z.div_small nsec), (Z.mod_small nsec) by lia.
  rewrite !Z.add_0_r.
  rewrite (Z.div_small sec 60), (Z.mod_small sec 60) by lia. rewrite !Z.add_0_r.
  rewrite (Z.div_small min 60), (Z.mod_small min 60) by lia. rewrite !Z.add_0_r.
  rewrite (Z.div_small hour 24), (Z.mod_small hour 24) by lia. rewrite !Z.add_0_r.
  replace (month - 1 + 1) with month by lia.
  cbv zeta. unfold GoTime.secondsPerDay.
  replace (GoTime.civilDay year month day * 86400 + hour * 3600 + min * 60 + sec
           - GoTime.unixEpochDay * 86400)
    with ((GoTime.civilDay year month day - GoTime.unixEpochDay) * 86400
          + hour * 3600 + min * 60 + sec) by lia.
  reflexivity.
Qed.

Lemma abs_local t :
  GoTime.abs t = (localDay (GoTime.loc t) (GoTime.Unix t) + GoTime.unixEpochDay) * 86400
                 + localSecondOfDay (GoTime.loc t) (GoTime.Unix t).
Proof.
  unfold GoTime.abs, localDay, localSecondOfDay, localSeconds, GoTime.secondsPerDay.
  set (x := GoTime.Unix t + GoTime.offsetAt (GoTime.loc t) (GoTime.Unix t)).
  pose proof (Z.div_mod x 86400 ltac:(lia)). lia.
Qed.

Lemma DateOf_local t :
  GoTime.DateOf t
  = GoTime.civil (localDay (GoTime.loc t) (GoTime.Unix t) + GoTime.unixEpochDay).
Proof.
  unfold GoTime.DateOf. rewrite abs_local. unfold GoTime.secondsPerDay.
  f_equal.
  pose proof (Z.mod_pos_bound (localSeconds (GoTime.loc t) (GoTime.Unix t)) 86400 ltac:(lia)).
  symmetry. apply (Z.div_unique _ 86400 _ (localSecondOfDay (GoTime.loc t) (GoTime.Unix t)));
    unfold localSecondOfDay; lia.
Qed.

Lemma Clock_local t :
  GoTime.Clock t
  = let s := localSecondOfDay (GoTime.loc t) (GoTime.Unix t) in
    (s / 3600, (s mod 3600) / 60, s mod 60).
Proof.
  unfold GoTime.Clock. rewrite abs_local. unfold GoTime.secondsPerDay.
  cbv zeta.
  assert (E : ((localDay (GoTime.loc t) (GoTime.Unix t) + GoTime.unixEpochDay) * 86400
               + localSecondOfDay (GoTime.loc t) (GoTime.Unix t)) mod 86400
              = localSecondOfDay (GoTime.loc t) (GoTime.Unix t)).
  { rewrite Z.add_comm, Z_mod_plus_full. unfold localSecondOfDay.
    apply Z.mod_mod. lia. }
  rewrite E. reflexivity.
Qed.

Lemma clock_parts s :
  0 <= s < 86400 ->
  0 <= s / 3600 < 24 /\ 0 <= (s mod 3600) / 60 < 60 /\ 0 <= s mod 60 < 60
  /\ s / 3600 * 3600 + (s mod 3600) / 60 * 60 + s mod 60 = s.
Proof.
  intros Hs.
  pose proof (Z.div_mod s 3600 ltac:(lia)).
  pose proof (Z.mod_pos_bound s 3600 ltac:(lia)).
  pose proof (Z.div_mod (s mod 3600) 60 ltac:(lia)).
  pose proof (Z.mod_pos_bound (s mod 3600) 60 ltac:(lia)).
  assert (E : s mod 60 = (s mod 3600) mod 60).
  { rewrite (Z.mod_eq s 3600) by lia.
    replace (s - 3600 * (s / 3600)) with (s + (- 60 * (s / 3600)) * 60) by lia.
    rewrite Z_mod_plus_full. reflexivity. }
  rewrite E.
  assert (0 <= s / 3600 < 24).
  { split; [apply Z.div_pos; lia | apply Z.div_lt_upper_bound; lia]. }
  assert (0 <= (s mod 3600) / 60 < 60).
  { split; [apply Z.div_pos; lia | apply Z.div_lt_upper_bound; lia]. }
  pose proof (Z.mod_pos_bound (s mod 3600) 60 ltac:(lia)).
  lia.
Qed.

Lemma localDay_bounds l u :
  localDay l u * 86400 <= localSeconds l u < localDay l u * 86400 + 86400
  /\ 0 <= localSecondOfDay l u < 86400
  /\ localSeconds l u = localDay l u * 86400 + localSecondOfDay l u.
Proof.
  unfold localDay, localSecondOfDay.
  pose proof (Z.div_mod (localSeconds l u) 86400 ltac:(lia)).
  pose proof (Z.mod_pos_bound (localSeconds l u) 86400 ltac:(lia)). lia.
Qed.

Lemma Unix_unixTime_small c n l :
  Z.abs c <= 2 ^ 42 ->
  GoTime.Unix (GoTime.unixTime c n l) = c
  /\ GoTime.isec (GoTime.unixTime c n l) = c + GoTime.unixToInternal.
Proof.
  intros H. rewrite Unix_unixTime. unfold GoTime.unixTime. simpl.
  rewrite !int64_wrap_id; [auto | |]; apply in_range_small;
    unfold GoTime.unixToInternal; lia.
Qed.

(** Where the wall-clock readings involved are not skipped by a transition,
    [daysAgoMidnightTimestamp] returns the instant at which the clocks of
    [l] show midnight of the day [daysAgo] days before the local date of
    [now]. *)
Lemma daysAgoMidnightTimestamp_local_midnight now l daysAgo day :
  saneClock now -> boundedZone l -> Z.abs daysAgo <= 2 ^ 20 ->
  day = localDay l (GoTime.Unix now) - daysAgo ->
  shownBy l (day * 86400 + localSecondOfDay l (GoTime.Unix now)) ->
  shownBy l (day * 86400) ->
  GoTime.Unix (daysAgoMidnightTimestamp now l daysAgo)
  = day * 86400 - GoTime.resolveOffset l (day * 86400)
  /\ localSeconds l (GoTime.Unix (daysAgoMidnightTimestamp now l daysAgo)) = day * 86400
  /\ GoTime.isec (daysAgoMidnightTimestamp now l daysAgo)
     = GoTime.Unix (daysAgoMidnightTimestamp now l daysAgo) + GoTime.unixToInternal.
Proof.
  intros Hsane Hzone Hk Eday0 Hclock Hmid.
  pose proof (Unix_sane now Hsane) as HU. destruct Hsane as [Hu Hns].
  rewrite <- HU in Hu.
  set (u := GoTime.Unix now) in *.
  pose proof (localDay_bounds l u) as (Hd1 & Hs & Hd2).
  pose proof (offsetAt_bounded l u Hzone) as Hoff.
  unfold localSeconds in Hd1, Hd2.
  assert (Hday : Z.abs (day * 86400) <= 2 ^ 41) by lia.
  unfold daysAgoMidnightTimestamp, GoTime.AddDate.
  (* the date and the time of day of [now] in [l] *)
  assert (EU : GoTime.Unix (GoTime.In now l) = u) by reflexivity.
  rewrite (DateOf_local (GoTime.In now l)), (Clock_local (GoTime.In now l)).
  cbn [GoTime.loc GoTime.In GoTime.nsec]. rewrite EU.
  pose proof (civil_roundtrip (localDay l u + GoTime.unixEpochDay)) as Hrt.
  destruct (GoTime.civil (localDay l u + GoTime.unixEpochDay)) as [[y m] d].
  destruct Hrt as (Hm & _ & Hcd).
  cbv zeta.
  destruct (clock_parts _ Hs) as (Hh & Hmi & Hse & Hsum).
  (* the same time of day, [daysAgo] days earlier *)
  rewrite Date_normal by lia. cbv zeta.
  assert (Ec : reading (y + 0) (m + 0) (d + - daysAgo)
                 (localSecondOfDay l u / 3600)
                 ((localSecondOfDay l u) mod 3600 / 60)
                 (localSecondOfDay l u mod 60)
               = day * 86400 + localSecondOfDay l u).
  { unfold reading. rewrite !Z.add_0_r, civilDay_add, Hcd. lia. }
  rewrite Ec.
  pose proof (resolveOffset_bounded l (day * 86400 + localSecondOfDay l u) Hzone) as Hr1.
  set (c1 := day * 86400 + localSecondOfDay l u) in *.
  set (r1 := GoTime.resolveOffset l c1) in *.
  rewrite DateOf_local.
  replace (GoTime.loc (GoTime.unixTime (c1 - r1) (GoTime.nsec now) l)) with l
    by reflexivity.
  destruct (Unix_unixTime_small (c1 - r1) (GoTime.nsec now) l ltac:(lia)) as [EU1 _].
  rewrite EU1.
  assert (Eday : localDay l (c1 - r1) = day).
  { unfold localDay. unfold shownBy in Hclock. fold r1 in Hclock. rewrite Hclock.
    subst c1. symmetry.
    apply (Z.div_unique _ 86400 day (localSecondOfDay l u)); lia. }
  rewrite Eday.
  (* midnight of that date *)
  pose proof (civil_roundtrip (day + GoTime.unixEpochDay)) as Hrt.
  destruct (GoTime.civil (day + GoTime.unixEpochDay)) as [[y' m'] d'].
  destruct Hrt as (Hm' & _ & Hcd').
  rewrite Date_normal by lia. cbv zeta.
  assert (Ec2 : reading y' m' d' 0 0 0 = day * 86400).
  { unfold reading. rewrite Hcd'. lia. }
  rewrite Ec2.
  pose proof (resolveOffset_bounded l (day * 86400) Hzone) as Hr2.
  destruct (Unix_unixTime_small (day * 86400 - GoTime.resolveOffset l (day * 86400)) 0 l
              ltac:(lia)) as [EU2 EI2].
  rewrite EU2, EI2. split; [reflexivity|]. split; [exact Hmid | reflexivity].
Qed.

Lemma midnights_apart (t0 t1 : GoTime.Time) l day :
  localSeconds l (GoTime.Unix t0) = day * 86400 ->
  localSeconds l (GoTime.Unix t1) = (day + 1) * 86400 ->
  GoTime.isec t0 = GoTime.Unix t0 + GoTime.unixToInternal ->
  GoTime.isec t1 = GoTime.Unix t1 + GoTime.unixToInternal ->
  GoTime.SubSeconds t1 t0
  = 86400 - (GoTime.offsetAt l (GoTime.Unix t1) - GoTime.offsetAt l (GoTime.Unix t0)).
Proof.
  intros Hs He Hi Hie.
  unfold GoTime.SubSeconds. rewrite Hi, Hie. unfold localSeconds in Hs, He. lia.
Qed.

Lemma dayLength_unfold now l daysAgo :
  dayLength now l daysAgo
  = GoTime.SubSeconds (daysAgoMidnightTimestamp now l (daysAgo - 1))
                      (daysAgoMidnightTimestamp now l daysAgo).
Proof. reflexivity. Qed.

(** Between two consecutive such midnights there are 24 hours less what the
    zone's offset from UTC has grown in between: 24 hours when it has not
    changed, 23 when the clocks went one hour forward, 25 when they went one
    hour back, 23 and a half when they went half an hour forward. *)
Lemma dayLength_regular now l daysAgo day second :
  saneClock now -> boundedZone l -> Z.abs daysAgo <= 2 ^ 20 - 1 ->
  day = localDay l (GoTime.Unix now) - daysAgo ->
  second = localSecondOfDay l (GoTime.Unix now) ->
  shownBy l (day * 86400 + second) -> shownBy l (day * 86400) ->
  shownBy l ((day + 1) * 86400 + second) -> shownBy l ((day + 1) * 86400) ->
  localSeconds l (GoTime.Unix (daysAgoMidnightTimestamp now l daysAgo)) = day * 86400
  /\ localSeconds l (GoTime.Unix (daysAgoMidnightTimestamp now l (daysAgo - 1)))
     = (day + 1) * 86400
  /\ dayLength now l daysAgo
     = 86400 - (GoTime.offsetAt l (GoTime.Unix (daysAgoMidnightTimestamp now l (daysAgo - 1)))
                - GoTime.offsetAt l (GoTime.Unix (daysAgoMidnightTimestamp now l daysAgo))).
Proof.
  intros Hsane Hzone Hk Eday Esec Hc0 Hm0 Hc1 Hm1. subst second.
  assert (Hk0 : Z.abs daysAgo <= 2 ^ 20) by lia.
  assert (Hk1 : Z.abs (daysAgo - 1) <= 2 ^ 20) by lia.
  assert (Eday1 : day + 1 = localDay l (GoTime.Unix now) - (daysAgo - 1)) by lia.
  pose proof (daysAgoMidnightTimestamp_local_midnight now l daysAgo day
                Hsane Hzone Hk0 Eday Hc0 Hm0) as (_ & Hs & Hi).
  pose proof (daysAgoMidnightTimestamp_local_midnight now l (daysAgo - 1) (day + 1)
                Hsane Hzone Hk1 Eday1 Hc1 Hm1) as (_ & He & Hie).
  split; [exact Hs|]. split; [exact He|].
  rewrite dayLength_unfold.
  exact (midnights_apart _ _ l day Hs He Hi Hie).
Qed.

(** The hypotheses hold on the spring-forward day of Europe/London. *)
Lemma dayLength_regular_London :
  dayLength (GoTime.Date 2015 3 29 15 0 0 0 GoTime.UTC) Zones.London 0
  = 86400 - (3600 - 0).
Proof.
  assert (Hsane : saneClock (GoTime.Date 2015 3 29 15 0 0 0 GoTime.UTC)).
  { split; [vm_compute; discriminate|]. split; [vm_compute; discriminate|].
    vm_compute. reflexivity. }
  assert (Hzone : boundedZone Zones.London).
  { split; [vm_compute; discriminate|].
    repeat constructor; vm_compute; discriminate. }
  pose proof (dayLength_regular (GoTime.Date 2015 3 29 15 0 0 0 GoTime.UTC)
                Zones.London 0 _ _ Hsane Hzone ltac:(vm_compute; discriminate)
                eq_refl eq_refl) as H.
  destruct H as (_ & _ & H).
  - vm_compute. reflexivity.
  - vm_compute. reflexivity.
  - vm_compute. reflexivity.
  - vm_compute. reflexivity.
  - rewrite H. vm_compute. reflexivity.
Qed.

Lemma Sao_Paulo_transitions :
  Zones.Sao_Paulo
  = GoTime.mkLocation (-10800)
      [ GoTime.mkTrans 1413687600 (-7200);
        GoTime.mkTrans 1424570400 (-10800);
        GoTime.mkTrans 1445137200 (-7200);
        GoTime.mkTrans 1456020000 (-10800) ].
Proof. vm_compute. reflexivity. Qed.

Lemma Sao_Paulo_summer_2015 u :
  1445137200 <= u < 1456020000 -> GoTime.offsetAt Zones.Sao_Paulo u = -7200.
Proof.
  intros H. rewrite Sao_Paulo_transitions.
  unfold GoTime.offsetAt, GoTime.lookup. cbn [GoTime.tx GoTime.zoneFirst GoTime.lookupTx
    GoTime.when GoTime.offset].
  repeat match goal with
         | |- context [?a <? ?b] => destruct (Z.ltb_spec a b); try lia
         end.
  reflexivity.
Qed.

(** In America/Sao_Paulo the calendar day 2015-10-18 begins at 03:00 UTC,
    when the clock jumps from 00:00 to 01:00, and lasts 23 hours. *)
Lemma Sao_Paulo_2015_10_18 :
  dayOfUnix Zones.Sao_Paulo (1445137200 - 1) = (2015, 10, 17)
  /\ (forall u, 1445137200 <= u < 1445137200 + 23 * 3600 ->
        dayOfUnix Zones.Sao_Paulo u = (2015, 10, 18))
  /\ dayOfUnix Zones.Sao_Paulo (1445137200 + 23 * 3600) = (2015, 10, 19).
Proof.
  split; [vm_compute; reflexivity|]. split; [|vm_compute; reflexivity].
  intros u Hu. unfold dayOfUnix, GoTime.DateOf, GoTime.abs.
  rewrite Unix_unixTime, int64_wrap_id by (apply in_range_small; lia).
  cbn [GoTime.loc GoTime.unixTime].
  rewrite Sao_Paulo_summer_2015 by lia.
  replace ((u + -7200 + GoTime.unixEpochDay * GoTime.secondsPerDay)
           / GoTime.secondsPerDay) with 735888.
  - vm_compute. reflexivity.
  - unfold GoTime.unixEpochDay, GoTime.secondsPerDay.
    apply (Z.div_unique _ 86400 735888 (u + -7200 + 719162 * 86400 - 86400 * 735888));
      lia.
Qed.

(** C3 (where the code departs from it).  In America/Sao_Paulo, with the
    clock at 2015-10-19 15:00 UTC and [daysAgo = 1], the day at hand is
    2015-10-18, the spring-forward day, which lasts 23 hours; its local
    midnight does not exist and [time.Date] resolves it to 23:00 of the day
    before.  The two boundaries are therefore 24 hours apart, the first is
    not on the day it stands for, and its date string is that of the day
    before, which the boundary for [daysAgo = 2] also gets.  (Where no
    reading involved is skipped, the boundaries are the local midnights:
    [dayLength_regular].) *)
Theorem daysAgoMidnightTimestamp_skipped_midnight :
  let now := GoTime.Date 2015 10 19 15 0 0 0 GoTime.UTC in
  let start := daysAgoMidnightTimestamp now Zones.Sao_Paulo 1 in
  let end_ := daysAgoMidnightTimestamp now Zones.Sao_Paulo 0 in
  dayLength now Zones.Sao_Paulo 1 = 24 * 3600
  /\ GoTime.Unix start = 1445137200 - 3600
  /\ GoTime.Unix end_ = 1445137200 + 23 * 3600
  /\ dayOfUnix Zones.Sao_Paulo (GoTime.Unix start) = (2015, 10, 17)
  /\ GoTime.FormatDate start = "2015-10-17"
  /\ GoTime.FormatDate (daysAgoMidnightTimestamp now Zones.Sao_Paulo 2) = "2015-10-17"
  /\ (forall u, 1445137200 <= u < 1445137200 + 23 * 3600 ->
        dayOfUnix Zones.Sao_Paulo u = (2015, 10, 18))
  /\ dayOfUnix Zones.Sao_Paulo (1445137200 - 1) = (2015, 10, 17)
  /\ dayOfUnix Zones.Sao_Paulo (1445137200 + 23 * 3600) = (2015, 10, 19)
  /\ ~ shownBy Zones.Sao_Paulo (reading 2015 10 18 0 0 0).
Proof.
  intros now start end_. subst now start end_.
  destruct Sao_Paulo_2015_10_18 as (Hbefore & Hday & Hafter).
  split; [vm_compute; reflexivity|].
  split; [vm_compute; reflexivity|].
  split; [vm_compute; reflexivity|].
  split; [vm_compute; reflexivity|].
  split; [vm_compute; reflexivity|].
  split; [vm_compute; reflexivity|].
  split; [exact Hday|].
  split; [exact Hbefore|]. split; [exact Hafter|].
  vm_compute. discriminate.
Qed.

(* ===================================================================== *)
(** * Further properties of the code *)
(* ===================================================================== *)

(** ** The stored form of a lease *)

Lemma digits_of_uint_acc d : forall acc : positive,
  Strconv.digits (NilEmpty.string_of_uint d) (Z.pos acc)
  = Some (Z.pos (Pos.of_uint_acc d acc)).
Proof.
  induction d; intros acc; cbn [NilEmpty.string_of_uint Strconv.digits Pos.of_uint_acc];
    try reflexivity;
    match goal with
    | |- context [Strconv.digit ?c] =>
        let v := eval vm_compute in (Strconv.digit c) in
        change (Strconv.digit c) with v; cbv iota
    end;
    match goal with
    | |- Strconv.digits _ ?a = Some (Z.pos (Pos.of_uint_acc _ ?b)) =>
        replace a with (Z.pos b) by lia; apply IHd
    end.
Qed.

Lemma digits_of_uint d :
  Strconv.digits (NilEmpty.string_of_uint d) 0 = Some (Z.of_N (Pos.of_uint d)).
Proof.
  induction d; cbn [NilEmpty.string_of_uint Strconv.digits Pos.of_uint];
    try reflexivity;
    match goal with
    | |- context [Strconv.digit ?c] =>
        let v := eval vm_compute in (Strconv.digit c) in
        change (Strconv.digit c) with v; cbv iota
    end;
    [ exact IHd | .. ];
    match goal with
    | |- Strconv.digits _ ?a = Some (Z.of_N (N.pos (Pos.of_uint_acc _ ?b))) =>
        change a with (Z.pos b); apply digits_of_uint_acc
    end.
Qed.

Lemma string_of_uint_head d :
  d <> Decimal.Nil ->
  exists c rest,
    NilZero.string_of_uint d = String c rest
    /\ NilEmpty.string_of_uint d = String c rest
    /\ Ascii.eqb c "+" = false /\ Ascii.eqb c "-" = false.
Proof.
  destruct d; intros H; [congruence|..]; eexists _, _; repeat split; reflexivity.
Qed.

Lemma ParseUint_to_uint p :
  Z.pos p < 2 ^ 64 ->
  Strconv.ParseUint (NilZero.string_of_uint (Pos.to_uint p)) = Some (Z.pos p).
Proof.
  intros Hlt.
  destruct (string_of_uint_head (Pos.to_uint p) (Unsigned.to_uint_nonnil p))
    as (c & rest & H0 & HE & _).
  unfold Strconv.ParseUint. rewrite H0, <- HE, digits_of_uint.
  rewrite DecimalPos.Unsigned.of_to. cbn [Z.of_N].
  apply Z.ltb_lt in Hlt. rewrite Hlt. reflexivity.
Qed.

Lemma ParseInt_FormatInt i :
  Int64.in_range i -> Strconv.ParseInt (Strconv.FormatInt i) = Some i.
Proof.
  unfold Int64.in_range, Int64.min_int, Int64.max_int. intros Hr.
  destruct i as [|p|p]; [reflexivity|..];
    unfold Strconv.FormatInt, Z.to_int, NilZero.string_of_int.
  - destruct (string_of_uint_head (Pos.to_uint p) (Unsigned.to_uint_nonnil p))
      as (c & rest & H0 & _ & Hplus & Hminus).
    unfold Strconv.ParseInt. rewrite H0, Hplus, Hminus, <- H0.
    rewrite ParseUint_to_uint by lia.
    destruct (2 ^ 63 <=? Z.pos p) eqn:E; [apply Z.leb_le in E; lia|].
    reflexivity.
  - unfold Strconv.ParseInt.
    change (Ascii.eqb "-" "+") with false. change (Ascii.eqb "-" "-") with true.
    cbv iota. rewrite ParseUint_to_uint by lia.
    destruct (2 ^ 63 <? Z.pos p) eqn:E; [apply Z.ltb_lt in E; lia|].
    reflexivity.
Qed.

Lemma FormatInt_nonempty i : Strconv.FormatInt i <> "".
Proof.
  destruct i as [|p|p]; [discriminate| |discriminate].
  unfold Strconv.FormatInt, Z.to_int, NilZero.string_of_int.
  destruct (string_of_uint_head (Pos.to_uint p) (Unsigned.to_uint_nonnil p))
    as (c & rest & H0 & _). rewrite H0. discriminate.
Qed.

Lemma Unix_in_range t : Int64.in_range (GoTime.Unix t).
Proof. apply int64_wrap_in_range. Qed.

(** X4.  The label value of a lease is read back as it was written:
    [strconv.ParseInt] of [strconv.FormatInt(i, 10)] is [i] for every
    [int64] [i], so the expiration that [newBqLease] stores is the timestamp
    that the next [newBqLease] parses; and the stored value is never empty,
    so it is never taken for the absence of a lease. *)
Theorem lease_label_roundtrip (i : Z) (expiration : GoTime.Time) :
  (Int64.in_range i -> Strconv.ParseInt (Strconv.FormatInt i) = Some i)
  /\ Strconv.ParseInt (leaseValue expiration) = Some (GoTime.Unix expiration)
  /\ leaseValue expiration <> "".
Proof.
  split; [apply ParseInt_FormatInt|]. split.
  - apply ParseInt_FormatInt, Unix_in_range.
  - apply FormatInt_nonempty.
Qed.

Lemma lease_label_roundtrip_witness :
  Strconv.ParseInt (Strconv.FormatInt (-9223372036854775808)) = Some (-9223372036854775808)
  /\ Strconv.ParseInt (leaseValue (GoTime.FromUnix 1337 0)) = Some 1337.
Proof.
  destruct (lease_label_roundtrip (-9223372036854775808) (GoTime.FromUnix 1337 0))
    as (H1 & H2 & _).
  split; [apply H1; vm_compute; split; discriminate | exact H2].
Defined.

Section LeaseRuns.

Context {W : Type}.
Variable env : Env W.

(** How a run of [newBqLease] can go: either the label was read and one
    write was made under the etag that was read, and the outcome is that of
    the write; or the run ended without a lease after the read alone. *)
Lemma newBqLease_cases (dataset : string) (expiration : GoTime.Time) (st : State W) :
  let run := newBqLease env dataset expiration st in
  (exists exp etag w1 w2 r w3,
     ReadDatasetMetadataLabel env dataset bqLeaseLabelName (world st) = (Ret (exp, etag), w1)
     /\ WriteDatasetMetadataLabel env dataset bqLeaseLabelName
          (leaseValue expiration) etag w2 = (r, w3)
     /\ run = (match r with
               | Some e => Fail (ErrLeaseUpdate e)
               | None => Ret (mkLease dataset)
               end,
               mkState w3 (trace st ++ [leaseRead dataset;
                                        leaseWrite dataset (leaseValue expiration) etag])))
  \/ (trace (snd run) = trace st ++ [leaseRead dataset] /\ is_Ret (fst run) = false).
Proof.
  cbv zeta. unfold newBqLease, bind, call, call_err, clock, fail, ret.
  destruct (ReadDatasetMetadataLabel env dataset bqLeaseLabelName (world st))
    as [[[exp etag] | e | p] w1] eqn:Hread; cbn [world trace fst snd];
    [|right; split; reflexivity..].
  destruct (Strings.nonempty exp);
    [destruct (Strconv.ParseInt exp) as [ts|];
       [cbn [world trace]; destruct (time_Now env w1) as [now w2];
        destruct (GoTime.After _ now)|]|];
    cbn [world trace fst snd];
    try (right; split; reflexivity);
    left;
    match goal with
    | |- context [WriteDatasetMetadataLabel ?e ?d ?l ?v ?t ?w] =>
        destruct (WriteDatasetMetadataLabel e d l v t w) as [r w3] eqn:Hw;
        exists exp, etag, w1, w, r, w3
    end;
    (split; [reflexivity|]); (split; [exact Hw|]);
    cbn [world trace fst snd]; rewrite <- app_assoc; destruct r; reflexivity.
Qed.

(** X5.  For any collaborators, a run of [newBqLease] makes one read of the
    lease label and then at most one write: either it writes once, the new
    expiration in decimal under the etag that it has read, and returns the
    lease or the wrapped error of that write; or it ends without a lease
    after the read alone. *)
Theorem newBqLease_one_read_at_most_one_write
    (dataset : string) (expiration : GoTime.Time) (st : State W) :
  let run := newBqLease env dataset expiration st in
  (exists exp etag w,
     ReadDatasetMetadataLabel env dataset bqLeaseLabelName (world st) = (Ret (exp, etag), w)
     /\ trace (snd run)
        = trace st ++ [leaseRead dataset; leaseWrite dataset (leaseValue expiration) etag]
     /\ (fst run = Ret (mkLease dataset) \/ exists e, fst run = Fail (ErrLeaseUpdate e)))
  \/ (trace (snd run) = trace st ++ [leaseRead dataset] /\ is_Ret (fst run) = false).
Proof.
  cbv zeta.
  destruct (newBqLease_cases dataset expiration st)
    as [(exp & etag & w1 & w2 & r & w3 & Hread & _ & Hrun) | H]; [left | right; exact H].
  exists exp, etag, w1. split; [exact Hread|]. rewrite Hrun. split; [reflexivity|].
  destruct r as [e|]; simpl; eauto.
Qed.

(** X7.  [Close] on the lease that [newBqLease] returned for [dataset] makes
    one call: it writes the empty value with the empty etag, hence
    unconditionally, to the lease label of that same dataset, and it returns
    what that write returns. *)
Theorem bqLease_Close_releases_the_lease
    (dataset : string) (expiration : GoTime.Time) (st st1 : State W) (l : bqLease) :
  newBqLease env dataset expiration st = (Ret l, st1) ->
  exists r w,
    WriteDatasetMetadataLabel env dataset bqLeaseLabelName "" "" (world st1) = (r, w)
    /\ bqLease_Close env l st1
       = (Ret r, mkState w (trace st1 ++ [leaseWrite dataset "" ""])).
Proof.
  intros H.
  assert (Hl : l = mkLease dataset).
  { destruct (newBqLease_cases dataset expiration st)
      as [(exp & etag & w1 & w2 & r & w3 & _ & _ & Hrun) | [_ Hf]].
    - rewrite H in Hrun. destruct r; inversion Hrun. reflexivity.
    - rewrite H in Hf. discriminate. }
  subst l. unfold bqLease_Close, call_err. simpl.
  destruct (WriteDatasetMetadataLabel env dataset bqLeaseLabelName "" "" (world st1))
    as [r w]. exists r, w. split; reflexivity.
Qed.

(** X6.  A lease stored by [newBqLease] for the expiration [held] is
    respected by the next [newBqLease] while the clock is before [held] (and
    [time.Unix] can hold it): the call fails with the error that the
    existing lease is still valid, after the read alone.  Once the clock has
    reached [held], the call goes on to the write. *)
Theorem newBqLease_respects_unexpired_lease
    (dataset : string) (held expiration : GoTime.Time) (st : State W)
    (etag : string) (w1 w2 : W) (now : GoTime.Time) :
  ReadDatasetMetadataLabel env dataset bqLeaseLabelName (world st)
  = (Ret (leaseValue held, etag), w1) ->
  time_Now env w1 = (now, w2) ->
  plainClock now ->
  (GoTime.Unix now < GoTime.Unix held ->
   GoTime.Unix held + GoTime.unixToInternal <= Int64.max_int ->
   newBqLease env dataset expiration st
   = (Fail (ErrLeaseStillValid (GoTime.Unix held)),
      mkState w2 (trace st ++ [leaseRead dataset])))
  /\ (GoTime.Unix held <= GoTime.Unix now ->
      forall r w3,
        WriteDatasetMetadataLabel env dataset bqLeaseLabelName
          (leaseValue expiration) etag w2 = (r, w3) ->
        newBqLease env dataset expiration st
        = (match r with
           | Some e => Fail (ErrLeaseUpdate e)
           | None => Ret (mkLease dataset)
           end,
           mkState w3 (trace st ++ [leaseRead dataset;
                                    leaseWrite dataset (leaseValue expiration) etag]))).
Proof.
  intros Hread Hnow Hclock.
  destruct (newBqLease_protocol env dataset expiration st _ etag w1 Hread)
    as (_ & Hvalid & _ & Hexpired).
  pose proof (ParseInt_FormatInt (GoTime.Unix held) (Unix_in_range held)) as Hparse.
  split.
  - intros Hlt Hmax.
    exact (Hvalid _ now w2 (FormatInt_nonempty _) Hparse Hnow Hclock Hmax Hlt).
  - intros Hle r w3 Hw.
    rewrite (Hexpired _ now w2 r w3 (FormatInt_nonempty _) Hparse Hnow Hclock Hle Hw).
    destruct r; reflexivity.
Qed.

End LeaseRuns.

Lemma bqLease_Close_releases_the_lease_witness :
  exists r w,
    WriteDatasetMetadataLabel (Mock.env testAnswers) "dsname" bqLeaseLabelName "" ""
      (world (snd (acquire ""))) = (r, w)
    /\ bqLease_Close (Mock.env testAnswers) (mkLease "dsname") (snd (acquire ""))
       = (Ret r, mkState w (trace (snd (acquire "")) ++ [leaseWrite "dsname" "" ""])).
Proof.
  apply (bqLease_Close_releases_the_lease (Mock.env testAnswers) "dsname"
           (GoTime.FromUnix 1337 0) Mock.start).
  vm_compute. reflexivity.
Defined.

Lemma newBqLease_respects_unexpired_lease_witness :
  acquire "1431270060"
  = (Fail (ErrLeaseStillValid 1431270060), mkState tt [leaseRead "dsname"]).
Proof.
  refine (proj1 (newBqLease_respects_unexpired_lease
            (Mock.env (withLabel testAnswers (Ret ("1431270060", "etag1"))))
            "dsname" (GoTime.FromUnix 1431270060 0) (GoTime.FromUnix 1337 0)
            Mock.start "etag1" tt tt (Mock.mockNow testAnswers) _ _ _) _ _).
  - vm_compute. reflexivity.
  - reflexivity.
  - vm_compute. repeat split; discriminate.
  - vm_compute. reflexivity.
  - vm_compute. discriminate.
Defined.

(** ** Rows as they are saved *)

(** X10.  [Save] returns the six fields of the row under the six column
    names, no insert ID and no error; rows that are saved alike are equal,
    so no field is lost or overwritten by another. *)
Theorem BQRow_Save_keeps_every_field (r r' : BQRow) :
  (exists row,
     BQRow_Save r = (row, "", None)
     /\ dom row = {[ "Service"; "SLO"; "Date"; "Total"; "Good"; "Target" ]}
     /\ row !! "Service" = Some (BigQuery.VString (rowService r))
     /\ row !! "SLO" = Some (BigQuery.VString (rowSLO r))
     /\ row !! "Date" = Some (BigQuery.VString (rowDate r))
     /\ row !! "Total" = Some (BigQuery.VInt64 (rowTotal r))
     /\ row !! "Good" = Some (BigQuery.VInt64 (rowGood r))
     /\ row !! "Target" = Some (BigQuery.VFloat64 (rowTarget r)))
  /\ (BQRow_Save r = BQRow_Save r' -> r = r').
Proof.
  split.
  - eexists. split; [reflexivity|]. split; [vm_compute; reflexivity|].
    repeat split; reflexivity.
  - intros H.
    pose proof (f_equal (fun x => x.1.1 !! "Service") H) as E1.
    pose proof (f_equal (fun x => x.1.1 !! "SLO") H) as E2.
    pose proof (f_equal (fun x => x.1.1 !! "Date") H) as E3.
    pose proof (f_equal (fun x => x.1.1 !! "Total") H) as E4.
    pose proof (f_equal (fun x => x.1.1 !! "Good") H) as E5.
    pose proof (f_equal (fun x => x.1.1 !! "Target") H) as E6.
    vm_compute in E1, E2, E3, E4, E5, E6.
    destruct r, r'. simpl in *. congruence.
Qed.

Lemma BQRow_Save_keeps_every_field_witness :
  fst (fst (BQRow_Save row_slo1_0509)) !! "Good" = Some (BigQuery.VInt64 100)
  /\ row_slo1_0509 = row_slo1_0509.
Proof.
  destruct (BQRow_Save_keeps_every_field row_slo1_0509 row_slo1_0509)
    as ((row & Hsave & _ & _ & _ & _ & _ & Hgood & _) & Hinj).
  split; [rewrite Hsave; exact Hgood | exact (Hinj eq_refl)].
Defined.

(** ** Labels through the BigQuery client *)

Lemma BQClient_written_is_read {W : Type} (bq : BigQuery.Client W) :
  appliesUpdates bq ->
  forall dataset label value etag w w',
    BQClient_WriteDatasetMetadataLabel bq dataset label value etag w = (None, w') ->
    exists md w'',
      BigQuery.Metadata bq dataset w' = (Ret md, w'')
      /\ BigQuery.Labels md !! label = (if Strings.nonempty value then Some value else None)
      /\ BQClient_ReadDatasetMetadataLabel bq dataset label w'
         = (Ret (value, BigQuery.ETag md), w'').
Proof.
  intros Hbq dataset label value etag w w' Hw.
  unfold BQClient_WriteDatasetMetadataLabel in Hw. cbv zeta in Hw.
  destruct (Hbq _ _ _ _ _ Hw) as (md & w'' & Hmd & Hset & Hdel).
  exists md, w''. split; [exact Hmd|].
  unfold BQClient_ReadDatasetMetadataLabel. rewrite Hmd.
  destruct (Strings.nonempty value) eqn:Hv.
  - assert (E : BigQuery.Labels md !! label = Some value).
    { apply Hset; simpl.
      - apply lookup_insert_eq.
      - apply not_elem_of_empty. }
    rewrite E. split; reflexivity.
  - assert (E : BigQuery.Labels md !! label = None).
    { apply Hdel. simpl. apply elem_of_union_l, elem_of_singleton. reflexivity. }
    rewrite E. apply nonempty_false in Hv. subst value. split; reflexivity.
Qed.

Lemma Memory_appliesUpdates : appliesUpdates Memory.client.
Proof.
  intros dataset u etag w w' H. simpl in H. unfold Memory.update in H.
  destruct (w !! dataset) as [d|] eqn:Hd; [|discriminate].
  destruct (_ && _); [discriminate|]. inversion H. subst w'. clear H.
  eexists _, _. split.
  { simpl. unfold Memory.metadata. rewrite lookup_insert_eq. reflexivity. }
  simpl. unfold Memory.applyUpdate. split.
  - intros k v Hk Hnot. apply map_lookup_filter_Some. split; [|exact Hnot].
    apply lookup_union_Some_l. exact Hk.
  - intros k Hk. apply map_lookup_filter_None. right. intros v _ Hnot.
    exact (Hnot Hk).
Qed.

(** X9.  Over a dataset service that applies the updates it accepts, a label
    written through [WriteDatasetMetadataLabel] is read back by
    [ReadDatasetMetadataLabel], together with the etag of the metadata: a
    non-empty value is set as the label; the empty value deletes the label,
    and a label that is not there reads as the empty string. *)
Theorem BQClient_label_roundtrip {W : Type} (bq : BigQuery.Client W)
    (dataset label value etag : string) (w w' : W) :
  appliesUpdates bq ->
  BQClient_WriteDatasetMetadataLabel bq dataset label value etag w = (None, w') ->
  exists md w'',
    BigQuery.Metadata bq dataset w' = (Ret md, w'')
    /\ BQClient_ReadDatasetMetadataLabel bq dataset label w'
       = (Ret (value, BigQuery.ETag md), w'')
    /\ (value <> "" -> BigQuery.Labels md !! label = Some value)
    /\ (value = "" -> BigQuery.Labels md !! label = None).
Proof.
  intros Hbq Hw.
  destruct (BQClient_written_is_read bq Hbq _ _ _ _ _ _ Hw) as (md & w'' & Hmd & Hl & Hr).
  exists md, w''. split; [exact Hmd|]. split; [exact Hr|]. split.
  - intros Hv. apply nonempty_true in Hv. rewrite Hv in Hl. exact Hl.
  - intros Hv. apply nonempty_false in Hv. rewrite Hv in Hl. exact Hl.
Qed.

Lemma BQClient_label_roundtrip_witness :
  exists md w'',
    BigQuery.Metadata Memory.client "dsname"
      (snd (BQClient_WriteDatasetMetadataLabel Memory.client "dsname" bqLeaseLabelName
              "1337" "0" (world (Memory.start "dsname"))))
    = (Ret md, w'')
    /\ BQClient_ReadDatasetMetadataLabel Memory.client "dsname" bqLeaseLabelName
         (snd (BQClient_WriteDatasetMetadataLabel Memory.client "dsname" bqLeaseLabelName
                 "1337" "0" (world (Memory.start "dsname"))))
       = (Ret ("1337", BigQuery.ETag md), w'')
    /\ ("1337" <> "" -> BigQuery.Labels md !! bqLeaseLabelName = Some "1337")
    /\ ("1337" = "" -> BigQuery.Labels md !! bqLeaseLabelName = None).
Proof.
  apply (BQClient_label_roundtrip Memory.client "dsname" bqLeaseLabelName "1337" "0"
           (world (Memory.start "dsname"))).
  - exact Memory_appliesUpdates.
  - vm_compute. reflexivity.
Defined.

(** ** The lease over a store that keeps what is written *)

Lemma Memory_readsBackWrites now : readsBackWrites (Memory.env now).
Proof.
  intros dataset label value etag w w' Hw. simpl in Hw.
  destruct (BQClient_written_is_read Memory.client Memory_appliesUpdates _ _ _ _ _ _ Hw)
    as (md & w'' & _ & _ & Hr).
  exists (BigQuery.ETag md), w''. exact Hr.
Qed.

Section LeaseOnAStore.

Context {W : Type}.
Variable env : Env W.
Hypothesis store : readsBackWrites env.

Lemma newBqLease_acquired dataset expiration (st st1 : State W) l :
  newBqLease env dataset expiration st = (Ret l, st1) ->
  l = mkLease dataset
  /\ exists etag' w'',
       ReadDatasetMetadataLabel env dataset bqLeaseLabelName (world st1)
       = (Ret (leaseValue expiration, etag'), w'').
Proof.
  intros H.
  destruct (newBqLease_cases env dataset expiration st)
    as [(exp & etag & w1 & w2 & r & w3 & _ & Hw & Hrun) | [_ Hf]].
  - rewrite H in Hrun. destruct r as [e|]; inversion Hrun. subst.
    split; [reflexivity|]. exact (store _ _ _ _ _ _ Hw).
  - rewrite H in Hf. discriminate.
Qed.

(** X8.  Over a label store that gives back what was written last, and with
    a clock that stands before the expiration: after [newBqLease] has
    returned a lease, a second [newBqLease] on the dataset fails with the
    error that the lease is still valid, and writes nothing; after [Close]
    has succeeded, a further [newBqLease] is not refused but goes on to
    write its own expiration. *)
Theorem lease_excludes_until_released
    (dataset : string) (first second now : GoTime.Time)
    (st st1 : State W) (l : bqLease) :
  clockReads env now -> plainClock now ->
  GoTime.Unix now < GoTime.Unix first ->
  GoTime.Unix first + GoTime.unixToInternal <= Int64.max_int ->
  newBqLease env dataset first st = (Ret l, st1) ->
  (exists st2,
     newBqLease env dataset second st1
     = (Fail (ErrLeaseStillValid (GoTime.Unix first)), st2)
     /\ trace st2 = trace st1 ++ [leaseRead dataset])
  /\ (forall st2,
        bqLease_Close env l st1 = (Ret None, st2) ->
        exists etag r w,
          newBqLease env dataset second st2
          = (match r with
             | Some e => Fail (ErrLeaseUpdate e)
             | None => Ret (mkLease dataset)
             end,
             mkState w (trace st2 ++ [leaseRead dataset;
                                      leaseWrite dataset (leaseValue second) etag]))).
Proof.
  intros Hclock Hplain Hbefore Hmax Hacq.
  destruct (newBqLease_acquired _ _ _ _ _ Hacq) as (-> & etag' & w1 & Hread).
  split.
  - destruct (time_Now env w1) as [now' w2] eqn:Hnow.
    assert (now' = now) by (rewrite <- (Hclock w1), Hnow; reflexivity). subst now'.
    destruct (newBqLease_protocol env dataset second st1 _ etag' w1 Hread)
      as (_ & Hvalid & _).
    eexists. split.
    + apply (Hvalid _ now w2 (FormatInt_nonempty _)
               (ParseInt_FormatInt _ (Unix_in_range first)) Hnow Hplain Hmax Hbefore).
    + reflexivity.
  - intros st2 Hclose. unfold bqLease_Close, call_err in Hclose. simpl in Hclose.
    destruct (WriteDatasetMetadataLabel env dataset bqLeaseLabelName "" "" (world st1))
      as [r0 w0] eqn:Hw0.
    inversion Hclose. subst r0 st2. clear Hclose.
    destruct (store _ _ _ _ _ _ Hw0) as (etag2 & w3 & Hread2).
    destruct (WriteDatasetMetadataLabel env dataset bqLeaseLabelName
                (leaseValue second) etag2 w3) as [r w4] eqn:Hw4.
    destruct (newBqLease_protocol env dataset second
                (mkState w0 (trace st1 ++ [EvWriteLabel dataset bqLeaseLabelName "" ""]))
                _ etag2 w3 Hread2) as (_ & _ & Hempty & _).
    exists etag2, r, w4. rewrite (Hempty r w4 eq_refl Hw4). destruct r; reflexivity.
Qed.

End LeaseOnAStore.

Lemma lease_excludes_until_released_witness :
  let env := Memory.env (GoTime.FromUnix 1431270000 0) in
  let first := GoTime.FromUnix 1431270600 0 in
  let second := GoTime.FromUnix 1431270660 0 in
  let st1 := snd (newBqLease env "dsname" first (Memory.start "dsname")) in
  (exists st2,
     newBqLease env "dsname" second st1 = (Fail (ErrLeaseStillValid 1431270600), st2)
     /\ trace st2 = trace st1 ++ [leaseRead "dsname"])
  /\ (forall st2,
        bqLease_Close env (mkLease "dsname") st1 = (Ret None, st2) ->
        exists etag r w,
          newBqLease env "dsname" second st2
          = (match r with
             | Some e => Fail (ErrLeaseUpdate e)
             | None => Ret (mkLease "dsname")
             end,
             mkState w (trace st2 ++ [leaseRead "dsname";
                                      leaseWrite "dsname" (leaseValue second) etag]))).
Proof.
  intros env first second st1.
  apply (lease_excludes_until_released env (Memory_readsBackWrites _) "dsname"
           first second (GoTime.FromUnix 1431270000 0) (Memory.start "dsname") st1
           (mkLease "dsname")).
  - intros w. reflexivity.
  - vm_compute. repeat split; discriminate.
  - vm_compute. reflexivity.
  - vm_compute. discriminate.
  - vm_compute. reflexivity.
Defined.

(** ** The existing-data index: keys *)

(** X1.  [bqMap]: a key that was added checks as present; adding a key
    leaves the answer for every other key as it was; the empty index holds
    nothing (a missing key reads as [false]); adding a key twice is adding
    it once, and the order of two additions does not matter. *)
Theorem bqMap_Add_Check_roundtrip (b : bqMap) (s l d s' l' d' : string) :
  bqMap_Check (bqMap_Add b s l d) s l d = true
  /\ ((s, l, d) <> (s', l', d') ->
      bqMap_Check (bqMap_Add b s l d) s' l' d' = bqMap_Check b s' l' d')
  /\ bqMap_Check ∅ s l d = false
  /\ bqMap_Add (bqMap_Add b s l d) s l d = bqMap_Add b s l d
  /\ bqMap_Add (bqMap_Add b s l d) s' l' d' = bqMap_Add (bqMap_Add b s' l' d') s l d.
Proof.
  unfold bqMap_Check, bqMap_Add. repeat split.
  - rewrite lookup_insert_eq. reflexivity.
  - intros Hne. rewrite lookup_insert_ne by exact Hne. reflexivity.
  - apply insert_insert_eq.
  - destruct (decide ((s, l, d) = (s', l', d'))) as [E | E].
    + inversion E. reflexivity.
    + apply insert_insert_ne. congruence.
Qed.

Lemma bqMap_Add_Check_roundtrip_witness :
  bqMap_Check (bqMap_Add ∅ "svc1" "slo1" "2015-01-01") "svc1" "slo1" "2015-01-01" = true
  /\ bqMap_Check (bqMap_Add ∅ "svc1" "slo1" "2015-01-01") "svc1" "slo1" "2015-01-02"
     = bqMap_Check ∅ "svc1" "slo1" "2015-01-02".
Proof.
  destruct (bqMap_Add_Check_roundtrip ∅ "svc1" "slo1" "2015-01-01"
              "svc1" "slo1" "2015-01-02") as (H1 & H2 & _).
  split; [exact H1 | apply H2; discriminate].
Defined.

Lemma readBQMap_rows_indexOf rows : forall result m,
  readBQMap_rows rows result = Ret m ->
  Forall keyComplete rows /\ m = indexOf rows result.
Proof.
  induction rows as [|row rest IH]; intros result m; simpl.
  - intros H. inversion H. split; [constructor | reflexivity].
  - destruct (Strings.nonempty (rowService row)) eqn:E1; [|discriminate].
    destruct (Strings.nonempty (rowSLO row)) eqn:E2; [|discriminate].
    destruct (Strings.nonempty (rowDate row)) eqn:E3; [|discriminate].
    simpl. intros H. destruct (IH _ _ H) as [Hc Hm]. split; [|exact Hm].
    constructor; [|exact Hc].
    apply nonempty_true in E1, E2, E3. repeat split; assumption.
Qed.

Lemma indexOf_dom rows : forall result : bqMap,
  dom (indexOf rows result) = dom result ∪ list_to_set (map rowKey rows).
Proof.
  induction rows as [|row rest IH]; intros result.
  - change (dom result = dom result ∪ list_to_set []).
    rewrite list_to_set_nil. symmetry. apply (right_id_L ∅ (∪)).
  - change (dom (indexOf rest (bqMap_Add result (rowService row) (rowSLO row) (rowDate row)))
            = dom result ∪ list_to_set (rowKey row :: map rowKey rest)).
    rewrite IH. unfold bqMap_Add, rowKey.
    rewrite dom_insert_L, list_to_set_cons.
    rewrite (comm_L (∪) {[_]} (dom result)), <- (assoc_L (∪)). reflexivity.
Qed.

Lemma indexOf_values rows : forall result : bqMap,
  (forall k v, result !! k = Some v -> v = true) ->
  forall k v, indexOf rows result !! k = Some v -> v = true.
Proof.
  induction rows as [|row rest IH]; intros result Hres; simpl; [exact Hres|].
  unfold indexOf in *. simpl. apply IH. intros k v. unfold bqMap_Add.
  destruct (decide ((rowService row, rowSLO row, rowDate row) = k)) as [<- | Hne].
  - rewrite lookup_insert_eq. congruence.
  - rewrite lookup_insert_ne by exact Hne. apply Hres.
Qed.

Lemma size_list_to_set_le (keys : list bqMapKey) :
  (size (list_to_set keys : gset bqMapKey) <= length keys)%nat.
Proof.
  induction keys as [|k rest IH].
  - rewrite list_to_set_nil, size_empty. simpl. lia.
  - rewrite list_to_set_cons.
    rewrite (size_union_alt ({[k]} : gset bqMapKey) (list_to_set rest)).
    rewrite size_singleton.
    pose proof (subseteq_size (list_to_set rest ∖ {[k]} : gset bqMapKey) (list_to_set rest)
                  (subseteq_difference_l _ _ _ (reflexivity _))).
    simpl. lia.
Qed.

(** X2.  Whenever [readBQMap] returns an index, it was built from a query
    result all of whose rows carry a service, an SLO and a date: the keys of
    the index are exactly the keys of those rows, every entry is [true], and
    the index has at most as many entries as there are rows, exactly as many
    when no two rows share a key. *)
Theorem readBQMap_index_is_the_key_set {W : Type} (env : Env W) (backfillDays : Z)
    (cfg : Config) (st : State W) (m : bqMap) :
  fst (readBQMap env backfillDays cfg st) = Ret m ->
  exists q w1 w2 rows,
    Query env q w1 = (Ret rows, w2)
    /\ Forall keyComplete rows
    /\ dom m = list_to_set (map rowKey rows)
    /\ (forall k v, m !! k = Some v -> v = true)
    /\ (size m <= length rows)%nat
    /\ (NoDup (map rowKey rows) -> size m = length rows).
Proof.
  intros H. destruct (readBQMap env backfillDays cfg st) as [o st'] eqn:E.
  simpl in H. subst o. unfold readBQMap in E.
  apply bind_inv_Ret in E as (loc & s1 & _ & E).
  apply bind_inv_Ret in E as (now & s2 & _ & E).
  apply bind_inv_Ret in E as (rows & s3 & Hq & E).
  apply lift_inv_Ret in E as [E _].
  unfold call in Hq. destruct (Query env _ (world s2)) as [r w2] eqn:HQ.
  inversion Hq. subst r.
  destruct (readBQMap_rows_indexOf _ _ _ E) as [Hc ->].
  assert (Hdom : dom (indexOf rows ∅) = list_to_set (map rowKey rows)).
  { rewrite indexOf_dom, dom_empty_L. apply (left_id_L ∅ (∪)). }
  eexists _, _, _, rows. split; [exact HQ|]. split; [exact Hc|].
  split; [exact Hdom|]. split.
  { apply indexOf_values. intros k v Hk. rewrite lookup_empty in Hk. discriminate. }
  rewrite <- size_dom, Hdom. split.
  - rewrite <- (length_map rowKey). apply size_list_to_set_le.
  - intros Hnd. rewrite size_list_to_set by exact Hnd. apply length_map.
Qed.

Lemma readBQMap_index_is_the_key_set_witness :
  exists q w1 w2 rows,
    Query (Mock.env syncAnswers) q w1 = (Ret rows, w2)
    /\ Forall keyComplete rows
    /\ dom existingTest = list_to_set (map rowKey rows)
    /\ (forall k v, existingTest !! k = Some v -> v = true)
    /\ (size existingTest <= length rows)%nat
    /\ (NoDup (map rowKey rows) -> size existingTest = length rows).
Proof.
  apply (readBQMap_index_is_the_key_set (Mock.env syncAnswers) 2 testConfig Mock.start).
  vm_compute. reflexivity.
Defined.

(** ** Day boundaries: second alignment, dates and fixed zones *)

Lemma nsec_Date y m d hh mm ss l : GoTime.nsec (GoTime.Date y m d hh mm ss 0 l) = 0.
Proof.
  unfold GoTime.Date.
  repeat match goal with |- context [let '(_, _) := ?p in _] => destruct p eqn:? end.
  unfold GoTime.norm in *.
  repeat match goal with H : (_, _) = (_, _) |- _ => inversion H; clear H end.
  subst. reflexivity.
Qed.

(** X11.  The instant returned by [daysAgoMidnightTimestamp] is aligned to a
    second: its nanosecond part is 0, as [getGoodTotal] and [getCounter]
    assume when they fill only the seconds of the query interval.  It is in
    the location asked for, and its second count is an [int64]. *)
Theorem daysAgoMidnightTimestamp_second_aligned
    (now : GoTime.Time) (l : GoTime.Location) (daysAgo : Z) :
  GoTime.nsec (daysAgoMidnightTimestamp now l daysAgo) = 0
  /\ GoTime.loc (daysAgoMidnightTimestamp now l daysAgo) = l
  /\ Int64.in_range (GoTime.isec (daysAgoMidnightTimestamp now l daysAgo)).
Proof.
  split; [|split].
  - unfold daysAgoMidnightTimestamp.
    destruct (GoTime.DateOf _) as [[y m] d]. apply nsec_Date.
  - apply loc_daysAgoMidnightTimestamp.
  - unfold daysAgoMidnightTimestamp.
    destruct (GoTime.DateOf _) as [[y m] d]. unfold GoTime.Date.
    repeat match goal with |- context [let '(_, _) := ?p in _] => destruct p end.
    apply int64_wrap_in_range.
Qed.

Lemma localDay_of_midnight l u day :
  localSeconds l u = day * 86400 -> localDay l u = day /\ localSecondOfDay l u = 0.
Proof.
  intros H. unfold localDay, localSecondOfDay. rewrite H.
  split; [apply Z.div_mul; lia | apply Z.mod_mul; lia].
Qed.

(** X12.  Where the two wall-clock readings involved are not skipped by a
    zone transition, the instant returned by [daysAgoMidnightTimestamp]
    reads 00:00:00 on the clocks of [l], on the calendar date that lies
    [daysAgo] days before the date of [now] in [l]. *)
Theorem daysAgoMidnightTimestamp_is_local_midnight
    (now : GoTime.Time) (l : GoTime.Location) (daysAgo day : Z)
    (y m d y' m' d' : Z) :
  saneClock now -> boundedZone l -> Z.abs daysAgo <= 2 ^ 20 ->
  day = localDay l (GoTime.Unix now) - daysAgo ->
  shownBy l (day * 86400 + localSecondOfDay l (GoTime.Unix now)) ->
  shownBy l (day * 86400) ->
  GoTime.DateOf (GoTime.In now l) = (y, m, d) ->
  GoTime.DateOf (daysAgoMidnightTimestamp now l daysAgo) = (y', m', d') ->
  GoTime.Clock (daysAgoMidnightTimestamp now l daysAgo) = (0, 0, 0)
  /\ GoTime.civilDay y' m' d' = GoTime.civilDay y m d - daysAgo
  /\ 1 <= m' <= 12 /\ 1 <= d' <= 31.
Proof.
  intros Hsane Hzone Hk Eday Hclock Hmid Hnow Hres.
  destruct (daysAgoMidnightTimestamp_local_midnight now l daysAgo day
              Hsane Hzone Hk Eday Hclock Hmid) as (_ & Hloc & _).
  destruct (localDay_of_midnight _ _ _ Hloc) as [Hd Hs].
  split.
  - rewrite Clock_local, loc_daysAgoMidnightTimestamp. cbv zeta. rewrite Hs. reflexivity.
  - rewrite DateOf_local, loc_daysAgoMidnightTimestamp, Hd in Hres.
    rewrite DateOf_local in Hnow. cbn [GoTime.loc GoTime.In] in Hnow.
    change (GoTime.Unix (GoTime.In now l)) with (GoTime.Unix now) in Hnow.
    pose proof (civil_roundtrip (day + GoTime.unixEpochDay)) as R1.
    rewrite Hres in R1.
    pose proof (civil_roundtrip (localDay l (GoTime.Unix now) + GoTime.unixEpochDay)) as R2.
    rewrite Hnow in R2.
    destruct R1 as (Hm' & Hd' & E1). destruct R2 as (_ & _ & E2).
    split; [lia|]. split; assumption.
Qed.

Lemma saneClock_test_clock : saneClock (Mock.mockNow testAnswers).
Proof.
  split; [vm_compute; discriminate|]. split; [vm_compute; discriminate|].
  vm_compute. reflexivity.
Qed.

Lemma boundedZone_London : boundedZone Zones.London.
Proof.
  split; [vm_compute; discriminate|]. repeat constructor; vm_compute; discriminate.
Qed.

Lemma daysAgoMidnightTimestamp_is_local_midnight_witness :
  GoTime.Clock (daysAgoMidnightTimestamp (Mock.mockNow testAnswers) Zones.London 1)
  = (0, 0, 0)
  /\ GoTime.civilDay 2015 5 9 = GoTime.civilDay 2015 5 10 - 1
  /\ 1 <= 5 <= 12 /\ 1 <= 9 <= 31.
Proof.
  apply (daysAgoMidnightTimestamp_is_local_midnight (Mock.mockNow testAnswers)
           Zones.London 1 16564 2015 5 10 2015 5 9
           saneClock_test_clock boundedZone_London).
  - vm_compute. discriminate.
  - vm_compute. reflexivity.
  - vm_compute. reflexivity.
  - vm_compute. reflexivity.
  - vm_compute. reflexivity.
  - vm_compute. reflexivity.
Defined.

Lemma fixedZone_offsetAt l u : fixedZone l -> GoTime.offsetAt l u = GoTime.zoneFirst l.
Proof.
  intros [Htx _]. unfold GoTime.offsetAt, GoTime.lookup. rewrite Htx. reflexivity.
Qed.

Lemma fixedZone_shownBy l c :
  fixedZone l -> Z.abs c <= 2 ^ 42 ->
  GoTime.resolveOffset l c = GoTime.zoneFirst l /\ shownBy l c.
Proof.
  intros Hf Hc. pose proof Hf as [Htx Hoff].
  assert (E : GoTime.resolveOffset l c = GoTime.zoneFirst l).
  { unfold GoTime.resolveOffset, GoTime.lookup. rewrite Htx.
    cbn [GoTime.lookupTx]. unfold GoTime.alpha, GoTime.omega.
    destruct (Z.eqb_spec (GoTime.zoneFirst l) 0) as [E0 | _]; [congruence|].
    destruct (Z.ltb_spec (c - GoTime.zoneFirst l) (- 2 ^ 63)); [lia|].
    destruct (Z.leb_spec (2 ^ 63 - 1) (c - GoTime.zoneFirst l)); [lia|].
    reflexivity. }
  split; [exact E|]. unfold shownBy, localSeconds.
  rewrite E, fixedZone_offsetAt by exact Hf. lia.
Qed.

Lemma fixedZone_bounded l : fixedZone l -> boundedZone l.
Proof. intros [Htx Hoff]. split; [exact Hoff|]. rewrite Htx. constructor. Qed.

(** X13.  In a zone whose offset never changes, such as UTC, every day that
    is queried is 24 hours long, and the boundary for [daysAgo] is the
    instant at which the local second count is the multiple of 86400 that
    lies [daysAgo] days before the local day of [now]. *)
Theorem dayLength_without_transitions
    (now : GoTime.Time) (l : GoTime.Location) (daysAgo : Z) :
  fixedZone l -> saneClock now -> Z.abs daysAgo <= 2 ^ 20 - 1 ->
  dayLength now l daysAgo = 86400
  /\ GoTime.Unix (daysAgoMidnightTimestamp now l daysAgo)
     = ((GoTime.Unix now + GoTime.zoneFirst l) / 86400 - daysAgo) * 86400
       - GoTime.zoneFirst l.
Proof.
  intros Hf Hsane Hk.
  pose proof (fixedZone_bounded l Hf) as Hzone.
  pose proof (Unix_sane now Hsane) as HU. pose proof Hsane as [Hu _].
  rewrite <- HU in Hu.
  pose proof (localDay_bounds l (GoTime.Unix now)) as (Hd1 & Hs & _).
  pose proof (offsetAt_bounded l (GoTime.Unix now) Hzone) as Hoff.
  unfold localSeconds in Hd1.
  set (day := localDay l (GoTime.Unix now) - daysAgo).
  set (second := localSecondOfDay l (GoTime.Unix now)) in *.
  assert (Hday : Z.abs (day * 86400) <= 2 ^ 41) by (subst day; lia).
  destruct (fixedZone_shownBy l (day * 86400 + second) Hf ltac:(lia)) as [_ S1].
  destruct (fixedZone_shownBy l (day * 86400) Hf ltac:(lia)) as [R2 S2].
  destruct (fixedZone_shownBy l ((day + 1) * 86400 + second) Hf ltac:(lia)) as [_ S3].
  destruct (fixedZone_shownBy l ((day + 1) * 86400) Hf ltac:(lia)) as [_ S4].
  destruct (dayLength_regular now l daysAgo day second Hsane Hzone Hk eq_refl eq_refl
              S1 S2 S3 S4) as (_ & _ & Hlen).
  split.
  - rewrite Hlen, !fixedZone_offsetAt by exact Hf. lia.
  - destruct (daysAgoMidnightTimestamp_local_midnight now l daysAgo day
                Hsane Hzone ltac:(lia) eq_refl S1 S2) as (HUnix & _).
    rewrite HUnix, R2. subst day. unfold localDay, localSeconds.
    rewrite fixedZone_offsetAt by exact Hf. reflexivity.
Qed.

Lemma dayLength_without_transitions_witness :
  dayLength (Mock.mockNow testAnswers) GoTime.UTC 1 = 86400
  /\ GoTime.Unix (daysAgoMidnightTimestamp (Mock.mockNow testAnswers) GoTime.UTC 1)
     = ((GoTime.Unix (Mock.mockNow testAnswers) + GoTime.zoneFirst GoTime.UTC) / 86400 - 1)
       * 86400 - GoTime.zoneFirst GoTime.UTC.
Proof.
  apply (dayLength_without_transitions (Mock.mockNow testAnswers) GoTime.UTC 1).
  - split; [reflexivity | vm_compute; discriminate].
  - exact saneClock_test_clock.
  - vm_compute. discriminate.
Defined.

(** ** One row for every open day *)

Lemma dateDaysAgo_unfold now loc daysAgo :
  dateDaysAgo now loc daysAgo
  = GoTime.FormatDate (daysAgoMidnightTimestamp now loc daysAgo).
Proof. reflexivity. Qed.

Section OpenDays.

Context {W : Type}.
Variable env : Env W.
Variable backfillDays : Z.
Variable getGoodTotal : @evaluator W.
Variables (cfg : Config) (svc : Service) (slo : SLO) (existing : bqMap).
Variable loc : GoTime.Location.
Variable now : GoTime.Time.
Variables service name : string.
Hypothesis steady : timeNowReads env now.
Hypothesis Hservice : Service_HumanName svc = Ret service.
Hypothesis Hname : SLO_HumanName slo = Ret name.

Lemma newRecords_day_dates daysAgo rows (st : State W) rows' st' :
  newRecords_day env getGoodTotal cfg svc slo existing loc daysAgo rows st = (Ret rows', st') ->
  exists new,
    rows' = rows ++ new
    /\ map rowDate new
       = List.filter (fun date => negb (bqMap_Check existing service name date))
           [dateDaysAgo now loc daysAgo]
    /\ Forall (fun row => rowService row = service /\ rowSLO row = name) new.
Proof.
  unfold newRecords_day. intros H.
  apply bind_inv_Ret in H as (now1 & s1 & Hn1 & H).
  apply bind_inv_Ret in H as (now2 & s2 & Hn2 & H).
  assert (now1 = now).
  { unfold clock in Hn1. pose proof (steady (world st)) as E.
    destruct (timeNow env (world st)) as [t w]. simpl in E. inversion Hn1. congruence. }
  subst now1. rewrite Hservice, Hname in H.
  apply bind_inv_Ret in H as (service' & s3 & Hs & H).
  apply lift_inv_Ret in Hs as [Hs ->]. inversion Hs. subst service'.
  apply bind_inv_Ret in H as (name' & s4 & Hn & H).
  apply lift_inv_Ret in Hn as [Hn ->]. inversion Hn. subst name'.
  cbn [List.filter]. rewrite dateDaysAgo_unfold.
  destruct (bqMap_Check existing service name
              (GoTime.FormatDate (daysAgoMidnightTimestamp now loc daysAgo))) eqn:Hc;
    cbn [negb].
  - inversion H. subst rows' st'. exists []. rewrite app_nil_r.
    split; [reflexivity|]. split; [reflexivity | constructor].
  - apply bind_inv_Ret in H as ([good total] & s5 & Hg & H).
    apply bind_inv_Ret in H as (n' & s6 & _ & H). inversion H. subst rows' st'.
    eexists. split; [reflexivity|]. cbn [map rowDate rowService rowSLO].
    split; [reflexivity|].
    constructor; [|constructor]. split; reflexivity.
Qed.

Lemma newRecords_loop_dates n : forall daysAgo rows (st : State W) rows' st',
  newRecords_loop env getGoodTotal cfg svc slo existing loc n daysAgo rows st
  = (Ret rows', st') ->
  exists new,
    rows' = rows ++ new
    /\ map rowDate new
       = List.filter (fun date => negb (bqMap_Check existing service name date))
           (map (dateDaysAgo now loc) (daysFrom daysAgo n))
    /\ Forall (fun row => rowService row = service /\ rowSLO row = name) new.
Proof.
  induction n as [|n IH]; intros daysAgo rows st rows' st' H; simpl in H.
  - inversion H. subst rows' st'. exists []. rewrite app_nil_r.
    split; [reflexivity|]. split; [reflexivity | constructor].
  - apply bind_inv_Ret in H as (rows1 & s1 & Hday & H).
    destruct (newRecords_day_dates _ _ _ _ _ Hday) as (new1 & -> & Hd1 & Hn1).
    destruct (IH _ _ _ _ _ H) as (new2 & -> & Hd2 & Hn2).
    exists (new1 ++ new2). rewrite <- app_assoc. split; [reflexivity|]. split.
    + rewrite map_app, Hd1, Hd2. cbn [daysFrom map].
      change (dateDaysAgo now loc daysAgo :: map (dateDaysAgo now loc) (daysFrom (daysAgo + 1) n))
        with ([dateDaysAgo now loc daysAgo]
              ++ map (dateDaysAgo now loc) (daysFrom (daysAgo + 1) n)).
      rewrite List.filter_app. reflexivity.
    + apply Forall_app. auto.
Qed.

Lemma newRecordsWith_dates (st : State W) rows st' :
  LoadLocation env (TimeZone cfg) = Ret loc ->
  newRecordsWith env backfillDays getGoodTotal cfg svc slo existing st = (Ret rows, st') ->
  map rowDate rows = openDates backfillDays now loc existing service name
  /\ Forall (fun row => rowService row = service /\ rowSLO row = name) rows.
Proof.
  intros Hloc H. unfold newRecordsWith in H. rewrite Hloc in H.
  apply bind_inv_Ret in H as (l & s1 & Hl & H).
  apply lift_inv_Ret in Hl as [Hl ->]. inversion Hl. subst l.
  destruct (newRecords_loop_dates _ _ _ _ _ _ H) as (new & -> & Hd & Hn).
  split; [exact Hd | exact Hn].
Qed.

End OpenDays.

(** X14.  In both revisions, with a clock that stands still during the call,
    [newRecords] when it returns rows returns one row for every backfill day
    whose key is not in the index and for no other day, the most recent day
    first, all of them under the human names of the service and of the SLO. *)
Theorem newRecords_one_row_per_open_day {W : Type} (env : Env W)
    (indefinite : float -> Z) (backfillDays : Z)
    (cfg : Config) (svc : Service) (slo : SLO) (existing : bqMap)
    (loc : GoTime.Location) (now : GoTime.Time) (service name : string) :
  timeNowReads env now ->
  LoadLocation env (TimeZone cfg) = Ret loc ->
  Service_HumanName svc = Ret service ->
  SLO_HumanName slo = Ret name ->
  returns (Legacy.newRecords env indefinite backfillDays cfg svc slo existing)
    (fun rows =>
       map rowDate rows = openDates backfillDays now loc existing service name
       /\ Forall (fun row => rowService row = service /\ rowSLO row = name) rows)
  /\ returns (Ratio.newRecords env indefinite backfillDays cfg svc slo existing)
       (fun rows =>
          map rowDate rows = openDates backfillDays now loc existing service name
          /\ Forall (fun row => rowService row = service /\ rowSLO row = name) rows).
Proof.
  intros Hsteady Hloc Hs Hn. split; intros st rows st' H.
  - exact (newRecordsWith_dates env backfillDays _ cfg svc slo existing loc now service name
             Hsteady Hs Hn st rows st' Hloc H).
  - exact (newRecordsWith_dates env backfillDays _ cfg svc slo existing loc now service name
             Hsteady Hs Hn st rows st' Hloc H).
Qed.

Lemma newRecords_one_row_per_open_day_witness :
  map rowDate [row_slo1_0509] = openDates 2 (Mock.mockTimeNow syncAnswers) Zones.London
                                  existingTest "svc1" "slo1"
  /\ Forall (fun row => rowService row = "svc1" /\ rowSLO row = "slo1") [row_slo1_0509].
Proof.
  apply (proj1 (newRecords_one_row_per_open_day (Mock.env syncAnswers) Mock.amd64 2
                  testConfig svc1 slo1 existingTest Zones.London
                  (Mock.mockTimeNow syncAnswers) "svc1" "slo1"
                  (fun _ => eq_refl) eq_refl eq_refl eq_refl)
           Mock.start [row_slo1_0509]
           (snd (Legacy.newRecords (Mock.env syncAnswers) Mock.amd64 2 testConfig
                   svc1 slo1 existingTest Mock.start))).
  vm_compute. reflexivity.
Defined.

(** ** Names that are empty *)

(** X17.  [newRecords] does not validate the names it puts into rows: when
    [HumanName] of the service or of the SLO is the empty string (a resource
    name that ends in a slash), every row it returns lacks that part of its
    key; and a query result that holds such a row, wherever, makes
    [readBQMap] fail. *)
Theorem newRecords_rows_may_lack_a_name {W : Type} (env : Env W)
    (indefinite : float -> Z) (backfillDays : Z)
    (cfg : Config) (svc : Service) (slo : SLO) (existing : bqMap)
    (loc : GoTime.Location) :
  LoadLocation env (TimeZone cfg) = Ret loc ->
  Service_HumanName svc = Ret "" \/ SLO_HumanName slo = Ret "" ->
  returns (Legacy.newRecords env indefinite backfillDays cfg svc slo existing)
    (Forall keyIncomplete)
  /\ returns (Ratio.newRecords env indefinite backfillDays cfg svc slo existing)
       (Forall keyIncomplete)
  /\ (forall stored row later result,
        keyIncomplete row ->
        readBQMap_rows (stored ++ row :: later) result = Fail ErrBQRow).
Proof.
  intros Hloc Hempty.
  assert (Hrow : forall row,
            rowForOpenDay env backfillDays loc svc slo existing row -> keyIncomplete row).
  { intros row (d & now1 & _ & _ & _ & Hs & Hn & _). unfold keyIncomplete.
    destruct Hempty as [E | E].
    - rewrite E in Hs. inversion Hs. auto.
    - rewrite E in Hn. inversion Hn. auto. }
  split; [|split].
  - intros st rows st' H.
    pose proof (proj2 (newRecordsWith_open_days env backfillDays _
                         (Legacy_getGoodTotal_queries env indefinite)
                         cfg svc slo existing loc Hloc) st rows st' H) as Hopen.
    eapply Forall_impl; [exact Hopen | exact Hrow].
  - intros st rows st' H.
    pose proof (proj2 (newRecordsWith_open_days env backfillDays _
                         (Ratio_getGoodTotal_queries env indefinite)
                         cfg svc slo existing loc Hloc) st rows st' H) as Hopen.
    eapply Forall_impl; [exact Hopen | exact Hrow].
  - intros stored row later result Hinc.
    apply readBQMap_rows_incomplete. apply Exists_app. right. apply Exists_cons_hd.
    exact Hinc.
Qed.

Lemma newRecords_rows_may_lack_a_name_witness :
  Service_HumanName unnamedService = Ret ""
  /\ returns (Legacy.newRecords (Mock.env syncAnswers) Mock.amd64 2 testConfig
                unnamedService slo1 existingTest)
       (Forall keyIncomplete).
Proof.
  split; [reflexivity|].
  exact (proj1 (newRecords_rows_may_lack_a_name (Mock.env syncAnswers) Mock.amd64 2
                  testConfig unnamedService slo1 existingTest Zones.London
                  eq_refl (or_introl eq_refl))).
Defined.

(** ** Counting calls *)

Section Counting.

Context {W : Type}.

Lemma callsAtMost_nothing {A} (c : M W A) n :
  (forall st, trace (snd (c st)) = trace st) -> callsAtMost c n.
Proof. intros H st. exists []. rewrite H, app_nil_r. simpl. split; [reflexivity | lia]. Qed.

Lemma callsAtMost_call {A} (op : W -> outcome A * W) ev : callsAtMost (call op ev) 1.
Proof.
  intros st. exists [ev]. unfold call. destruct (op (world st)). simpl. auto.
Qed.

Lemma callsAtMost_bind {A B} (c : M W A) (k : A -> M W B) n m :
  callsAtMost c n -> (forall a, callsAtMost (k a) m) -> callsAtMost (bind c k) (n + m).
Proof.
  intros Hc Hk st. unfold bind.
  destruct (Hc st) as (evs & Ht & Hn).
  destruct (c st) as [[a | e | p] st'] eqn:E; simpl in Ht.
  - destruct (Hk a st') as (evs' & Ht' & Hm).
    exists (evs ++ evs'). rewrite Ht', Ht, app_assoc. split; [reflexivity|].
    rewrite length_app. lia.
  - exists evs. split; [exact Ht | lia].
  - exists evs. split; [exact Ht | lia].
Qed.

Lemma callsAtMost_le {A} (c : M W A) n m :
  callsAtMost c n -> (n <= m)%nat -> callsAtMost c m.
Proof.
  intros Hc Hle st. destruct (Hc st) as (evs & Ht & Hn). exists evs. split; [exact Ht | lia].
Qed.

Lemma callsAtMost_silent_bind {A B} (c : M W A) (k : A -> M W B) m :
  (forall st, trace (snd (c st)) = trace st) ->
  (forall a, callsAtMost (k a) m) -> callsAtMost (bind c k) m.
Proof.
  intros Hc Hk. apply (callsAtMost_bind c k 0 m); [|exact Hk].
  apply callsAtMost_nothing. exact Hc.
Qed.

End Counting.

Lemma lift_silent {W A} (o : outcome A) (st : State W) : trace (snd (lift o st)) = trace st.
Proof. reflexivity. Qed.

Lemma clock_silent {W} op (st : State W) : trace (snd (clock op st)) = trace st.
Proof. unfold clock. destruct (op (world st)). reflexivity. Qed.

Lemma ret_silent {W A} (a : A) (st : State W) : trace (snd (ret a st)) = trace st.
Proof. reflexivity. Qed.

Section Bounds.

Context {W : Type}.
Variable env : Env W.
Variable indefinite : float -> Z.
Variable backfillDays : Z.
Variables (cfg : Config) (svc : Service) (slo : SLO) (existing : bqMap).

Lemma newRecords_day_calls (ggt : @evaluator W) q loc daysAgo rows :
  (forall start end_, callsAtMost (ggt cfg slo start end_) q) ->
  callsAtMost (newRecords_day env ggt cfg svc slo existing loc daysAgo rows) q.
Proof.
  intros Hg. unfold newRecords_day.
  apply callsAtMost_silent_bind; [apply clock_silent|]. intros now1.
  apply callsAtMost_silent_bind; [apply clock_silent|]. intros now2.
  apply callsAtMost_silent_bind; [apply lift_silent|]. intros service.
  apply callsAtMost_silent_bind; [apply lift_silent|]. intros name.
  destruct (bqMap_Check existing service name _).
  { apply callsAtMost_nothing. apply ret_silent. }
  replace q with (q + 0)%nat by lia.
  apply callsAtMost_bind; [apply Hg|]. intros [good total].
  apply callsAtMost_silent_bind; [apply lift_silent|]. intros _.
  apply callsAtMost_nothing. apply ret_silent.
Qed.

Lemma newRecords_loop_calls (ggt : @evaluator W) q loc n : forall daysAgo rows,
  (forall start end_, callsAtMost (ggt cfg slo start end_) q) ->
  callsAtMost (newRecords_loop env ggt cfg svc slo existing loc n daysAgo rows) (n * q).
Proof.
  induction n as [|n IH]; intros daysAgo rows Hg; simpl.
  - apply callsAtMost_nothing. apply ret_silent.
  - apply callsAtMost_bind; [apply newRecords_day_calls; exact Hg|].
    intros rows'. apply IH. exact Hg.
Qed.

Lemma newRecords_day_length (ggt : @evaluator W) loc daysAgo rows :
  returns (newRecords_day env ggt cfg svc slo existing loc daysAgo rows)
    (fun rows' => (length rows' <= S (length rows))%nat).
Proof.
  unfold newRecords_day.
  apply returns_bind. intros now1 _ _ _.
  apply returns_bind. intros now2 _ _ _.
  apply returns_bind. intros service _ _ _.
  apply returns_bind. intros name _ _ _.
  destruct (bqMap_Check existing service name _); [apply returns_ret; lia|].
  apply returns_bind. intros [good total] _ _ _.
  apply returns_bind. intros _ _ _ _. apply returns_ret.
  rewrite length_app. simpl. lia.
Qed.

Lemma newRecords_loop_length (ggt : @evaluator W) loc n : forall daysAgo rows,
  returns (newRecords_loop env ggt cfg svc slo existing loc n daysAgo rows)
    (fun rows' => (length rows' <= n + length rows)%nat).
Proof.
  induction n as [|n IH]; intros daysAgo rows; simpl.
  - apply returns_ret. lia.
  - apply returns_bind. intros rows' st st' Hday.
    pose proof (newRecords_day_length ggt loc daysAgo rows st rows' st' Hday) as Hl.
    intros s a s' Hloop. pose proof (IH _ _ s a s' Hloop). simpl in *. lia.
Qed.

Lemma Legacy_getGoodTotal_one_call start end_ :
  callsAtMost (Legacy.getGoodTotal env indefinite cfg slo start end_) 1.
Proof.
  unfold Legacy.getGoodTotal.
  replace 1%nat with (1 + 0)%nat by lia. apply callsAtMost_bind.
  - intros st. exists [EvListTimeSeries (Legacy.request cfg slo start end_)].
    unfold call. destruct (ListTimeSeries env _ (world st)) as [[series | e | p] w];
      simpl; auto.
  - intros series. apply callsAtMost_nothing. intros st.
    destruct series as [|s1 [|s2 [|s3 rest]]]; try reflexivity.
    unfold bind, lift. destruct (Legacy.sumSeries _ _ _) as [[g t] | e | p]; reflexivity.
Qed.

Lemma Ratio_getCounter_one_call start end_ filter :
  callsAtMost (Ratio.getCounter env indefinite cfg start end_ filter) 1.
Proof.
  unfold Ratio.getCounter.
  replace 1%nat with (1 + 0)%nat by lia. apply callsAtMost_bind.
  - apply callsAtMost_call.
  - intros series. apply callsAtMost_nothing. apply lift_silent.
Qed.

Lemma Ratio_getGoodTotal_two_calls start end_ :
  callsAtMost (Ratio.getGoodTotal env indefinite cfg slo start end_) 2.
Proof.
  unfold Ratio.getGoodTotal.
  apply callsAtMost_silent_bind; [apply lift_silent|]. intros sli.
  assert (H2 : forall (A : Type) f1 f2 (k : Z -> Z -> A),
             callsAtMost (bind (Ratio.getCounter env indefinite cfg start end_ f1)
                            (fun a => bind (Ratio.getCounter env indefinite cfg start end_ f2)
                                        (fun b => ret (k a b)))) 2).
  { intros A f1 f2 k. replace 2%nat with (1 + (1 + 0))%nat by lia.
    apply callsAtMost_bind; [apply Ratio_getCounter_one_call|]. intros a.
    apply callsAtMost_bind; [apply Ratio_getCounter_one_call|]. intros b.
    apply callsAtMost_nothing. apply ret_silent. }
  destruct (_ && _); [apply (H2 _ _ _ (fun a b => (a, b)))|].
  destruct (_ && _); [apply (H2 _ _ _ (fun a b => (a, Int64.add a b)))|].
  destruct (_ && _); [apply (H2 _ _ _ (fun a b => (Int64.sub b a, b)))|].
  apply callsAtMost_nothing. reflexivity.
Qed.

Lemma newRecordsWith_bounds (ggt : @evaluator W) q :
  (forall start end_, callsAtMost (ggt cfg slo start end_) q) ->
  callsAtMost (newRecordsWith env backfillDays ggt cfg svc slo existing)
    (Z.to_nat backfillDays * q)
  /\ returns (newRecordsWith env backfillDays ggt cfg svc slo existing)
       (fun rows => (length rows <= Z.to_nat backfillDays)%nat).
Proof.
  intros Hg. unfold newRecordsWith. split.
  - apply callsAtMost_silent_bind; [apply lift_silent|]. intros loc.
    apply newRecords_loop_calls. exact Hg.
  - apply returns_bind. intros loc _ _ _ st rows st' H.
    pose proof (newRecords_loop_length ggt loc _ _ _ st rows st' H) as Hl.
    simpl in Hl. lia.
Qed.

(** X16.  For any collaborators, [newRecords] makes at most [backfillDays]
    metric queries in the first revision and at most twice as many in the
    second, and it returns at most [backfillDays] rows; with [backfillDays]
    at or below 0 it makes no call and returns no row. *)
Theorem newRecords_at_most_one_row_per_day :
  (callsAtMost (Legacy.newRecords env indefinite backfillDays cfg svc slo existing)
     (Z.to_nat backfillDays)
   /\ returns (Legacy.newRecords env indefinite backfillDays cfg svc slo existing)
        (fun rows => (length rows <= Z.to_nat backfillDays)%nat))
  /\ (callsAtMost (Ratio.newRecords env indefinite backfillDays cfg svc slo existing)
        (2 * Z.to_nat backfillDays)
      /\ returns (Ratio.newRecords env indefinite backfillDays cfg svc slo existing)
           (fun rows => (length rows <= Z.to_nat backfillDays)%nat)).
Proof.
  split.
  - destruct (newRecordsWith_bounds (Legacy.getGoodTotal env indefinite) 1
                Legacy_getGoodTotal_one_call) as [Hc Hr].
    split; [|exact Hr]. eapply callsAtMost_le; [exact Hc | lia].
  - destruct (newRecordsWith_bounds (Ratio.getGoodTotal env indefinite) 2
                Ratio_getGoodTotal_two_calls) as [Hc Hr].
    split; [|exact Hr]. eapply callsAtMost_le; [exact Hc | lia].
Qed.

End Bounds.

(** ** The counts of a row *)

Section RowCounts.

Context {W : Type}.
Variable env : Env W.
Variable indefinite : float -> Z.
Variable backfillDays : Z.
Variables (cfg : Config) (svc : Service) (slo : SLO) (existing : bqMap).

Lemma newRecords_day_counts (ggt : @evaluator W) loc daysAgo rows :
  1 <= daysAgo <= backfillDays ->
  Forall (rowOfEvaluation env backfillDays ggt cfg slo loc) rows ->
  returns (newRecords_day env ggt cfg svc slo existing loc daysAgo rows)
    (Forall (rowOfEvaluation env backfillDays ggt cfg slo loc)).
Proof.
  intros Hd Hrows. unfold newRecords_day.
  apply returns_bind. intros now1 c1 c1' Hn1. apply clock_timeNowShows in Hn1.
  apply returns_bind. intros now2 c2 c2' Hn2. apply clock_timeNowShows in Hn2.
  apply returns_bind. intros service _ _ _.
  apply returns_bind. intros name _ _ _.
  destruct (bqMap_Check existing service name _); [apply returns_ret; exact Hrows|].
  apply returns_bind. intros [good total] s s' Hg.
  apply returns_bind. intros _ _ _ _. apply returns_ret.
  apply Forall_app. split; [exact Hrows|]. constructor; [|constructor].
  exists daysAgo, now1, now2, s, s'.
  split; [exact Hn1|]. split; [exact Hn2|]. split; [exact Hd|].
  split; [exact Hg|]. split; reflexivity.
Qed.

Lemma newRecords_loop_counts (ggt : @evaluator W) loc n : forall daysAgo rows,
  1 <= daysAgo -> Z.of_nat n <= Z.max 0 (backfillDays - daysAgo + 1) ->
  Forall (rowOfEvaluation env backfillDays ggt cfg slo loc) rows ->
  returns (newRecords_loop env ggt cfg svc slo existing loc n daysAgo rows)
    (Forall (rowOfEvaluation env backfillDays ggt cfg slo loc)).
Proof.
  induction n as [|n IH]; intros daysAgo rows Hlo Hhi Hrows; simpl.
  - apply returns_ret. exact Hrows.
  - apply returns_bind. intros rows' s s' Hday. apply IH; [lia | lia |].
    exact (newRecords_day_counts ggt loc daysAgo rows ltac:(lia) Hrows s rows' s' Hday).
Qed.

Lemma newRecordsWith_counts (ggt : @evaluator W) loc :
  LoadLocation env (TimeZone cfg) = Ret loc ->
  returns (newRecordsWith env backfillDays ggt cfg svc slo existing)
    (Forall (rowOfEvaluation env backfillDays ggt cfg slo loc)).
Proof.
  intros Hloc. unfold newRecordsWith. rewrite Hloc.
  apply returns_bind. intros l st st' Hl.
  apply lift_inv_Ret in Hl as [Hl _]. inversion Hl. subst l.
  apply newRecords_loop_counts; [lia | lia | constructor].
Qed.

Lemma rowOfEvaluation_steady (ggt : @evaluator W) loc now row :
  timeNowReads env now ->
  rowOfEvaluation env backfillDays ggt cfg slo loc row ->
  rowOfEvaluationAt now backfillDays ggt cfg slo loc row.
Proof.
  intros Hsteady (d & now1 & now2 & s & s' & H1 & H2 & Hd & Hg & Hdate & Hgoal).
  apply (timeNowShows_steady env now) in H1; [|exact Hsteady].
  apply (timeNowShows_steady env now) in H2; [|exact Hsteady].
  subst now1 now2. exists d, s, s'.
  split; [exact Hd|]. split; [exact Hg|]. split; [exact Hdate | exact Hgoal].
Qed.

(** X15.  In both revisions, every row that [newRecords] returns carries as
    [Good] and [Total], in this order, the two numbers that [getGoodTotal]
    returned for the interval from the midnight that gives the row its date
    to the midnight after it, and the goal of the SLO as [Target]: the row
    is that of a backfill day [daysAgo], the interval runs from the midnight
    [daysAgo] days to the one [daysAgo - 1] days before what the clock
    behind [timeNow] shows.  With a clock that reads [now] throughout, the
    interval is the one between these two midnights counted from [now]. *)
Theorem newRecords_rows_carry_the_counts (loc : GoTime.Location) :
  LoadLocation env (TimeZone cfg) = Ret loc ->
  (returns (Legacy.newRecords env indefinite backfillDays cfg svc slo existing)
     (Forall (rowOfEvaluation env backfillDays
                (Legacy.getGoodTotal env indefinite) cfg slo loc))
   /\ returns (Ratio.newRecords env indefinite backfillDays cfg svc slo existing)
        (Forall (rowOfEvaluation env backfillDays
                   (Ratio.getGoodTotal env indefinite) cfg slo loc)))
  /\ (forall now,
        timeNowReads env now ->
        returns (Legacy.newRecords env indefinite backfillDays cfg svc slo existing)
          (Forall (rowOfEvaluationAt now backfillDays
                     (Legacy.getGoodTotal env indefinite) cfg slo loc))
        /\ returns (Ratio.newRecords env indefinite backfillDays cfg svc slo existing)
             (Forall (rowOfEvaluationAt now backfillDays
                        (Ratio.getGoodTotal env indefinite) cfg slo loc))).
Proof.
  intros Hloc. split.
  - split; apply newRecordsWith_counts; exact Hloc.
  - intros now Hsteady. split; intros st rows st' H.
    + eapply Forall_impl; [exact (newRecordsWith_counts _ loc Hloc st rows st' H)|].
      intros row. apply rowOfEvaluation_steady. exact Hsteady.
    + eapply Forall_impl; [exact (newRecordsWith_counts _ loc Hloc st rows st' H)|].
      intros row. apply rowOfEvaluation_steady. exact Hsteady.
Qed.

End RowCounts.

Lemma newRecords_rows_carry_the_counts_witness :
  Forall (rowOfEvaluationAt (Mock.mockTimeNow syncAnswers) 2
            (Legacy.getGoodTotal (Mock.env syncAnswers) Mock.amd64)
            testConfig slo1 Zones.London) [row_slo1_0509].
Proof.
  apply (proj1 (proj2 (newRecords_rows_carry_the_counts (Mock.env syncAnswers) Mock.amd64 2
                         testConfig svc1 slo1 existingTest Zones.London eq_refl)
                  (Mock.mockTimeNow syncAnswers) (fun _ => eq_refl))
           Mock.start [row_slo1_0509]
           (snd (Legacy.newRecords (Mock.env syncAnswers) Mock.amd64 2 testConfig
                   svc1 slo1 existingTest Mock.start))).
  vm_compute. reflexivity.
Defined.

(** ** Metric queries that fail, and answers of one kind *)

Section QueryFailures.

Context {W : Type}.
Variable env : Env W.
Variable indefinite : float -> Z.

(** X18.  A metric query that fails.  The first revision's [getGoodTotal]
    returns the error wrapped as an error of [ListTimeSeries]; [getCounter]
    returns it as it is; the second revision's [getGoodTotal] returns the
    error of its first query (for the good filter if that is set, else for
    the bad filter) without making the second query.  In each case the
    failed query is the only call made. *)
Theorem getGoodTotal_query_failure
    (cfg : Config) (slo : SLO) (start end_ : GoTime.Time) (st : State W)
    (err : error) (w : W) :
  (ListTimeSeries env (Legacy.request cfg slo start end_) (world st) = (Fail err, w) ->
   Legacy.getGoodTotal env indefinite cfg slo start end_ st
   = (Fail (ErrListTimeSeries err),
      mkState w (trace st ++ [EvListTimeSeries (Legacy.request cfg slo start end_)])))
  /\ (forall filter,
        ListTimeSeries env (Ratio.request cfg start end_ filter) (world st) = (Fail err, w) ->
        Ratio.getCounter env indefinite cfg start end_ filter st
        = (Fail err,
           mkState w (trace st ++ [EvListTimeSeries (Ratio.request cfg start end_ filter)])))
  /\ (forall sli,
        Ratio.ratioSLI slo = Ret sli ->
        (2 <= filtersSet sli)%nat ->
        let first := if Strings.nonempty (Good sli) then Good sli else Bad sli in
        ListTimeSeries env (Ratio.request cfg start end_ first) (world st) = (Fail err, w) ->
        Ratio.getGoodTotal env indefinite cfg slo start end_ st
        = (Fail err,
           mkState w (trace st ++ [EvListTimeSeries (Ratio.request cfg start end_ first)]))).
Proof.
  split; [|split].
  - intros H. unfold Legacy.getGoodTotal, bind, call. rewrite H. reflexivity.
  - intros filter H. unfold Ratio.getCounter, bind, call. rewrite H. reflexivity.
  - intros sli Hsli Hn first H. subst first.
    unfold Ratio.getGoodTotal, bind, lift. rewrite Hsli.
    unfold filtersSet in Hn.
    destruct (Strings.nonempty (Good sli)) eqn:Hg,
             (Strings.nonempty (Bad sli)) eqn:Hb,
             (Strings.nonempty (Total sli)) eqn:Ht;
      simpl in Hn; try lia; simpl;
      unfold Ratio.getCounter, bind, call; rewrite H; reflexivity.
Qed.

(** X19.  The first revision's [getGoodTotal] does not require one good and
    one bad series: two conforming series that are both labelled good give
    good = total = [int64] of the sum of the two values, and two that are
    both labelled bad give good = 0 and total = [int64] of the sum. *)
Theorem getGoodTotal_legacy_series_of_one_kind
    (cfg : Config) (slo : SLO) (start end_ : GoTime.Time)
    (st : State W) (s1 s2 : TimeSeries) (w : W) :
  ListTimeSeries env (Legacy.request cfg slo start end_) (world st) = (Ret [s1; s2], w) ->
  conforming s1 -> conforming s2 ->
  (label s1 "event_type" = "good" -> label s2 "event_type" = "good" ->
   fst (Legacy.getGoodTotal env indefinite cfg slo start end_ st)
   = Ret (Float64.to_int64 indefinite (pointOf s1 + pointOf s2)%float,
          Float64.to_int64 indefinite (pointOf s1 + pointOf s2)%float))
  /\ (label s1 "event_type" = "bad" -> label s2 "event_type" = "bad" ->
      fst (Legacy.getGoodTotal env indefinite cfg slo start end_ st)
      = Ret (0, Float64.to_int64 indefinite (pointOf s1 + pointOf s2)%float)).
Proof.
  intros Hq H1 H2.
  unfold Legacy.getGoodTotal, bind, call, lift. rewrite Hq. cbv beta iota. split.
  - intros L1 L2.
    rewrite (sumSeries_step_good s1), (sumSeries_step_good s2) by assumption.
    simpl. rewrite to_int64_sum_from_zero. reflexivity.
  - intros L1 L2.
    rewrite (sumSeries_step_bad s1), (sumSeries_step_bad s2) by assumption.
    simpl. rewrite to_int64_sum_from_zero. reflexivity.
Qed.

End QueryFailures.

Lemma getGoodTotal_query_failure_witness :
  Legacy.getGoodTotal (Mock.env (failingSeries (ErrExternal "quota"))) Mock.amd64
    testConfig slo1 day0 day1 Mock.start
  = (Fail (ErrListTimeSeries (ErrExternal "quota")),
     mkState tt [EvListTimeSeries (Legacy.request testConfig slo1 day0 day1)])
  /\ Ratio.getGoodTotal (Mock.env (failingSeries (ErrExternal "quota"))) Mock.amd64
       testConfig (ratioSLO "" "bad" "total") day0 day1 Mock.start
     = (Fail (ErrExternal "quota"),
        mkState tt [EvListTimeSeries (Ratio.request testConfig day0 day1 "bad")]).
Proof.
  pose (thm slo := getGoodTotal_query_failure (Mock.env (failingSeries (ErrExternal "quota")))
                     Mock.amd64 testConfig slo day0 day1 Mock.start (ErrExternal "quota") tt).
  split.
  - exact (proj1 (thm slo1) eq_refl).
  - apply (proj2 (proj2 (thm (ratioSLO "" "bad" "total"))) _ eq_refl).
    + unfold filtersSet. simpl. lia.
    + reflexivity.
Defined.

Lemma getGoodTotal_legacy_series_of_one_kind_witness :
  fst (Legacy.getGoodTotal
         (Mock.env (seriesAnswers [labelled "good" 100; labelled "good" 11])) Mock.amd64
         testConfig slo1 day0 day1 Mock.start)
  = Ret (Float64.to_int64 Mock.amd64 (100 + 11)%float,
         Float64.to_int64 Mock.amd64 (100 + 11)%float).
Proof.
  apply (proj1 (getGoodTotal_legacy_series_of_one_kind
                  (Mock.env (seriesAnswers [labelled "good" 100; labelled "good" 11]))
                  Mock.amd64 testConfig slo1 day0 day1 Mock.start
                  (labelled "good" 100) (labelled "good" 11) tt eq_refl
                  (conforming_labelled_good _) (conforming_labelled_good _)));
    reflexivity.
Defined.

(** ** What a synchronisation run calls *)

Section Confinement.

Context {W : Type}.
Variable env : Env W.
Variable indefinite : float -> Z.
Variable backfillDays : Z.
Variable bqBatchSize : Z.
Variable cfg : Config.

Lemma readBQMap_confined : emits (readBQMap env backfillDays cfg) (confined cfg).
Proof.
  unfold readBQMap.
  apply emits_bind; [apply emits_lift|]. intros loc _ _ _.
  apply emits_bind; [apply emits_clock|]. intros now _ _ _.
  apply emits_bind; [apply emits_call; simpl; eauto|]. intros rows _ _ _.
  apply emits_lift.
Qed.

Lemma newRecordsWith_confined (ggt : @evaluator W) svc slo existing :
  (forall start end_, emits (ggt cfg slo start end_) (confined cfg)) ->
  emits (newRecordsWith env backfillDays ggt cfg svc slo existing) (confined cfg).
Proof.
  intros Hg. unfold newRecordsWith.
  apply emits_bind; [apply emits_lift|]. intros loc _ _ _.
  generalize (Z.to_nat backfillDays) 1 (@nil BQRow).
  intros n. induction n as [|n IH]; intros daysAgo rows; simpl.
  - apply emits_ret.
  - apply emits_bind; [|intros rows' _ _ _; apply IH].
    unfold newRecords_day.
    apply emits_bind; [apply emits_clock|]. intros now1 _ _ _.
    apply emits_bind; [apply emits_clock|]. intros now2 _ _ _.
    apply emits_bind; [apply emits_lift|]. intros service _ _ _.
    apply emits_bind; [apply emits_lift|]. intros name _ _ _.
    destruct (bqMap_Check existing service name _); [apply emits_ret|].
    apply emits_bind; [apply Hg|]. intros [good total] _ _ _.
    apply emits_bind; [apply emits_lift|]. intros _ _ _ _. apply emits_ret.
Qed.

Lemma Legacy_getGoodTotal_confined slo start end_ :
  emits (Legacy.getGoodTotal env indefinite cfg slo start end_) (confined cfg).
Proof.
  unfold Legacy.getGoodTotal. apply emits_bind.
  - intros st. exists [EvListTimeSeries (Legacy.request cfg slo start end_)].
    unfold call. destruct (ListTimeSeries env _ (world st)) as [[series | e | p] w];
      simpl; (split; [reflexivity|]); repeat constructor.
  - intros series _ _ _. destruct series as [|s1 [|s2 [|s3 rest]]];
      try apply emits_fail; try apply emits_ret.
    apply emits_bind; [apply emits_lift|]. intros [good total] _ _ _. apply emits_ret.
Qed.

Lemma Ratio_getCounter_confined start end_ filter :
  emits (Ratio.getCounter env indefinite cfg start end_ filter) (confined cfg).
Proof.
  unfold Ratio.getCounter. apply emits_bind.
  - apply emits_call. simpl. auto.
  - intros series _ _ _. apply emits_lift.
Qed.

Lemma Ratio_getGoodTotal_confined slo start end_ :
  emits (Ratio.getGoodTotal env indefinite cfg slo start end_) (confined cfg).
Proof.
  unfold Ratio.getGoodTotal.
  apply emits_bind; [apply emits_lift|]. intros sli _ _ _.
  destruct (_ && _).
  { apply emits_bind; [apply Ratio_getCounter_confined|]. intros good _ _ _.
    apply emits_bind; [apply Ratio_getCounter_confined|]. intros total _ _ _.
    apply emits_ret. }
  destruct (_ && _).
  { apply emits_bind; [apply Ratio_getCounter_confined|]. intros good _ _ _.
    apply emits_bind; [apply Ratio_getCounter_confined|]. intros bad _ _ _.
    apply emits_ret. }
  destruct (_ && _); [|apply emits_fail].
  apply emits_bind; [apply Ratio_getCounter_confined|]. intros bad _ _ _.
  apply emits_bind; [apply Ratio_getCounter_confined|]. intros total _ _ _.
  apply emits_ret.
Qed.

Lemma Legacy_put_confined rows : emits (Legacy.put env cfg rows) (confined cfg).
Proof.
  unfold Legacy.put. apply emits_bind; [apply emits_call_err; simpl; auto|].
  intros [e|] _ _ _; [apply emits_fail | apply emits_ret].
Qed.

Lemma Ratio_put_confined rows : emits (Ratio.put env cfg rows) (confined cfg).
Proof.
  unfold Ratio.put. apply emits_bind; [apply emits_call_err; simpl; auto|].
  intros [e|] _ _ _; [apply emits_fail | apply emits_ret].
Qed.

Lemma Legacy_syncSLOs_confined existing svc slos : forall rows,
  emits (Legacy.syncSLOs env indefinite backfillDays bqBatchSize cfg existing svc slos rows)
    (confined cfg).
Proof.
  induction slos as [|slo rest IH]; intros rows; simpl; [apply emits_ret|].
  apply emits_bind.
  { apply newRecordsWith_confined. intros s e. apply Legacy_getGoodTotal_confined. }
  intros res _ _ _.
  apply emits_bind; [apply emits_lift|]. intros _ _ _ _.
  apply emits_bind; [apply emits_lift|]. intros _ _ _ _.
  apply emits_bind; [|intros rows' _ _ _; apply IH].
  destruct (batch_full _ _); [|apply emits_ret].
  apply emits_bind; [apply Legacy_put_confined|]. intros _ _ _ _. apply emits_ret.
Qed.

Lemma Ratio_syncSLOs_confined existing svc slos : forall rows,
  emits (Ratio.syncSLOs env indefinite backfillDays bqBatchSize cfg existing svc slos rows)
    (confined cfg).
Proof.
  induction slos as [|slo rest IH]; intros rows; simpl; [apply emits_ret|].
  apply emits_bind.
  { destruct (Ratio.isGoodTotalRatio slo).
    - apply emits_bind.
      { apply newRecordsWith_confined. intros s e. apply Ratio_getGoodTotal_confined. }
      intros res _ _ _.
      apply emits_bind; [apply emits_lift|]. intros _ _ _ _.
      apply emits_bind; [apply emits_lift|]. intros _ _ _ _. apply emits_ret.
    - apply emits_bind; [apply emits_lift|]. intros _ _ _ _.
      apply emits_bind; [apply emits_lift|]. intros _ _ _ _. apply emits_ret. }
  intros rows1 _ _ _.
  apply emits_bind; [|intros rows' _ _ _; apply IH].
  destruct (batch_full _ _); [|apply emits_ret].
  apply emits_bind; [apply Ratio_put_confined|]. intros _ _ _ _. apply emits_ret.
Qed.

Lemma Legacy_syncAllServices_confined :
  emits (Legacy.syncAllServices env indefinite backfillDays bqBatchSize cfg) (confined cfg).
Proof.
  unfold Legacy.syncAllServices.
  apply emits_bind; [apply readBQMap_confined|]. intros existing _ _ _.
  apply emits_bind; [apply emits_call; exact I|]. intros svcs _ _ _.
  apply emits_bind; [|intros rows _ _ _; apply Legacy_put_confined].
  generalize (@nil BQRow). induction svcs as [|svc rest IH]; intros rows; simpl;
    [apply emits_ret|].
  apply emits_bind; [apply emits_call; exact I|]. intros slos _ _ _.
  apply emits_bind; [apply Legacy_syncSLOs_confined|]. intros rows' _ _ _. apply IH.
Qed.

Lemma Ratio_syncAllServices_confined :
  emits (Ratio.syncAllServices env indefinite backfillDays bqBatchSize cfg) (confined cfg).
Proof.
  unfold Ratio.syncAllServices.
  apply emits_bind; [apply readBQMap_confined|]. intros existing _ _ _.
  apply emits_bind; [apply emits_call; exact I|]. intros svcs _ _ _.
  apply emits_bind; [|intros rows _ _ _; apply Ratio_put_confined].
  generalize (@nil BQRow). induction svcs as [|svc rest IH]; intros rows; simpl;
    [apply emits_ret|].
  apply emits_bind; [apply emits_call; exact I|]. intros slos _ _ _.
  apply emits_bind; [apply Ratio_syncSLOs_confined|]. intros rows' _ _ _. apply IH.
Qed.

(** X20.  In both revisions, whatever the collaborators answer and however
    the run ends, every call of [syncAllServices] is one of: a metric query
    under the project of the configuration, with the DELTA aligner and an
    alignment period equal to the length of the queried interval; a listing
    of services or of SLOs; the index query on the table of the
    configuration; a write to the table [data] of the configured dataset.
    It never reads or writes the lease label. *)
Theorem syncAllServices_confined :
  emits (Legacy.syncAllServices env indefinite backfillDays bqBatchSize cfg) (confined cfg)
  /\ emits (Ratio.syncAllServices env indefinite backfillDays bqBatchSize cfg) (confined cfg).
Proof. split; [exact Legacy_syncAllServices_confined | exact Ratio_syncAllServices_confined]. Qed.

End Confinement.

(** ** Batched writes in the second revision *)

Section RatioSync.

Context {W : Type}.
Variable env : Env W.
Variable indefinite : float -> Z.
Variable backfillDays : Z.
Variable bqBatchSize : Z.
Variable cfg : Config.

Local Abbreviation contributed := (contributedBy env indefinite backfillDays cfg).

Lemma Ratio_newRecords_quiet svc slo existing :
  quiet (Ratio.newRecords env indefinite backfillDays cfg svc slo existing).
Proof.
  unfold Ratio.newRecords, newRecordsWith.
  apply emits_bind; [apply emits_lift|]. intros loc _ _ _.
  eapply emits_weaken.
  - apply (newRecords_loop_emits env backfillDays (Ratio.getGoodTotal env indefinite)
             (Ratio_getGoodTotal_queries env indefinite) cfg svc slo existing loc);
      lia.
  - intros ev (req & d & n1 & n2 & s & n & -> & _). reflexivity.
Qed.

Lemma Ratio_put_trace rows (st : State W) :
  trace (snd (Ratio.put env cfg rows st))
  = trace st ++ [EvPut (Dataset cfg) tableName rows].
Proof.
  unfold Ratio.put, bind, call_err.
  destruct (Put env (Dataset cfg) tableName rows (world st)) as [[e|] w]; reflexivity.
Qed.

Lemma Ratio_syncSLOs_batches existing svc slos : forall rows st rows' st',
  Ratio.syncSLOs env indefinite backfillDays bqBatchSize cfg existing svc slos rows st
  = (Ret rows', st') ->
  exists results flushed,
    Forall2 (contributed existing) (map (pair svc) slos) results
    /\ accumulate bqBatchSize rows results = (flushed, rows')
    /\ puts (trace st') = puts (trace st) ++ flushed.
Proof.
  induction slos as [|slo rest IH]; intros rows st rows' st' H; simpl in H.
  - inversion H. subst. exists [], []. rewrite app_nil_r.
    split; [constructor | auto].
  - apply bind_inv_Ret in H as (rows0 & st1 & Hslo & H).
    apply bind_inv_Ret in H as (rows1 & st4 & Hflush & H).
    destruct (IH _ _ _ _ H) as (results & flushed & Hprod & Hacc & Hputs).
    assert (Hres : exists res,
               rows0 = rows ++ res /\ contributed existing (svc, slo) res
               /\ puts (trace st1) = puts (trace st)).
    { destruct (Ratio.isGoodTotalRatio slo) eqn:Hr.
      - apply bind_inv_Ret in Hslo as (res & s1 & Hnr & Hslo).
        apply bind_inv_Ret in Hslo as (n1 & s2 & Hn1 & Hslo).
        apply lift_inv_Ret in Hn1 as [_ ->].
        apply bind_inv_Ret in Hslo as (n2 & s3 & Hn2 & Hslo).
        apply lift_inv_Ret in Hn2 as [_ ->].
        inversion Hslo. subst rows0 st1.
        exists res. split; [reflexivity|]. split.
        + left. split; [exact Hr|]. exists st, s1. exact Hnr.
        + pose proof (quiet_puts _ st (Ratio_newRecords_quiet svc slo existing)) as Hq.
          rewrite Hnr in Hq. exact Hq.
      - apply bind_inv_Ret in Hslo as (n1 & s2 & Hn1 & Hslo).
        apply lift_inv_Ret in Hn1 as [_ ->].
        apply bind_inv_Ret in Hslo as (n2 & s3 & Hn2 & Hslo).
        apply lift_inv_Ret in Hn2 as [_ ->].
        inversion Hslo. subst rows0 st1.
        exists []. split; [symmetry; apply app_nil_r|]. split; [|reflexivity].
        right. split; [exact Hr | reflexivity]. }
    destruct Hres as (res & -> & Hc & Hq).
    exists (res :: results).
    destruct (batch_full bqBatchSize (rows ++ res)) eqn:Hfull.
    + apply bind_inv_Ret in Hflush as ([] & st5 & Hput & Hret).
      inversion Hret. subst rows1 st5.
      pose proof (Ratio_put_trace (rows ++ res) st1) as Ht. rewrite Hput in Ht. simpl in Ht.
      exists ((rows ++ res) :: flushed). split; [|split].
      * constructor; assumption.
      * simpl. rewrite Hfull, Hacc. reflexivity.
      * rewrite Hputs, Ht, puts_app, Hq. simpl. rewrite <- app_assoc. reflexivity.
    + inversion Hflush. subst rows1 st4.
      exists flushed. split; [|split].
      * constructor; assumption.
      * simpl. rewrite Hfull. exact Hacc.
      * rewrite Hputs, Hq. reflexivity.
Qed.

Lemma Ratio_syncServices_batches existing svcs : forall rows st rows' st',
  Ratio.syncServices env indefinite backfillDays bqBatchSize cfg existing svcs rows st
  = (Ret rows', st') ->
  exists sloss results flushed,
    Forall2 (listedFor env) svcs sloss
    /\ Forall2 (contributed existing) (slosInOrder svcs sloss) results
    /\ accumulate bqBatchSize rows results = (flushed, rows')
    /\ puts (trace st') = puts (trace st) ++ flushed.
Proof.
  induction svcs as [|svc rest IH]; intros rows st rows' st' H; simpl in H.
  - inversion H. subst. exists [], [], []. rewrite app_nil_r.
    split; [constructor|]. split; [constructor | auto].
  - apply bind_inv_Ret in H as (slos & st1 & Hslos & H).
    apply bind_inv_Ret in H as (rows1 & st2 & Hinner & H).
    destruct (Ratio_syncSLOs_batches _ _ _ _ _ _ _ Hinner)
      as (results1 & flushed1 & Hp1 & Hacc1 & Hputs1).
    destruct (IH _ _ _ _ H) as (sloss & results2 & flushed2 & Hl2 & Hp2 & Hacc2 & Hputs2).
    assert (Hq : puts (trace st1) = puts (trace st)).
    { pose proof (quiet_puts (call (SLOs env svc) (EvSLOs svc)) st) as Hq.
      rewrite Hslos in Hq. apply Hq. apply emits_call. reflexivity. }
    exists (slos :: sloss), (results1 ++ results2), (flushed1 ++ flushed2).
    split; [|split; [|split]].
    + constructor; [|exact Hl2].
      exists (world st), (world st1). exact (call_inv_Ret _ _ _ _ _ Hslos).
    + unfold slosInOrder. cbn [zip_with concat].
      apply Forall2_app; [exact Hp1 | exact Hp2].
    + rewrite accumulate_app, Hacc1, Hacc2. reflexivity.
    + rewrite Hputs2, Hputs1, Hq, app_assoc. reflexivity.
Qed.

Lemma readBQMap_makes_no_write : quiet (readBQMap env backfillDays cfg).
Proof.
  unfold readBQMap.
  apply emits_bind; [apply emits_lift|]. intros loc _ _ _.
  apply emits_bind; [apply emits_clock|]. intros now _ _ _.
  apply emits_bind; [apply emits_call; reflexivity|]. intros rows _ _ _.
  apply emits_lift.
Qed.

(** X21.  The second revision writes in the same batches as the first.  On a
    run that ends without error, the writes are those of the buffer
    discipline applied to one list for every SLO that the collaborators
    listed, in the order of the listings: the rows of [newRecords] for an
    SLO with a [GoodTotalRatioSLI], and no rows for any other SLO, for which
    the flush check runs all the same.  Each write but the last carries at
    least [bqBatchSize] rows, the last fewer or none, and together they
    carry the rows once and in order. *)
Theorem syncAllServices_ratio_batched_writes (st st' : State W) :
  Ratio.syncAllServices env indefinite backfillDays bqBatchSize cfg st = (Ret tt, st') ->
  exists existing results flushed kept,
    gathers env backfillDays cfg contributed st existing results
    /\ accumulate bqBatchSize [] results = (flushed, kept)
    /\ puts (trace st') = puts (trace st) ++ flushed ++ [kept]
    /\ Forall (fun batch => bqBatchSize <= Z.of_nat (length batch)) flushed
    /\ (Z.of_nat (length kept) < bqBatchSize \/ kept = [])
    /\ concat (flushed ++ [kept]) = concat results.
Proof.
  intros H. unfold Ratio.syncAllServices in H.
  apply bind_inv_Ret in H as (existing & st1 & Hread & H).
  apply bind_inv_Ret in H as (svcs & st2 & Hsvcs & H).
  apply bind_inv_Ret in H as (rows & st3 & Hloop & Hput).
  destruct (Ratio_syncServices_batches _ _ _ _ _ _ Hloop)
    as (sloss & results & flushed & Hlisted & Hprod & Hacc & Hputs).
  exists existing, results, flushed, rows. split.
  { exists st1, svcs, (world st2), sloss. split; [exact Hread|].
    split; [exact (call_inv_Ret _ _ _ _ _ Hsvcs)|]. split; [exact Hlisted | exact Hprod]. }
  split; [exact Hacc|].
  pose proof (Ratio_put_trace rows st3) as Ht. rewrite Hput in Ht. simpl in Ht.
  pose proof (quiet_puts _ st readBQMap_makes_no_write) as Hq1.
  rewrite Hread in Hq1. simpl in Hq1.
  assert (Hq2 : puts (trace st2) = puts (trace st1)).
  { pose proof (quiet_puts (call (Services env) EvServices) st1) as Hq.
    rewrite Hsvcs in Hq. apply Hq. apply emits_call. reflexivity. }
  split.
  { rewrite Ht, puts_app, Hputs, Hq2, Hq1. simpl. rewrite <- app_assoc. reflexivity. }
  destruct (accumulate_sizes bqBatchSize results [] flushed rows Hacc) as (Hf & Hk).
  split; [exact Hf|]. split.
  - destruct Hk as [Hk | [Hk | [_ Hk]]]; auto.
  - rewrite concat_app. simpl. rewrite app_nil_r.
    apply (accumulate_concat bqBatchSize results [] flushed rows Hacc).
Qed.

End RatioSync.

(** ** A run whose index cannot be read *)

Section IndexFailure.

Context {W : Type}.
Variable env : Env W.
Variable indefinite : float -> Z.
Variable backfillDays : Z.
Variable bqBatchSize : Z.
Variable cfg : Config.

Lemma readBQMap_failure (st : State W) loc now w1 r w2 e :
  LoadLocation env (TimeZone cfg) = Ret loc ->
  time_Now env (world st) = (now, w1) ->
  Query env (indexQuery backfillDays cfg loc now) w1 = (r, w2) ->
  r = Fail e \/ (e = ErrBQRow /\ exists rows, r = Ret rows /\ Exists keyIncomplete rows) ->
  readBQMap env backfillDays cfg st
  = (Fail e, mkState w2 (trace st ++ [EvQuery (indexQuery backfillDays cfg loc now)])).
Proof.
  intros Hloc Hnow Hq Hr.
  unfold readBQMap, bind, lift, clock, call. rewrite Hloc, Hnow. cbn [world trace].
  fold (indexQuery backfillDays cfg loc now). rewrite Hq.
  destruct Hr as [-> | (-> & rows & -> & Hinc)]; [reflexivity|].
  rewrite (readBQMap_rows_incomplete rows Hinc). reflexivity.
Qed.

(** X3.  In both revisions, a run whose index cannot be read ends there.
    When the time zone of the configuration cannot be loaded, the run fails
    with that error before any call.  When the index query fails, or returns
    a row without service, SLO or date, the run fails with the error of the
    query, respectively with the error of [readBQMap], and the index query
    is the only call it has made: no service is listed, no metric is queried
    and nothing is written. *)
Theorem syncAllServices_stops_when_the_index_fails (st : State W) :
  (forall e,
     LoadLocation env (TimeZone cfg) = Fail e ->
     Legacy.syncAllServices env indefinite backfillDays bqBatchSize cfg st = (Fail e, st)
     /\ Ratio.syncAllServices env indefinite backfillDays bqBatchSize cfg st = (Fail e, st))
  /\ (forall loc now w1 r w2 e,
        LoadLocation env (TimeZone cfg) = Ret loc ->
        time_Now env (world st) = (now, w1) ->
        Query env (indexQuery backfillDays cfg loc now) w1 = (r, w2) ->
        r = Fail e
        \/ (e = ErrBQRow /\ exists rows, r = Ret rows /\ Exists keyIncomplete rows) ->
        Legacy.syncAllServices env indefinite backfillDays bqBatchSize cfg st
        = (Fail e, mkState w2 (trace st ++ [EvQuery (indexQuery backfillDays cfg loc now)]))
        /\ Ratio.syncAllServices env indefinite backfillDays bqBatchSize cfg st
           = (Fail e, mkState w2 (trace st ++ [EvQuery (indexQuery backfillDays cfg loc now)]))).
Proof.
  split.
  - intros e Hloc.
    assert (H : readBQMap env backfillDays cfg st = (Fail e, st)).
    { unfold readBQMap, bind, lift. rewrite Hloc. reflexivity. }
    unfold Legacy.syncAllServices, Ratio.syncAllServices.
    rewrite !(bind_Fail _ _ _ _ _ H). split; reflexivity.
  - intros loc now w1 r w2 e Hloc Hnow Hq Hr.
    pose proof (readBQMap_failure st loc now w1 r w2 e Hloc Hnow Hq Hr) as H.
    unfold Legacy.syncAllServices, Ratio.syncAllServices.
    rewrite !(bind_Fail _ _ _ _ _ H). split; reflexivity.
Qed.

End IndexFailure.

Lemma syncAllServices_stops_when_the_index_fails_witness :
  syncRun (withQuery syncAnswers (Fail (ErrExternal "error from bq"))) 2 1
  = (Fail (ErrExternal "error from bq"),
     mkState tt [EvQuery (indexQuery 2 testConfig Zones.London (Mock.mockNow syncAnswers))])
  /\ syncRun (withQuery syncAnswers (Ret [testRow "" "slo2" "2015-01-01"])) 2 1
     = (Fail ErrBQRow,
        mkState tt [EvQuery (indexQuery 2 testConfig Zones.London (Mock.mockNow syncAnswers))]).
Proof.
  split.
  - apply (proj2 (syncAllServices_stops_when_the_index_fails
                    (Mock.env (withQuery syncAnswers (Fail (ErrExternal "error from bq"))))
                    Mock.amd64 2 1 testConfig Mock.start)
             Zones.London (Mock.mockNow syncAnswers) tt
             (Fail (ErrExternal "error from bq")) tt (ErrExternal "error from bq")
             eq_refl eq_refl eq_refl (or_introl eq_refl)).
  - apply (proj2 (syncAllServices_stops_when_the_index_fails
                    (Mock.env (withQuery syncAnswers (Ret [testRow "" "slo2" "2015-01-01"])))
                    Mock.amd64 2 1 testConfig Mock.start)
             Zones.London (Mock.mockNow syncAnswers) tt
             (Ret [testRow "" "slo2" "2015-01-01"]) tt ErrBQRow
             eq_refl eq_refl eq_refl).
    right. split; [reflexivity|]. eexists. split; [reflexivity|].
    apply Exists_cons_hd. left. reflexivity.
Defined.

(** ** Test runs of the second revision *)

Lemma syncAllServices_ratio_batched_writes_witness :
  exists existing results flushed kept,
    gathers (Mock.env ratioSyncAnswers) 2 testConfig
      (contributedBy (Mock.env ratioSyncAnswers) Mock.amd64 2 testConfig)
      Mock.start existing results
    /\ accumulate 1 [] results = (flushed, kept)
    /\ puts (trace (snd (ratioRun ratioSyncAnswers 2 1)))
       = puts (trace Mock.start) ++ flushed ++ [kept]
    /\ Forall (fun batch => 1 <= Z.of_nat (length batch)) flushed
    /\ (Z.of_nat (length kept) < 1 \/ kept = [])
    /\ concat (flushed ++ [kept]) = concat results.
Proof.
  apply (syncAllServices_ratio_batched_writes (Mock.env ratioSyncAnswers) Mock.amd64
           2 1 testConfig Mock.start (snd (ratioRun ratioSyncAnswers 2 1))).
  vm_compute. reflexivity.
Defined.

(** ** The entry point *)

Section EntryPointFacts.

Context {W : Type}.
Variable env : Env W.
Variable rt : Runtime W.
Variable syncAllServices : Config -> M W unit.

Local Abbreviation run := (SyncSloPerformance env rt syncAllServices).

Lemma setup_trace (op : W -> option error * W) (st : State W) :
  exists r w, setup op st = (Ret r, mkState w (trace st)) /\ op (world st) = (r, w).
Proof. unfold setup. destruct (op (world st)) as [r w]. eauto. Qed.

Lemma defer_setup_trace {A} (op : W -> option error * W) (body : M W A) (st : State W) :
  trace (snd (defer (setup op) body st)) = trace (snd (body st)).
Proof.
  unfold defer, setup. destruct (body st) as [r st']. cbn [fst snd].
  destruct (op (world st')) as [e w]. reflexivity.
Qed.

(** X23.  Once [SyncSloPerformance] has acquired the lease, it releases it
    on every path: whether the further set-up fails or [syncAllServices]
    returns, fails or panics, the recorded calls of the run end with the
    write of the empty value to the lease label of the dataset, and the
    calls between the acquisition and that release are calls of
    [syncAllServices]: they have every property that all calls of
    [syncAllServices] have. *)
Theorem SyncSloPerformance_releases_the_lease
    (P : Event -> Prop) (m : PubSubMessage) (cfg : Config)
    (st st1 : State W) (w0 w1 : W) (now : GoTime.Time) (l : bqLease) :
  emits (syncAllServices cfg) P ->
  json_Unmarshal rt (Data m) = Ret cfg ->
  NewBQClient rt (Project cfg) (world st) = (None, w0) ->
  time_Now env w0 = (now, w1) ->
  newBqLease env (Dataset cfg) (Time_Add now 600) (mkState w1 (trace st)) = (Ret l, st1) ->
  exists evs,
    trace (snd (run m st)) = trace st1 ++ evs ++ [leaseWrite (Dataset cfg) "" ""]
    /\ Forall P evs.
Proof.
  intros Hsync Hjson Hbq Hnow Hlease.
  assert (Hl : l = mkLease (Dataset cfg)).
  { destruct (newBqLease_cases env (Dataset cfg) (Time_Add now 600) (mkState w1 (trace st)))
      as [(exp & etag & a & b & r & c & _ & _ & Hrun) | [_ Hf]].
    - rewrite Hlease in Hrun. destruct r; inversion Hrun. reflexivity.
    - rewrite Hlease in Hf. discriminate. }
  subst l.
  unfold SyncSloPerformance. unfold bind at 1, lift. rewrite Hjson.
  unfold bind at 1, setup at 1. rewrite Hbq. cbv beta iota.
  rewrite defer_setup_trace.
  unfold bind at 1, clock. cbn [world trace]. rewrite Hnow.
  unfold bind at 1. change (10 * 60) with 600. rewrite Hlease.
  unfold defer at 1.
  match goal with |- context [let '(r, st') := ?body st1 in _] =>
    assert (Hbody : exists evs, trace (snd (body st1)) = trace st1 ++ evs /\ Forall P evs);
    [|destruct (body st1) as [r st'] eqn:Ebody]
  end.
  { unfold bind at 1.
    destruct (setup_trace (DefaultClient rt) st1) as (r1 & a1 & -> & _).
    destruct r1 as [e|]; [exists []; rewrite app_nil_r; auto|].
    unfold bind at 1.
    destruct (setup_trace (NewStackdriverMetricClient rt) (mkState a1 (trace st1)))
      as (r2 & a2 & -> & _).
    destruct r2 as [e|]; [exists []; rewrite app_nil_r; auto|].
    rewrite defer_setup_trace.
    exact (Hsync (mkState a2 (trace st1))). }
  destruct Hbody as (evs & Ht & HP). simpl in Ht.
  exists evs. split; [|exact HP].
  unfold bqLease_Close, call_err. cbn [leaseDataset].
  destruct (WriteDatasetMetadataLabel env (Dataset cfg) bqLeaseLabelName "" "" (world st'))
    as [r0 a0]. cbn [snd trace]. rewrite Ht, <- app_assoc. reflexivity.
Qed.

(** X24.  [SyncSloPerformance] does nothing without the lease.  A message
    that does not decode fails before anything is touched; a BigQuery client
    that cannot be created fails without a call; and when [newBqLease]
    fails, for instance because another run holds the lease, the run fails
    with that error after the calls of [newBqLease] alone and after closing
    the BigQuery client: [syncAllServices] is not run, and no release is
    written over a lease that is not its own. *)
Theorem SyncSloPerformance_needs_the_lease (m : PubSubMessage) (st : State W) :
  (forall e, json_Unmarshal rt (Data m) = Fail e -> run m st = (Fail e, st))
  /\ (forall cfg e w0,
        json_Unmarshal rt (Data m) = Ret cfg ->
        NewBQClient rt (Project cfg) (world st) = (Some e, w0) ->
        run m st = (Fail e, mkState w0 (trace st)))
  /\ (forall cfg w0 now w1 e st1 r w2,
        json_Unmarshal rt (Data m) = Ret cfg ->
        NewBQClient rt (Project cfg) (world st) = (None, w0) ->
        time_Now env w0 = (now, w1) ->
        newBqLease env (Dataset cfg) (Time_Add now 600) (mkState w1 (trace st))
        = (Fail e, st1) ->
        BQClient_Close rt (world st1) = (r, w2) ->
        run m st = (Fail e, mkState w2 (trace st1))).
Proof.
  split; [|split].
  - intros e H. unfold SyncSloPerformance, bind, lift. rewrite H. reflexivity.
  - intros cfg e w0 Hjson Hbq.
    unfold SyncSloPerformance, bind, lift, setup. rewrite Hjson, Hbq. reflexivity.
  - intros cfg w0 now w1 e st1 r w2 Hjson Hbq Hnow Hlease Hclose.
    unfold SyncSloPerformance. unfold bind at 1, lift. rewrite Hjson.
    unfold bind at 1, setup at 1. rewrite Hbq. cbv beta iota.
    unfold defer at 1. unfold bind at 1, clock. cbn [world trace]. rewrite Hnow.
    unfold bind at 1. change (10 * 60) with 600. rewrite Hlease.
    unfold setup. rewrite Hclose. reflexivity.
Qed.

End EntryPointFacts.

Lemma SyncSloPerformance_releases_the_lease_witness :
  exists evs,
    trace (snd (entryRun syncAnswers))
    = [leaseRead "datasetname"; leaseWrite "datasetname" "1431270600" "etag1"]
      ++ evs ++ [leaseWrite "datasetname" "" ""]
    /\ Forall (confined testConfig) evs.
Proof.
  apply (SyncSloPerformance_releases_the_lease (Mock.env syncAnswers)
           (plainRuntime testConfig) (Legacy.syncAllServices (Mock.env syncAnswers) Mock.amd64 2 1)
           (confined testConfig) (mkPubSubMessage []) testConfig Mock.start
           (mkState tt [leaseRead "datasetname";
                        leaseWrite "datasetname" "1431270600" "etag1"])
           tt tt (Mock.mockNow syncAnswers) (mkLease "datasetname")).
  - exact (Legacy_syncAllServices_confined (Mock.env syncAnswers) Mock.amd64 2 1 testConfig).
  - reflexivity.
  - reflexivity.
  - reflexivity.
  - vm_compute. reflexivity.
Defined.

Lemma SyncSloPerformance_needs_the_lease_witness :
  entryRun (withLabel syncAnswers (Ret ("1431270060", "etag1")))
  = (Fail (ErrLeaseStillValid 1431270060), mkState tt [leaseRead "datasetname"]).
Proof.
  apply (proj2 (proj2 (SyncSloPerformance_needs_the_lease
                         (Mock.env (withLabel syncAnswers (Ret ("1431270060", "etag1"))))
                         (plainRuntime testConfig)
                         (Legacy.syncAllServices
                            (Mock.env (withLabel syncAnswers (Ret ("1431270060", "etag1"))))
                            Mock.amd64 2 1)
                         (mkPubSubMessage []) Mock.start))
           testConfig tt (Mock.mockNow syncAnswers) tt
           (ErrLeaseStillValid 1431270060) (mkState tt [leaseRead "datasetname"]) None tt).
  - reflexivity.
  - reflexivity.
  - reflexivity.
  - vm_compute. reflexivity.
  - reflexivity.
Defined.

(** ** Listings page by page *)

Section Listings.

Context {W A : Type}.
Variable net : SLOClient.Net W.
Variable project : string.
Variable decode : string -> outcome (option (SLOClient.page A)).
Variable uri : string.

Local Abbreviation loop := (SLOClient.list_loop net project decode uri).

Lemma list_loop_reads tok w pgs resps tok' w' :
  reads net project decode uri tok w pgs resps tok' w' ->
  forall fuel results bodies,
    loop (length pgs + fuel) tok results bodies w
    = loop fuel tok' (results ++ itemsOf pgs) (rev resps ++ bodies) w'.
Proof.
  induction 1 as [tok w | tok w req resp w1 pg pgs resps tok' w' Hreq Hdo Hdec Htok _ IH];
    intros fuel results bodies.
  - unfold itemsOf. simpl. rewrite app_nil_r. reflexivity.
  - cbn [length Nat.add SLOClient.list_loop]. rewrite Hreq, Hdo, Hdec.
    apply nonempty_true in Htok. rewrite Htok. rewrite IH.
    unfold itemsOf. cbn [map concat rev]. rewrite <- !app_assoc. reflexivity.
Qed.

Lemma list_loop_short tok w pgs resps tok' w' :
  reads net project decode uri tok w pgs resps tok' w' ->
  forall fuel results bodies,
    (fuel <= length pgs)%nat -> loop fuel tok results bodies w = None.
Proof.
  induction 1 as [tok w | tok w req resp w1 pg pgs resps tok' w' Hreq Hdo Hdec Htok _ IH];
    intros fuel results bodies Hf.
  - simpl in Hf. replace fuel with 0%nat by lia. reflexivity.
  - destruct fuel as [|fuel]; [reflexivity|].
    cbn [SLOClient.list_loop]. rewrite Hreq, Hdo, Hdec.
    apply nonempty_true in Htok. rewrite Htok. apply IH. simpl in Hf. lia.
Qed.

Lemma list_loop_lists_all_pages :
  listsAllPages net project decode uri (fun fuel w => loop fuel "" [] [] w).
Proof.
  intros w pgs resps tok w1 Hreads. split.
  { intros fuel Hf. exact (list_loop_short _ _ _ _ _ _ Hreads fuel [] [] Hf). }
  intros fuel Hf.
  assert (E : fuel = (length pgs + S (fuel - length pgs - 1))%nat) by lia.
  pose proof (list_loop_reads _ _ _ _ _ _ Hreads (S (fuel - length pgs - 1)) [] []) as H.
  rewrite <- E in H. cbv beta. rewrite H. clear H E.
  rewrite app_nil_r. cbn [app SLOClient.list_loop].
  split; [|split].
  - intros e Hreq. rewrite Hreq. reflexivity.
  - intros req e w2 Hreq Hdo. rewrite Hreq, Hdo. reflexivity.
  - intros req resp w2 Hreq Hdo. rewrite Hreq, Hdo. split; [|split].
    + intros e Hdec. rewrite Hdec. reflexivity.
    + intros Hdec. rewrite Hdec. reflexivity.
    + intros pg Hdec Htok. rewrite Hdec.
      apply nonempty_false in Htok. rewrite Htok. reflexivity.
Qed.

Lemma list_loop_endless :
  endless net project decode uri ->
  forall fuel tok results bodies w, loop fuel tok results bodies w = None.
Proof.
  intros [Hreq Hdo]. induction fuel as [|fuel IH]; intros tok results bodies w;
    [reflexivity|].
  cbn [SLOClient.list_loop].
  destruct (Hreq tok) as (req & ->).
  destruct (Hdo req w) as (resp & w' & pg & -> & -> & Htok).
  apply nonempty_true in Htok. rewrite Htok. apply IH.
Qed.

End Listings.

(** X25.  [Services] and [SLOs] follow the next-page tokens.  After any
    number of pages that each name a next page, the request for the next
    token decides: a page without a next token ends the listing with the
    items of all pages in order; an error of the request, of the exchange or
    of the decoding is returned and the items read so far are dropped; a
    JSON [null] leaves a nil page behind, which is dereferenced.  In every
    case the bodies received are closed on return, the last one first; and
    fewer iterations than there are pages do not end the listing. *)
Theorem Services_and_SLOs_list_all_pages {W : Type} (net : SLOClient.Net W)
    (project : string) (service : Service) :
  listsAllPages net project (SLOClient.decodeServices net) (servicesURI project)
    (SLOClient.Services net project)
  /\ listsAllPages net project (SLOClient.decodeSLOs net) (slosURI service)
       (SLOClient.SLOs net project service).
Proof.
  split.
  - exact (list_loop_lists_all_pages net project (SLOClient.decodeServices net)
             (servicesURI project)).
  - exact (list_loop_lists_all_pages net project (SLOClient.decodeSLOs net)
             (slosURI service)).
Qed.

(** X26.  [Services] and [SLOs] put no bound on the number of pages: against
    a server that names a next page on every page, the loop does not reach
    its exit, whatever number of iterations it is granted. *)
Theorem Services_and_SLOs_do_not_return_from_an_endless_listing {W : Type}
    (net : SLOClient.Net W) (project : string) (service : Service) :
  (endless net project (SLOClient.decodeServices net) (servicesURI project) ->
   forall fuel w, SLOClient.Services net project fuel w = None)
  /\ (endless net project (SLOClient.decodeSLOs net) (slosURI service) ->
      forall fuel w, SLOClient.SLOs net project service fuel w = None).
Proof.
  split; intros H fuel w.
  - exact (list_loop_endless net project _ _ H fuel "" [] [] w).
  - exact (list_loop_endless net project _ _ H fuel "" [] [] w).
Qed.

Lemma Services_and_SLOs_list_all_pages_witness :
  SLOClient.Services TwoPages.net "p" 1 0%nat = None
  /\ SLOClient.Services TwoPages.net "p" 2 0%nat
     = Some (Ret [TwoPages.svcA; TwoPages.svcB], 2%nat).
Proof.
  destruct (proj1 (Services_and_SLOs_list_all_pages TwoPages.net "p" TwoPages.svcA)
              0%nat [SLOClient.mkPage [TwoPages.svcA] "t2"]
              [SLOClient.mkResponse 200 ""] "t2" 0%nat) as [Hshort Hfull].
  { eapply reads_cons; [reflexivity | reflexivity | reflexivity | discriminate |].
    apply reads_nil. }
  split; [apply Hshort; simpl; lia|].
  destruct (Hfull 2%nat ltac:(simpl; lia)) as (_ & _ & Hpage).
  destruct (Hpage _ (SLOClient.mkResponse 200 "t2") 0%nat eq_refl eq_refl) as (_ & _ & Hlast).
  exact (Hlast (SLOClient.mkPage [TwoPages.svcB] "") eq_refl eq_refl).
Defined.

Lemma Services_and_SLOs_do_not_return_from_an_endless_listing_witness :
  SLOClient.Services TwoPages.again "p" 1000 0%nat = None.
Proof.
  apply (proj1 (Services_and_SLOs_do_not_return_from_an_endless_listing
                  TwoPages.again "p" TwoPages.svcA)).
  split.
  - intros tok. eexists. reflexivity.
  - intros req w. eexists _, _, _. split; [reflexivity|]. split; [reflexivity|].
    discriminate.
Defined.
